(** * The adaptive binary-to-text encoding engine of [arch/builder.py]

    A shallow embedding of class [AdvancedCompressionEngine] and the
    properties of its codecs, method selector, hybrid benchmarker, dispatch
    and statistics.

    Conventions of the embedding.
    - Python [bytes] are lists of [byte]; Python [int] is [Z], and its
      conversions from and to [str] are those of the language, without the
      interpreter's configurable limit on the number of digits.
    - Python [str] is [string], read as a sequence of code points below 256.
    - A Python call that can raise returns a [result]; the exception classes
      the engine can meet are the constructors of [exn].
    - A finite Python [float] is the rational it denotes.  The clock
      readings and the figures [compress_data] derives from them are kept as
      rationals; where the engine compares floats or divides by one (the
      scores of the hybrid benchmarker, the report), its arithmetic is that of
      binary64, type [float]: rounding to nearest even, underflow, infinities
      and NaN.
    - [time.time()] reads an external clock: the n-th reading of a run is
      [clock n], and the engine state counts the readings taken so far.
    - The compression backends and [base64] are library code outside the
      repository; they are fields of the record [Env].
    - [_log] only prints and is left out. *)

From Stdlib Require Import ZArith QArith Qround Qabs Qpower String Ascii List Lia.
From Stdlib.Strings Require Import Byte.
From stdpp Require Import base option list gmap strings pretty.

Local Open Scope string_scope.
Local Open Scope list_scope.
Local Open Scope Z_scope.

(** ** Exceptions and the error monad *)

Inductive exn : Type :=
| ValueError (msg : string)
| KeyError
| IndexError
| ZeroDivisionError
| OverflowError
| NameError
| LibraryError.

Inductive result (A : Type) : Type :=
| Ok (a : A)
| Raise (e : exn).
Arguments Ok {A} a.
Arguments Raise {A} e.

#[global] Instance result_ret : MRet result := fun A a => Ok a.
#[global] Instance result_bind : MBind result := fun A B f m =>
  match m with
  | Ok a => f a
  | Raise e => Raise e
  end.

#[global] Instance result_fmap : FMap result := fun A B f m =>
  match m with
  | Ok a => Ok (f a)
  | Raise e => Raise e
  end.

Definition raises {A} (r : result A) : Prop := exists e, r = Raise e.
Definition returns {A} (r : result A) : Prop := exists a, r = Ok a.

(** [for x in l: acc = f(acc, x)] where the body can raise. *)
Fixpoint foldlM {A B} (f : A -> B -> result A) (acc : A) (l : list B) : result A :=
  match l with
  | [] => Ok acc
  | x :: l' => acc' ← f acc x; foldlM f acc' l'
  end.

(** ** Python built-ins used by the engine *)

Definition bytes : Type := list byte.

Definition byte_to_Z (b : byte) : Z := Z.of_N (Byte.to_N b).

Definition byte_of_Z (z : Z) : byte :=
  match Byte.of_N (Z.to_N (z mod 256)) with
  | Some b => b
  | None => x00
  end.

Definition len {A} (l : list A) : Z := Z.of_nat (length l).
Definition str_len (s : string) : Z := Z.of_nat (String.length s).

(** [len(s.encode('utf-8'))]: a code point below 128 takes one byte, the
    others (below 256) two. *)
Fixpoint utf8_len (s : string) : Z :=
  match s with
  | EmptyString => 0
  | String c s' => (if (Z.of_nat (nat_of_ascii c) <? 128) then 1 else 2) + utf8_len s'
  end.

(** [s[i]], with Python's negative indices. *)
Definition str_index (s : string) (i : Z) : result ascii :=
  let n := str_len s in
  let j := if i <? 0 then i + n else i in
  if (0 <=? j) && (j <? n) then
    match String.get (Z.to_nat j) s with
    | Some c => Ok c
    | None => Raise IndexError
    end
  else Raise IndexError.

(** [int.from_bytes(chunk, byteorder='big')] *)
Definition int_from_bytes_big (chunk : bytes) : Z :=
  fold_left (fun acc b => acc * 256 + byte_to_Z b) chunk 0.

(** [value.to_bytes(n, byteorder='big')] *)
Fixpoint to_bytes_go (n : nat) (value : Z) (acc : bytes) : bytes :=
  match n with
  | O => acc
  | S m => to_bytes_go m (value / 256) (byte_of_Z value :: acc)
  end.

Definition int_to_bytes_big (n : nat) (value : Z) : result bytes :=
  if (value <? 0) || (256 ^ Z.of_nat n <=? value) then Raise OverflowError
  else Ok (to_bytes_go n value []).

(** [[l[i:i+n] for i in range(0, len(l), n)]], for a step [n >= 1]. *)
Fixpoint chunks_go {A} (fuel n : nat) (l : list A) : list (list A) :=
  match fuel with
  | O => []
  | S fuel' =>
    match l with
    | [] => []
    | _ => take n l :: chunks_go fuel' n (drop n l)
    end
  end.

Definition py_chunks {A} (n : nat) (l : list A) : list (list A) :=
  chunks_go (length l) n l.

(** [s.split(sep, maxsplit)] for a one-character separator. *)
Fixpoint split_max (sep : ascii) (s : string) (maxsplit : nat) {struct s} : list string :=
  match s with
  | EmptyString => [EmptyString]
  | String c s' =>
    match maxsplit with
    | O => [s]
    | S m =>
      if Ascii.eqb c sep then EmptyString :: split_max sep s' m
      else match split_max sep s' maxsplit with
           | p :: ps => String c p :: ps
           | [] => [String c EmptyString]
           end
    end
  end.

(** [s.split(sep)]: no bound on the number of splits. *)
Definition split_all (sep : ascii) (s : string) : list string :=
  split_max sep s (String.length s).

(** [sep.join(parts)] *)
Definition join (sep : string) (parts : list string) : string :=
  String.concat sep parts.

(** [str(n)] for an integer. *)
Definition str_of_int (n : Z) : string := pretty n.

(** [int(s)] in base 10: surrounding white space is stripped, one sign is
    allowed, and single underscores may separate digits.  The white space
    [int] strips is tab to carriage return and the space, and of the other
    code points below 256 the two Unicode spaces U+0085 and U+00A0; the
    separators U+001C to U+001F are not stripped. *)
Definition is_space (c : ascii) : bool :=
  let n := nat_of_ascii c in
  bool_decide (n ∈ [9; 10; 11; 12; 13; 32; 133; 160]%nat).

Definition digit_value (c : ascii) : option Z :=
  let n := Z.of_nat (nat_of_ascii c) in
  if (48 <=? n) && (n <=? 57) then Some (n - 48) else None.

Fixpoint parse_digits (acc : Z) (after_digit : bool) (l : list ascii) : option Z :=
  match l with
  | [] => if after_digit then Some acc else None
  | c :: l' =>
    match digit_value c with
    | Some d => parse_digits (acc * 10 + d) true l'
    | None =>
      if Ascii.eqb c "_" && after_digit then parse_digits acc false l' else None
    end
  end.

Fixpoint lstrip (l : list ascii) : list ascii :=
  match l with
  | c :: l' => if is_space c then lstrip l' else l
  | [] => []
  end.

Definition strip (l : list ascii) : list ascii := rev (lstrip (rev (lstrip l))).

Definition int_literal (s : string) : option Z :=
  match strip (list_ascii_of_string s) with
  | c :: l' =>
    if Ascii.eqb c "+" then parse_digits 0 false l'
    else if Ascii.eqb c "-" then Z.opp <$> parse_digits 0 false l'
    else parse_digits 0 false (c :: l')
  | [] => None
  end.

Definition py_int (s : string) : result Z :=
  match int_literal s with
  | Some n => Ok n
  | None => Raise (ValueError "invalid literal for int() with base 10")
  end.

(** [l[:-k]] for [k > 0]. *)
Definition drop_last {A} (k : Z) (l : list A) : list A :=
  take (length l - Z.to_nat k)%nat l.

(** [{char: idx for idx, char in enumerate(alphabet)}]: a later occurrence
    of a character overrides an earlier one. *)
Definition char_table (alphabet : string) : gmap ascii Z :=
  foldl (fun m p => <[p.2 := p.1]> m) ∅
        (zip (seqZ 0 (str_len alphabet)) (list_ascii_of_string alphabet)).

(** ** The base-85 codec *)

Definition z85_alphabet : string :=
  "0123456789abcdefghijklmnopqrstuvwxyzABCDEFGHIJKLMNOPQRSTUVWXYZ.-:+=^!/*?&<>()[]{}@%$#".

(** The inner loop of [_encode_z85]:
    [for _ in range(5): encoded = alphabet[value % 85] + encoded; value //= 85] *)
Fixpoint z85_encode_value (n : nat) (value : Z) (encoded : string) : result string :=
  match n with
  | O => Ok encoded
  | S m =>
    c ← str_index z85_alphabet (value mod 85);
    z85_encode_value m (value / 85) (String c encoded)
  end.

Definition z85_padding (data : bytes) : Z := (4 - len data mod 4) mod 4.

Definition z85_pad (data : bytes) : bytes :=
  data ++ repeat x00 (Z.to_nat (z85_padding data)).

Definition z85_encode_chunk (chunk : bytes) : result string :=
  z85_encode_value 5 (int_from_bytes_big chunk) "".

Definition _encode_z85 (data : bytes) : result string :=
  let padding := z85_padding data in
  let data := z85_pad data in
  result ← mapM z85_encode_chunk (py_chunks 4 data);
  let encoded_str := join "" result in
  Ok ("Z85:" +:+ str_of_int padding +:+ ":" +:+ encoded_str).

(** The body of the decoding loop for one 5-character chunk. *)
Definition z85_decode_chunk (chunk : list ascii) : result bytes :=
  value ← foldlM (fun value char =>
                    match char_table z85_alphabet !! char with
                    | Some idx => Ok (value * 85 + idx)
                    | None => Raise KeyError
                    end) 0 chunk;
  int_to_bytes_big 4 value.

(** The decoding loop; a chunk shorter than 5 characters ends it ([break]). *)
Fixpoint z85_decode_chunks (chunks : list (list ascii)) : result (list bytes) :=
  match chunks with
  | [] => Ok []
  | chunk :: rest =>
    if bool_decide (length chunk ≠ 5%nat) then Ok []
    else
      bytes_chunk ← z85_decode_chunk chunk;
      result ← z85_decode_chunks rest;
      Ok (bytes_chunk :: result)
  end.

Definition z85_decode_body (encoded : string) : result bytes :=
  result ← z85_decode_chunks (py_chunks 5 (list_ascii_of_string encoded));
  Ok (concat result).

Definition _decode_z85 (data : string) : result bytes :=
  if negb (String.prefix "Z85:" data) then Raise (ValueError "Invalid Z85 format")
  else
    match split_max ":" data 2 with
    | [_; count; encoded] =>
      padding ← py_int count;
      decoded ← z85_decode_body encoded;
      Ok (if 0 <? padding then drop_last padding decoded else decoded)
    | _ => Raise (ValueError "Invalid Z85 format")
    end.

(** ** The base-91 codec *)

Definition b91_alphabet : string :=
  "ABCDEFGHIJKLMNOPQRSTUVWXYZabcdefghijklmnopqrstuvwxyz0123456789!#$%&()*+,./:;<=>?@[]^_`{|}~"
  +:+ String (ascii_of_nat 34) EmptyString.

(** The state of both base-91 loops: accumulator [v], bit count [b] and the
    output produced so far. *)
Definition b91_encode_step (st : Z * Z * list ascii) (byte : byte)
  : result (Z * Z * list ascii) :=
  let '(v, b, output) := st in
  let v := Z.lor v (Z.shiftl (Z.land (byte_to_Z byte) 255) b) in
  let b := b + 8 in
  if 13 <? b then
    c ← str_index b91_alphabet (Z.land v 8191);
    Ok (Z.shiftr v 13, b - 13, output ++ [c])
  else Ok (v, b, output).

Definition b91_encode_symbols (data : bytes) : result (list ascii) :=
  '(v, b, output) ← foldlM b91_encode_step (0, 0, []) data;
  if 0 <? b then
    c ← str_index b91_alphabet (Z.land v 8191);
    Ok (output ++ [c])
  else Ok output.

Definition _encode_base91 (data : bytes) : result string :=
  output ← b91_encode_symbols data;
  Ok ("B91:" +:+ string_of_list_ascii output).

(** [while b >= 8: output.append(v & 255); v >>= 8; b -= 8] *)
Fixpoint b91_drain (fuel : nat) (st : Z * Z * bytes) : Z * Z * bytes :=
  match fuel with
  | O => st
  | S fuel' =>
    let '(v, b, output) := st in
    if 8 <=? b then b91_drain fuel' (Z.shiftr v 8, b - 8, output ++ [byte_of_Z (Z.land v 255)])
    else st
  end.

Definition b91_decode_step (st : Z * Z * bytes) (char : ascii) : Z * Z * bytes :=
  let '(v, b, output) := st in
  match char_table b91_alphabet !! char with
  | None => st
  | Some idx =>
    let v := Z.lor v (Z.shiftl idx b) in
    let b := b + 13 in
    b91_drain (Z.to_nat b) (v, b, output)
  end.

(** [data[4:]] *)
Definition str_from (n : nat) (s : string) : string :=
  String.substring n (String.length s - n) s.

Definition _decode_base91 (data : string) : result bytes :=
  if negb (String.prefix "B91:" data) then Raise (ValueError "Invalid Base91 format")
  else
    let encoded := str_from 4 data in
    let '(_, _, output) :=
      foldl b91_decode_step (0, 0, []) (list_ascii_of_string encoded) in
    Ok output.

(** ** The environment: capability flags, library code and the clock *)

Record Env : Type := {
  LZ4_SUPPORT : bool;
  ZSTD_SUPPORT : bool;
  (** the value of ['brotli' in globals()] *)
  brotli_in_globals : bool;
  gzip_compress : bytes -> Z -> result bytes;
  gzip_decompress : bytes -> result bytes;
  zlib_compress : bytes -> Z -> result bytes;
  zlib_decompress : bytes -> result bytes;
  brotli_compress : bytes -> Z -> result bytes;
  brotli_decompress : bytes -> result bytes;
  lz4_compress : bytes -> result bytes;
  lz4_decompress : bytes -> result bytes;
  zstd_compress : bytes -> Z -> result bytes;
  zstd_decompress : bytes -> result bytes;
  (** [base64.b64encode(x).decode('ascii')] *)
  b64encode : bytes -> string;
  b64decode : string -> result bytes;
  (** the successive values of [time.time()] *)
  clock : nat -> Q
}.

Definition _detect_available_methods (env : Env) : gmap string bool :=
  list_to_map
    [("gzip_base64", true);
     ("deflate_base64", true);
     ("brotli_base64", brotli_in_globals env);
     ("lz4_base64", LZ4_SUPPORT env);
     ("zstd_base64", ZSTD_SUPPORT env);
     ("z85", true);
     ("base91", true);
     ("streaming_gzip", true);
     ("hybrid", true)].

(** [self.available_methods], set once in [__init__]. *)
Definition available_methods (env : Env) : gmap string bool :=
  _detect_available_methods env.

(** [self.available_methods[name]] *)
Definition available (env : Env) (name : string) : bool :=
  available_methods env !!! name.

(** ** The method selector *)

Definition determine_optimal_method (env : Env) (data : bytes) (file_type : string)
  : string :=
  let size := len data in
  if 10 * 1024 * 1024 <? size then "streaming_gzip"
  else if bool_decide (file_type ∈ ["image"; "video"; "audio"]) && (100 * 1024 <? size)
  then "z85"
  else if bool_decide (file_type ∈ ["pdf"; "text"; "json"; "xml"]) then
    if ZSTD_SUPPORT env && (1024 * 1024 <? size) then "zstd_base64"
    else if available env "brotli_base64" then "brotli_base64"
    else "gzip_base64"
  else if size <? 100 * 1024 then
    if LZ4_SUPPORT env then "lz4_base64" else "z85"
  else if size <? 1024 * 1024 then "gzip_base64"
  else "hybrid".

(** ** Backend pipelines *)

Definition _gzip_then_base64 (env : Env) (data : bytes) (level : Z) : result string :=
  compressed ← gzip_compress env data level;
  Ok (b64encode env compressed).

Definition _base64_then_gunzip (env : Env) (data : string) : result bytes :=
  compressed ← b64decode env data;
  gzip_decompress env compressed.

Definition _deflate_then_base64 (env : Env) (data : bytes) (level : Z) : result string :=
  compressed ← zlib_compress env data level;
  Ok (b64encode env compressed).

Definition _base64_then_inflate (env : Env) (data : string) : result bytes :=
  compressed ← b64decode env data;
  zlib_decompress env compressed.

Definition _brotli_then_base64 (env : Env) (data : bytes) (level : Z) : result string :=
  if negb (available env "brotli_base64") then _gzip_then_base64 env data level
  else
    compressed ← brotli_compress env data level;
    Ok (b64encode env compressed).

Definition _base64_then_brotli_decompress (env : Env) (data : string) : result bytes :=
  compressed ← b64decode env data;
  brotli_decompress env compressed.

Definition _lz4_then_base64 (env : Env) (data : bytes) : result string :=
  if negb (LZ4_SUPPORT env) then _gzip_then_base64 env data 1
  else
    compressed ← lz4_compress env data;
    Ok (b64encode env compressed).

(** Without the [lz4] module the name [lz4] is unbound. *)
Definition _base64_then_lz4_decompress (env : Env) (data : string) : result bytes :=
  compressed ← b64decode env data;
  if LZ4_SUPPORT env then lz4_decompress env compressed else Raise NameError.

Definition _zstd_then_base64 (env : Env) (data : bytes) (level : Z) : result string :=
  if negb (ZSTD_SUPPORT env) then _brotli_then_base64 env data level
  else
    compressed ← zstd_compress env data level;
    Ok (b64encode env compressed).

Definition _base64_then_zstd_decompress (env : Env) (data : string) : result bytes :=
  compressed ← b64decode env data;
  if ZSTD_SUPPORT env then zstd_decompress env compressed else Raise NameError.

(** ** The streaming wrapper *)

Definition _streaming_gzip_base64 (env : Env) (data : bytes) (chunk_size : nat)
  : result string :=
  result_chunks ← mapM (fun chunk =>
                          compressed_chunk ← gzip_compress env chunk 6;
                          Ok (b64encode env compressed_chunk))
                       (py_chunks chunk_size data);
  Ok ("STREAM:" +:+ str_of_int (len result_chunks) +:+ ":" +:+ join "|" result_chunks).

(** The default [chunk_size=64*1024]. *)
Definition default_chunk_size : nat := Z.to_nat (64 * 1024).

Definition _streaming_gunzip_base64 (env : Env) (data : string) : result bytes :=
  if negb (String.prefix "STREAM:" data) then Raise (ValueError "Invalid streaming format")
  else
    match split_max ":" data 2 with
    | [_; count; chunks_data] =>
      chunk_count ← py_int count;
      let encoded_chunks := split_all "|" chunks_data in
      if bool_decide (len encoded_chunks ≠ chunk_count)
      then Raise (ValueError "Chunk count mismatch")
      else
        result_chunks ← mapM (fun encoded_chunk =>
                                compressed_chunk ← b64decode env encoded_chunk;
                                gzip_decompress env compressed_chunk)
                             encoded_chunks;
        Ok (concat result_chunks)
    | _ => Raise (ValueError "Invalid streaming format")
    end.

(** ** Engine state and the engine monad *)

(** [method_usage] is a Python dict: insertion ordered, one entry per key. *)
Definition dict : Type := list (string * Z).

Fixpoint dict_get (d : dict) (k : string) : option Z :=
  match d with
  | [] => None
  | (k', v) :: d' => if String.eqb k' k then Some v else dict_get d' k
  end.

(** [d[k] = v]: an existing key keeps its place, a new key goes last. *)
Fixpoint dict_set (d : dict) (k : string) (v : Z) : dict :=
  match d with
  | [] => [(k, v)]
  | (k', v') :: d' =>
    if String.eqb k' k then (k', v) :: d' else (k', v') :: dict_set d' k v
  end.

Record Stats : Type := {
  files_processed : Z;
  total_original_size : Z;
  total_compressed_size : Z;
  total_processing_time : Q;
  method_usage : dict
}.

(** The initial [self.compression_stats] of [__init__]. *)
Definition initial_stats : Stats :=
  {| files_processed := 0;
     total_original_size := 0;
     total_compressed_size := 0;
     total_processing_time := 0;
     method_usage := [] |}.

(** What a call can change: the statistics of the engine instance and the
    number of clock readings taken so far. *)
Record Engine : Type := {
  compression_stats : Stats;
  clock_reads : nat
}.

Definition new_engine : Engine :=
  {| compression_stats := initial_stats; clock_reads := 0 |}.

Definition eng (A : Type) : Type := Engine -> result A * Engine.

#[global] Instance eng_ret : MRet eng := fun A a w => (Ok a, w).
#[global] Instance eng_bind : MBind eng := fun A B f m w =>
  match m w with
  | (Ok a, w') => f a w'
  | (Raise e, w') => (Raise e, w')
  end.

Definition lift {A} (r : result A) : eng A := fun w => (r, w).

(** [try: body except Exception as e: handler] *)
Definition try_except {A} (body : eng A) (handler : exn -> eng A) : eng A :=
  fun w =>
    match body w with
    | (Ok a, w') => (Ok a, w')
    | (Raise e, w') => handler e w'
    end.

(** [time.time()] *)
Definition time_time (env : Env) : eng Q :=
  fun w =>
    (Ok (clock env (clock_reads w)),
     {| compression_stats := compression_stats w; clock_reads := S (clock_reads w) |}).

(** Arithmetic that can raise.  The figures that [compress_data] puts into
    the metadata are kept as exact rationals: [a / b] on integers and
    [int(x)] below are the exact quotient and its truncation. *)
Definition int_truediv (a b : Z) : result Q :=
  if b =? 0 then Raise ZeroDivisionError else Ok (inject_Z a / inject_Z b)%Q.

(** [int(x)] of a float: truncation towards zero. *)
Definition int_of_float (x : Q) : Z :=
  if Qle_bool 0 x then Qfloor x else Qceiling x.

(** ** Python floats

    A Python [float] is an IEEE 754 binary64 number: a finite number, kept
    as the rational it denotes (the two zeros are both [Finite 0]), an
    infinity or a NaN.  An arithmetic operation returns the exact result
    rounded to the nearest binary64 number, ties to even, with gradual
    underflow; a result of magnitude [2 ^ 1024] or more after rounding
    overflows to an infinity. *)

Definition pow2 (e : Z) : Q := (2 ^ e)%Q.

(** [floor (log2 |x|)] for [x <> 0]. *)
Definition float_exponent (x : Q) : Z :=
  let d := Z.log2 (Z.abs (Qnum x)) - Z.log2 (Z.pos (Qden x)) in
  if Qle_bool (pow2 d) (Qabs x) then d else d - 1.

(** The exponent of the last place of the binary64 numbers around [x]: 53
    significant bits, and [2 ^ -1074] for the subnormal numbers. *)
Definition float_quantum (x : Q) : Z := Z.max (float_exponent x - 52) (-1074).

(** The integer nearest to [x], the even one of two at the same distance. *)
Definition round_half_even (x : Q) : Z :=
  let d := Z.pos (Qden x) in
  let f := Qnum x / d in
  match 2 * (Qnum x mod d) ?= d with
  | Lt => f
  | Gt => f + 1
  | Eq => if Z.even f then f else f + 1
  end.

(** Rounding to binary64 with an unbounded exponent range above. *)
Definition fround (x : Q) : Q :=
  if Qeq_bool x 0 then 0%Q
  else
    let q := float_quantum x in
    Qred (inject_Z (round_half_even (x / pow2 q)) * pow2 q).

Inductive float : Type :=
| Finite (x : Q)
| Infinity (negative : bool)
| NaN.

(** The float that an operation with the exact result [x] returns. *)
Definition round_float (x : Q) : float :=
  let r := fround x in
  if Qle_bool (pow2 1024) (Qabs r) then Infinity (negb (Qle_bool 0 x)) else Finite r.

Definition float_negative (x : Q) : bool := negb (Qle_bool 0 x).

Definition float_opp (a : float) : float :=
  match a with
  | Finite x => Finite (- x)
  | Infinity s => Infinity (negb s)
  | NaN => NaN
  end.

(** [a + b] *)
Definition float_add (a b : float) : float :=
  match a, b with
  | Finite x, Finite y => round_float (x + y)
  | Finite _, Infinity s | Infinity s, Finite _ => Infinity s
  | Infinity s, Infinity s' => if Bool.eqb s s' then Infinity s else NaN
  | _, _ => NaN
  end.

(** [a - b] *)
Definition float_sub (a b : float) : float := float_add a (float_opp b).

(** [a * b] *)
Definition float_mul (a b : float) : float :=
  match a, b with
  | Finite x, Finite y => round_float (x * y)
  | Finite x, Infinity s | Infinity s, Finite x =>
    if Qeq_bool x 0 then NaN else Infinity (xorb s (float_negative x))
  | Infinity s, Infinity s' => Infinity (xorb s s')
  | _, _ => NaN
  end.

(** [a / b] on floats: a zero divisor raises. *)
Definition float_truediv (a b : float) : result float :=
  match b with
  | Finite y =>
    if Qeq_bool y 0 then Raise ZeroDivisionError
    else Ok match a with
            | Finite x => round_float (x / y)
            | Infinity s => Infinity (xorb s (float_negative y))
            | NaN => NaN
            end
  | Infinity _ => Ok match a with Finite _ => Finite 0 | _ => NaN end
  | NaN => Ok NaN
  end.

(** The conversion of an [int] operand of a float operation. *)
Definition float_of_int (n : Z) : result float :=
  match round_float (inject_Z n) with
  | Infinity _ => Raise OverflowError
  | x => Ok x
  end.

(** [a / b] on integers: the correctly rounded quotient. *)
Definition int_truediv_float (a b : Z) : result float :=
  if b =? 0 then Raise ZeroDivisionError
  else match round_float (inject_Z a / inject_Z b) with
       | Infinity _ => Raise OverflowError
       | x => Ok x
       end.

(** [int(x)] of a float: truncation towards zero. *)
Definition int_of_float64 (a : float) : result Z :=
  match a with
  | Finite x => Ok (if Qle_bool 0 x then Qfloor x else Qceiling x)
  | Infinity _ => Raise OverflowError
  | NaN => Raise (ValueError "cannot convert float NaN to integer")
  end.

(** [a > b] on floats: false when one of them is a NaN. *)
Definition float_gt (a b : float) : bool :=
  match a, b with
  | Finite x, Finite y => negb (Qle_bool x y)
  | Infinity false, (Finite _ | Infinity true) => true
  | Finite _, Infinity true => true
  | _, _ => false
  end.

(** The float literals of the engine. *)
Definition float_0_8 : float := round_float (8 # 10).
Definition float_0_2 : float := round_float (2 # 10).
Definition float_1_33 : float := round_float (133 # 100).

(** [max(l, key=key)]: the running maximum is replaced only by an item whose
    key is strictly greater. *)
Fixpoint max_go {A K} (gt : K -> K -> bool) (key : A -> K) (best : A) (l : list A) : A :=
  match l with
  | [] => best
  | x :: l' => max_go gt key (if gt (key x) (key best) then x else best) l'
  end.

Definition py_max {A K} (gt : K -> K -> bool) (key : A -> K) (l : list A) : result A :=
  match l with
  | [] => Raise (ValueError "max() arg is an empty sequence")
  | x :: l' => Ok (max_go gt key x l')
  end.

(** [s.endswith(suffix)] *)
Definition endswith (suffix s : string) : bool :=
  String.prefix (String.rev suffix) (String.rev s).

(** ** The statistics aggregator *)

Definition _update_stats (method : string) (original_size compressed_size : Z)
    (processing_time : Q) : eng unit :=
  fun w =>
    let st := compression_stats w in
    let usage := method_usage st in
    let usage :=
      match dict_get usage method with
      | None => dict_set usage method 0
      | Some _ => usage
      end in
    match dict_get usage method with
    | None => (Raise KeyError, w)
    | Some n =>
      (Ok tt,
       {| compression_stats :=
            {| files_processed := files_processed st + 1;
               total_original_size := total_original_size st + original_size;
               total_compressed_size := total_compressed_size st + compressed_size;
               total_processing_time := (total_processing_time st + processing_time)%Q;
               method_usage := dict_set usage method (n + 1) |};
          clock_reads := clock_reads w |})
    end.

Record Report : Type := {
  report_stats : Stats;
  overall_compression_ratio : float;
  space_saved_bytes : Z;
  space_saved_mb : float;
  improvement_vs_base64 : float;
  avg_processing_speed_mbps : float;
  most_used_method : option string
}.

(** [get_compression_report] works on a copy of the statistics; the result
    is the copy alone when nothing was processed.  The total of the measured
    times is a finite float. *)
Definition get_compression_report (st : Stats) : result (Stats + Report) :=
  if 0 <? total_original_size st then
    r ← int_truediv_float (total_compressed_size st) (total_original_size st);
    let overall_ratio := float_sub (Finite 1) r in
    let space_saved := total_original_size st - total_compressed_size st in
    size ← float_of_int (total_original_size st);
    base64_size ← int_of_float64 (float_mul size float_1_33);
    r' ← int_truediv_float (total_compressed_size st) base64_size;
    let improvement := float_sub (Finite 1) r' in
    seconds ← float_truediv (Finite (total_processing_time st)) (Finite 1000);
    size' ← float_of_int (total_original_size st);
    t ← float_truediv size' seconds;
    avg_processing_speed ← float_truediv t (Finite (inject_Z (1024 * 1024)));
    mb ← int_truediv_float space_saved (1024 * 1024);
    most ← match method_usage st with
           | [] => Ok None
           | usage =>
             k ← py_max (fun a b : option Z =>
                           match a, b with
                           | Some x, Some y => y <? x
                           | _, _ => false
                           end)
                        (dict_get usage) (map fst usage);
             Ok (Some k)
           end;
    Ok (inr {| report_stats := st;
               overall_compression_ratio := overall_ratio;
               space_saved_bytes := space_saved;
               space_saved_mb := mb;
               improvement_vs_base64 := improvement;
               avg_processing_speed_mbps := avg_processing_speed;
               most_used_method := most |})
  else Ok (inl st).

(** ** The hybrid benchmarker *)

Record candidate : Type := {
  cand_method : string;
  cand_result : string;
  cand_size : Z;
  cand_score : float
}.

Definition hybrid_methods_to_try (env : Env) (data : bytes) : list string :=
  ["gzip_base64"; "deflate_base64"]
  ++ (if available env "brotli_base64" then ["brotli_base64"] else [])
  ++ (if LZ4_SUPPORT env && (len data <? 1024 * 1024) then ["lz4_base64"] else [])
  ++ (if len data <? 100 * 1024 then ["z85"] else []).

(** The [if]/[elif] chain of the benchmark loop; [None] is its [continue]. *)
Definition hybrid_encode (env : Env) (data : bytes) (method : string)
  : result (option string) :=
  if String.eqb method "gzip_base64" then Some <$> _gzip_then_base64 env data 6
  else if String.eqb method "deflate_base64" then Some <$> _deflate_then_base64 env data 6
  else if String.eqb method "brotli_base64" then Some <$> _brotli_then_base64 env data 6
  else if String.eqb method "lz4_base64" then Some <$> _lz4_then_base64 env data
  else if String.eqb method "z85" then Some <$> _encode_z85 data
  else Ok None.

(** [score = 1 / (size * 0.8 + processing_time * 1000 * 0.2)], in float
    arithmetic; the integer [size] is converted first. *)
Definition hybrid_score (size : Z) (processing_time : float) : result float :=
  size_f ← float_of_int size;
  let cost := float_add (float_mul size_f float_0_8)
                        (float_mul (float_mul processing_time (Finite 1000)) float_0_2) in
  float_truediv (Finite 1) cost.

(** One round of the benchmark loop: the candidate it appends, if any. *)
Definition hybrid_trial (env : Env) (data : bytes) (method : string)
  : eng (option candidate) :=
  try_except
    (start_time ← time_time env;
     r ← lift (hybrid_encode env data method);
     match r with
     | None => mret None
     | Some result =>
       end_time ← time_time env;
       let processing_time := float_sub (Finite end_time) (Finite start_time) in
       let size := utf8_len result in
       score ← lift (hybrid_score size processing_time);
       mret (Some {| cand_method := method; cand_result := result;
                     cand_size := size; cand_score := score |})
     end)
    (fun _ => mret None).

Fixpoint hybrid_trials (env : Env) (data : bytes) (methods : list string)
  : eng (list candidate) :=
  match methods with
  | [] => mret []
  | method :: rest =>
    c ← hybrid_trial env data method;
    cs ← hybrid_trials env data rest;
    mret (match c with Some x => x :: cs | None => cs end)
  end.

Definition _hybrid_compress (env : Env) (data : bytes) : eng string :=
  candidates ← hybrid_trials env data (hybrid_methods_to_try env data);
  match candidates with
  | [] => mret (b64encode env data)
  | _ =>
    best ← lift (py_max float_gt cand_score candidates);
    mret ("HYBRID:" +:+ cand_method best +:+ ":" +:+ cand_result best)
  end.

(** ** Top-level dispatch *)

(** The metadata dict built by [compress_data]. *)
Record Metadata : Type := {
  meta_method : string;
  meta_original_size : Z;
  meta_compressed_size : Z;
  meta_compression_ratio : Q;
  meta_efficiency : Q;
  meta_space_saved : Z;
  meta_processing_time_ms : Q;
  meta_base64_improvement : Q;
  meta_compression_level : option Z
}.

(** The body of the [try] block of [compress_data]: the encoded string and
    the method name as it stands after the block. *)
Definition compress_encode (env : Env) (data : bytes) (method : string) (level : Z)
  : eng (string * string) :=
  if String.eqb method "gzip_base64" then
    c ← lift (_gzip_then_base64 env data level); mret (c, method)
  else if String.eqb method "deflate_base64" then
    c ← lift (_deflate_then_base64 env data level); mret (c, method)
  else if String.eqb method "brotli_base64" then
    c ← lift (_brotli_then_base64 env data level); mret (c, method)
  else if String.eqb method "lz4_base64" then
    c ← lift (_lz4_then_base64 env data); mret (c, method)
  else if String.eqb method "zstd_base64" then
    c ← lift (_zstd_then_base64 env data level); mret (c, method)
  else if String.eqb method "z85" then
    c ← lift (_encode_z85 data); mret (c, method)
  else if String.eqb method "base91" then
    c ← lift (_encode_base91 data); mret (c, method)
  else if String.eqb method "streaming_gzip" then
    c ← lift (_streaming_gzip_base64 env data default_chunk_size); mret (c, method)
  else if String.eqb method "hybrid" then
    c ← _hybrid_compress env data; mret (c, method)
  else
    c ← lift (_gzip_then_base64 env data level); mret (c, "gzip_base64").

(** The [try]/[except] of [compress_data] as a whole: any exception of the
    chosen codec is answered by plain Base64. *)
Definition compress_attempt (env : Env) (data : bytes) (method : string) (level : Z)
  : eng (string * string) :=
  try_except (compress_encode env data method level)
             (fun _ => mret (b64encode env data, "base64_only")).

(** The method [compress_data] works with: ['auto'] is resolved by the
    selector, called without a file type. *)
Definition resolve_method (env : Env) (data : bytes) (method : string) : string :=
  if String.eqb method "auto" then determine_optimal_method env data "unknown"
  else method.

Definition compress_data (env : Env) (data : bytes) (method : string)
    (compression_level : Z) : eng (string * Metadata) :=
  start_time ← time_time env;
  let original_size := len data in
  let method := resolve_method env data method in
  '(compressed, method) ← compress_attempt env data method compression_level;
  end_time ← time_time env;
  let processing_time := ((end_time - start_time) * 1000)%Q in
  let compressed_size := utf8_len compressed in
  r ← lift (int_truediv compressed_size original_size);
  let compression_ratio := (1 - r)%Q in
  efficiency ← lift (int_truediv compressed_size original_size);
  let space_saved := original_size - compressed_size in
  let base64_size := int_of_float (inject_Z original_size * (133 # 100))%Q in
  r' ← lift (int_truediv compressed_size base64_size);
  let improvement_vs_base64 := (1 - r')%Q in
  let metadata :=
    {| meta_method := method;
       meta_original_size := original_size;
       meta_compressed_size := compressed_size;
       meta_compression_ratio := compression_ratio;
       meta_efficiency := efficiency;
       meta_space_saved := space_saved;
       meta_processing_time_ms := processing_time;
       meta_base64_improvement := improvement_vs_base64;
       meta_compression_level :=
         if endswith "_base64" method then Some compression_level else None |} in
  _update_stats method original_size compressed_size processing_time;;
  mret (compressed, metadata).

(** [decompress_data] logs and re-raises whatever its decoder raises. *)
Definition decompress_method (env : Env) (compressed_data : string) (method : string)
  : result bytes :=
  if String.eqb method "gzip_base64" then _base64_then_gunzip env compressed_data
  else if String.eqb method "deflate_base64" then _base64_then_inflate env compressed_data
  else if String.eqb method "brotli_base64" then
    _base64_then_brotli_decompress env compressed_data
  else if String.eqb method "lz4_base64" then _base64_then_lz4_decompress env compressed_data
  else if String.eqb method "zstd_base64" then
    _base64_then_zstd_decompress env compressed_data
  else if String.eqb method "z85" then _decode_z85 compressed_data
  else if String.eqb method "base91" then _decode_base91 compressed_data
  else if String.eqb method "streaming_gzip" then _streaming_gunzip_base64 env compressed_data
  else if String.eqb method "base64_only" then b64decode env compressed_data
  else Raise (ValueError ("Unknown compression method: " +:+ method)).

Definition decompress_data (env : Env) (compressed_data : string) (metadata : Metadata)
  : result bytes :=
  decompress_method env compressed_data (meta_method metadata).

(** ** Runs of one engine instance *)

(** The public methods of the engine, as calls with their arguments. *)
Inductive call : Type :=
| CompressData (data : bytes) (method : string) (compression_level : Z)
| DecompressData (compressed_data : string) (metadata : Metadata)
| DetermineOptimalMethod (data : bytes) (file_type : string)
| GetCompressionReport.

(** Whether a call returned, and the engine after it.  Only [compress_data]
    runs in the engine monad; the other methods read the engine at most. *)
Definition run_call (env : Env) (c : call) (w : Engine) : bool * Engine :=
  match c with
  | CompressData data method level =>
    match compress_data env data method level w with
    | (Ok _, w') => (true, w')
    | (Raise _, w') => (false, w')
    end
  | DecompressData s metadata =>
    (match decompress_data env s metadata with Ok _ => true | Raise _ => false end, w)
  | DetermineOptimalMethod data file_type => (true, w)
  | GetCompressionReport =>
    (match get_compression_report (compression_stats w) with
     | Ok _ => true
     | Raise _ => false
     end, w)
  end.

Fixpoint run_calls (env : Env) (cs : list call) (w : Engine) : Engine :=
  match cs with
  | [] => w
  | c :: cs' => run_calls env cs' (run_call env c w).2
  end.

(** The payload sizes of the [compress_data] calls of a run that returned. *)
Fixpoint completed_sizes (env : Env) (cs : list call) (w : Engine) : list Z :=
  match cs with
  | [] => []
  | c :: cs' =>
    let '(ok, w') := run_call env c w in
    match c with
    | CompressData data _ _ =>
      if ok then len data :: completed_sizes env cs' w' else completed_sizes env cs' w'
    | _ => completed_sizes env cs' w'
    end
  end.

(** ** A stand-in environment for evaluation

    Backends that store their input unchanged, a text encoding that maps
    each byte to the character of the same code, and a clock that advances
    by one millisecond per reading. *)
Definition stub_env : Env :=
  {| LZ4_SUPPORT := false;
     ZSTD_SUPPORT := false;
     brotli_in_globals := true;
     gzip_compress := fun d _ => Ok d;
     gzip_decompress := fun d => Ok d;
     zlib_compress := fun d _ => Ok d;
     zlib_decompress := fun d => Ok d;
     brotli_compress := fun d _ => Ok d;
     brotli_decompress := fun d => Ok d;
     lz4_compress := fun d => Ok d;
     lz4_decompress := fun d => Ok d;
     zstd_compress := fun d _ => Ok d;
     zstd_decompress := fun d => Ok d;
     b64encode := string_of_list_byte;
     b64decode := fun s => Ok (list_byte_of_string s);
     clock := fun n => (Z.of_nat n # 1000)%Q |}.

(** * Notions used in the statements *)

(** ** Engine computations and statistics *)

(** The engine after one more clock reading. *)
Definition tick (w : Engine) : Engine :=
  {| compression_stats := compression_stats w; clock_reads := S (clock_reads w) |}.

(** A computation that leaves the statistics alone and only reads the clock. *)
Definition stats_preserving {A} (m : eng A) : Prop :=
  forall w, compression_stats (m w).2 = compression_stats w
            /\ (clock_reads w <= clock_reads (m w).2)%nat.

(** A computation that always returns. *)
Definition total {A} (m : eng A) : Prop := forall w, exists a, (m w).1 = Ok a.

(** The count of a method in the usage dict, 0 when the key is absent. *)
Definition usage_count (st : Stats) (method : string) : Z :=
  default 0 (dict_get (method_usage st) method).

(** The statistics one returned call of [compress_data] leaves, from those
    before it: [method] is the method used, [c] the encoded string and [t]
    the measured time. *)
Definition stats_step (st st' : Stats) (method : string) (original c : Z) (t : Q) : Prop :=
  files_processed st' = files_processed st + 1
  /\ total_original_size st' = total_original_size st + original
  /\ total_compressed_size st' = total_compressed_size st + c
  /\ total_processing_time st' = (total_processing_time st + t)%Q
  /\ usage_count st' method = usage_count st method + 1
  /\ (forall k, k <> method -> usage_count st' k = usage_count st k).

(** The payload [b"Hello, World!"]. *)
Definition hello : bytes :=
  ["H"; "e"; "l"; "l"; "o"; ","; " "; "W"; "o"; "r"; "l"; "d"; "!"]%byte.

(** ** The selection table *)

Definition KiB : Z := 1024.
Definition MiB : Z := 1024 * 1024.

(** The backends a selection can depend on. *)
Record Capabilities : Type := {
  has_zstd : bool;
  has_brotli : bool;
  has_lz4 : bool
}.

(** The capabilities of an environment. *)
Definition capabilities (env : Env) : Capabilities :=
  {| has_zstd := ZSTD_SUPPORT env;
     has_brotli := available env "brotli_base64";
     has_lz4 := LZ4_SUPPORT env |}.

(** The hints the engine takes for already compressed media. *)
Definition media_hint (hint : string) : bool :=
  bool_decide (hint ∈ ["image"; "video"; "audio"]).

(** The hints the engine takes for text-heavy content. *)
Definition text_hint (hint : string) : bool :=
  bool_decide (hint ∈ ["pdf"; "text"; "json"; "xml"]).

(** The selection table as the specification words it: guarded rules in
    order, the first rule whose guard holds decides, the hybrid wrapper
    otherwise. *)
Definition selection_rules (size : Z) (hint : string) (caps : Capabilities)
  : list (bool * string) :=
  [ (10 * MiB <? size, "streaming_gzip");
    (media_hint hint && (100 * KiB <? size), "z85");
    (text_hint hint,
     if has_zstd caps && (1 * MiB <? size) then "zstd_base64"
     else if has_brotli caps then "brotli_base64"
     else "gzip_base64");
    (size <? 100 * KiB, if has_lz4 caps then "lz4_base64" else "z85");
    (size <? 1 * MiB, "gzip_base64") ].

Fixpoint first_match (rules : list (bool * string)) (otherwise : string) : string :=
  match rules with
  | [] => otherwise
  | (guard, name) :: rules' => if guard then name else first_match rules' otherwise
  end.

Definition select (size : Z) (hint : string) (caps : Capabilities) : string :=
  first_match (selection_rules size hint caps) "hybrid".


(** ** Base-85 digits *)

(** The symbol of a base-85 digit. *)
Definition z85_symbol (d : Z) : ascii :=
  match str_index z85_alphabet d with
  | Ok c => c
  | Raise _ => "0"%char
  end.

(** Digit [d] has a symbol, and the decoding table maps it back to [d]. *)
Definition z85_digit_ok (d : Z) : bool :=
  match str_index z85_alphabet d with
  | Ok c => bool_decide (char_table z85_alphabet !! c = Some d)
  | Raise _ => false
  end.

(** The five symbols of a value, most significant first. *)
Definition z85_group (value : Z) : string :=
  String (z85_symbol (value / 85 / 85 / 85 / 85 mod 85))
    (String (z85_symbol (value / 85 / 85 / 85 mod 85))
      (String (z85_symbol (value / 85 / 85 mod 85))
        (String (z85_symbol (value / 85 mod 85))
          (String (z85_symbol (value mod 85)) EmptyString)))).

(** ** Decode errors *)

(** The method names a metadata record of [compress_data] can carry. *)
Definition codec_names : list string :=
  ["gzip_base64"; "deflate_base64"; "brotli_base64"; "lz4_base64"; "zstd_base64";
   "z85"; "base91"; "streaming_gzip"; "hybrid"; "base64_only"].

(** [method] is no codec name. *)
Definition unrecognized (method : string) : bool :=
  negb (existsb (String.eqb method) codec_names).

(** A frame with a count field is malformed when its tag is missing, when
    it has not three parts, or when its count is no integer literal. *)
Definition malformed_counted_frame (tag : string) (s : string) : bool :=
  negb (String.prefix tag s)
  || match split_max ":" s 2 with
     | [_; count; _] =>
       match int_literal count with
       | Some _ => false
       | None => true
       end
     | _ => true
     end.

(** The declared chunk count of a [STREAM:] frame differs from the number
    of segments between the separators. *)
Definition chunk_count_mismatch (s : string) : bool :=
  match split_max ":" s 2 with
  | [_; count; chunks_data] =>
    match int_literal count with
    | Some n => negb (len (split_all "|" chunks_data) =? n)
    | None => false
    end
  | _ => false
  end.

(** The three conditions under which the specification lets decoding fail. *)
Definition decode_error_expected (method : string) (s : string) : bool :=
  unrecognized method
  || (String.eqb method "z85" && malformed_counted_frame "Z85:" s)
  || (String.eqb method "base91" && negb (String.prefix "B91:" s))
  || (String.eqb method "streaming_gzip"
      && (malformed_counted_frame "STREAM:" s || chunk_count_mismatch s)).

(** A metadata record that carries a method name and nothing else. *)
Definition metadata_of_method (method : string) : Metadata :=
  {| meta_method := method;
     meta_original_size := 0;
     meta_compressed_size := 0;
     meta_compression_ratio := 0;
     meta_efficiency := 0;
     meta_space_saved := 0;
     meta_processing_time_ms := 0;
     meta_base64_improvement := 0;
     meta_compression_level := None |}.

(** ** Candidates of the hybrid benchmarker *)

(** The fixed order in which candidates are enumerated. *)
Definition hybrid_enumeration : list string :=
  ["gzip_base64"; "deflate_base64"; "brotli_base64"; "lz4_base64"; "z85"].

(** The codec behind each name of the enumeration, as the benchmark runs
    it. *)
Definition hybrid_pipelines (env : Env) (data : bytes) : list (string * result string) :=
  [("gzip_base64", _gzip_then_base64 env data 6);
   ("deflate_base64", _deflate_then_base64 env data 6);
   ("brotli_base64", _brotli_then_base64 env data 6);
   ("lz4_base64", _lz4_then_base64 env data);
   ("z85", _encode_z85 data)].

Fixpoint assoc {A} (key : string) (l : list (string * A)) : option A :=
  match l with
  | [] => None
  | (k, v) :: l' => if String.eqb key k then Some v else assoc key l'
  end.

(** The weights of the score. *)
Definition w_size : float := float_0_8.
Definition w_time : float := float_0_2.

(** [score = 1 / (size * w_size + time_ms * w_time)], in float arithmetic. *)
Definition score_of (size : Z) (time_ms : float) : result float :=
  size_f ← float_of_int size;
  float_truediv (Finite 1)
                (float_add (float_mul size_f w_size) (float_mul time_ms w_time)).

(** The time in milliseconds between the clock readings [n] and [n + 1]. *)
Definition elapsed_ms (env : Env) (n : nat) : float :=
  float_mul (float_sub (Finite (clock env (S n))) (Finite (clock env n))) (Finite 1000).

(** One candidate, tried after [n] clock readings: a codec that returns is
    timed between two readings and, when its score can be computed, kept with
    its encoded size and score; a codec that raises costs one reading and
    leaves no candidate.  The second component counts the readings after. *)
Definition candidate_outcome (env : Env) (data : bytes) (method : string) (n : nat)
  : option candidate * nat :=
  match assoc method (hybrid_pipelines env data) with
  | Some (Ok encoded) =>
    match score_of (utf8_len encoded) (elapsed_ms env n) with
    | Ok score =>
      (Some {| cand_method := method; cand_result := encoded;
               cand_size := utf8_len encoded; cand_score := score |}, S (S n))
    | Raise _ => (None, S (S n))
    end
  | _ => (None, S n)
  end.

(** The candidates of a list of methods, in order. *)
Fixpoint candidates_from (env : Env) (data : bytes) (methods : list string) (n : nat)
  : list candidate * nat :=
  match methods with
  | [] => ([], n)
  | method :: rest =>
    let '(c, n1) := candidate_outcome env data method n in
    let '(cs, n2) := candidates_from env data rest n1 in
    (match c with Some x => x :: cs | None => cs end, n2)
  end.

(** What two runs must share for the same winner: names and scores. *)
Definition cand_key (c : candidate) : string * float := (cand_method c, cand_score c).

(** ** Runs *)

Definition sum_sizes (l : list Z) : Z := foldr Z.add 0 l.

(** The clock never runs backwards. *)
Definition monotone_clock (env : Env) : Prop :=
  forall n, (clock env n <= clock env (S n))%Q.

(** The stand-in environment with a clock that runs backwards, one second
    per reading. *)
Definition backward_clock_env : Env :=
  {| LZ4_SUPPORT := LZ4_SUPPORT stub_env;
     ZSTD_SUPPORT := ZSTD_SUPPORT stub_env;
     brotli_in_globals := brotli_in_globals stub_env;
     gzip_compress := gzip_compress stub_env;
     gzip_decompress := gzip_decompress stub_env;
     zlib_compress := zlib_compress stub_env;
     zlib_decompress := zlib_decompress stub_env;
     brotli_compress := brotli_compress stub_env;
     brotli_decompress := brotli_decompress stub_env;
     lz4_compress := lz4_compress stub_env;
     lz4_decompress := lz4_decompress stub_env;
     zstd_compress := zstd_compress stub_env;
     zstd_decompress := zstd_decompress stub_env;
     b64encode := b64encode stub_env;
     b64decode := b64decode stub_env;
     clock := fun n => (- inject_Z (Z.of_nat n))%Q |}.

(** The stand-in environment with a clock on which gzip takes [2 ^ -60]
    seconds, deflate [2 ^ -61] and the later codecs none. *)
Definition tie_clock_env : Env :=
  {| LZ4_SUPPORT := LZ4_SUPPORT stub_env;
     ZSTD_SUPPORT := ZSTD_SUPPORT stub_env;
     brotli_in_globals := brotli_in_globals stub_env;
     gzip_compress := gzip_compress stub_env;
     gzip_decompress := gzip_decompress stub_env;
     zlib_compress := zlib_compress stub_env;
     zlib_decompress := zlib_decompress stub_env;
     brotli_compress := brotli_compress stub_env;
     brotli_decompress := brotli_decompress stub_env;
     lz4_compress := lz4_compress stub_env;
     lz4_decompress := lz4_decompress stub_env;
     zstd_compress := zstd_compress stub_env;
     zstd_decompress := zstd_decompress stub_env;
     b64encode := b64encode stub_env;
     b64decode := b64decode stub_env;
     clock := fun n => match n with
                       | O => 0
                       | 1%nat | 2%nat => pow2 (-60)
                       | _ => pow2 (-60) + pow2 (-61)
                       end%Q |}.

(** The stand-in environment with a clock that reads the float 0.052 first
    and 0 from then on: it steps back while the first codec runs. *)
Definition zero_cost_env : Env :=
  {| LZ4_SUPPORT := LZ4_SUPPORT stub_env;
     ZSTD_SUPPORT := ZSTD_SUPPORT stub_env;
     brotli_in_globals := brotli_in_globals stub_env;
     gzip_compress := gzip_compress stub_env;
     gzip_decompress := gzip_decompress stub_env;
     zlib_compress := zlib_compress stub_env;
     zlib_decompress := zlib_decompress stub_env;
     brotli_compress := brotli_compress stub_env;
     brotli_decompress := brotli_decompress stub_env;
     lz4_compress := lz4_compress stub_env;
     lz4_decompress := lz4_decompress stub_env;
     zstd_compress := zstd_compress stub_env;
     zstd_decompress := zstd_decompress stub_env;
     b64encode := b64encode stub_env;
     b64decode := b64decode stub_env;
     clock := fun n => match n with O => fround (52 # 1000) | _ => 0%Q end |}.

(** No total and no usage count of [st] exceeds that of [st']; for the
    total of measured times, provided [clock_ok]. *)
Definition stats_le (clock_ok : Prop) (st st' : Stats) : Prop :=
  files_processed st <= files_processed st'
  /\ total_original_size st <= total_original_size st'
  /\ total_compressed_size st <= total_compressed_size st'
  /\ (clock_ok -> (total_processing_time st <= total_processing_time st')%Q)
  /\ forall k, usage_count st k <= usage_count st' k.

(** * Notions used in the further properties *)

(** The method names [compress_data] dispatches on by itself. *)
Definition dispatched_names : list string :=
  ["gzip_base64"; "deflate_base64"; "brotli_base64"; "lz4_base64"; "zstd_base64";
   "z85"; "base91"; "streaming_gzip"; "hybrid"].

(** The method names for which the metadata records a compression level. *)
Definition level_names : list string :=
  ["gzip_base64"; "deflate_base64"; "brotli_base64"; "lz4_base64"; "zstd_base64"].

(** A request that [compress_data] serves with a backend that is present
    (gzip, deflate, and brotli, lz4 or zstd when available), with ['z85'], or
    under a name it does not know. *)
Definition served_faithfully (env : Env) (method : string) : Prop :=
  method = "gzip_base64" \/ method = "deflate_base64" \/ method = "z85"
  \/ (method = "brotli_base64" /\ available env "brotli_base64" = true)
  \/ (method = "lz4_base64" /\ LZ4_SUPPORT env = true)
  \/ (method = "zstd_base64" /\ ZSTD_SUPPORT env = true)
  \/ (~ In method dispatched_names /\ method <> "auto").

(** The sum of the counts of a usage dict. *)
Definition usage_total (d : dict) : Z := foldr (fun p acc => p.2 + acc) 0 d.

(** What every reachable statistics record satisfies: the usage counts add
    up to [files_processed], every key occurs once, is a codec name, and has a
    count of at least one. *)
Definition stats_consistent (st : Stats) : Prop :=
  usage_total (method_usage st) = files_processed st
  /\ NoDup (map fst (method_usage st))
  /\ Forall (fun p => In p.1 codec_names /\ 1 <= p.2) (method_usage st).

(** [a > b] on the values of [dict.get], which are integers for keys of the
    dict. *)
Definition count_gt (a b : option Z) : bool :=
  match a, b with
  | Some x, Some y => y <? x
  | _, _ => false
  end.

(** A character of the base-91 alphabet. *)
Definition b91_valid (c : ascii) : bool :=
  match char_table b91_alphabet !! c with
  | Some _ => true
  | None => false
  end.

(** The characters of a string that the base-91 decoder does not skip. *)
Definition b91_symbols (s : string) : list ascii :=
  List.filter b91_valid (list_ascii_of_string s).

(** The index of a base-91 symbol in the alphabet (0 for other characters). *)
Definition b91_index (c : ascii) : Z := default 0 (char_table b91_alphabet !! c).

(** A byte string read as a little-endian number. *)
Definition bytes_value (l : bytes) : Z :=
  foldr (fun b acc => byte_to_Z b + 256 * acc) 0 l.

(** A string of base-91 symbols read as a little-endian number with 13-bit
    digits. *)
Definition symbols_value (l : list ascii) : Z :=
  foldr (fun c acc => b91_index c + 8192 * acc) 0 l.

(** Position [i] of the alphabet holds a symbol that the decoding table
    maps back to [i]. *)
Definition b91_digit_ok (i : Z) : bool :=
  match str_index b91_alphabet i with
  | Ok c => bool_decide (char_table b91_alphabet !! c = Some i)
  | Raise _ => false
  end.

(** A symbol the base-91 encoder can emit: the decoding table knows it, with
    an index below 91. *)
Definition b91_symbol (c : ascii) : Prop :=
  b91_valid c = true /\ 0 <= b91_index c < 91.

(** A decimal digit. *)
Definition is_digit (c : ascii) : bool :=
  match digit_value c with Some _ => true | None => false end.

(** The character [sep] does not occur in [s]. *)
Definition lacks (sep : ascii) (s : string) : Prop :=
  ~ In sep (list_ascii_of_string s).

(** What the streaming wrapper needs of the libraries on one chunk: what
    [gzip.compress] returns for it decompresses to the chunk, Base64 decoding
    inverts the encoding of that output, and the Base64 text holds no [|]
    (the Base64 alphabet has none). *)
Definition streams_faithfully (env : Env) (chunk : bytes) : Prop :=
  forall z,
    gzip_compress env chunk 6 = Ok z ->
    gzip_decompress env z = Ok chunk
    /\ b64decode env (b64encode env z) = Ok z
    /\ lacks "|" (b64encode env z).

(** A candidate of the hybrid benchmark that holds what the pipeline of its
    name returned for the payload. *)
Definition candidate_of (env : Env) (data : bytes) (c : candidate) : Prop :=
  hybrid_encode env data (cand_method c) = Ok (Some (cand_result c)).

(** * Properties *)

(** ** The model at work *)

Example int_literal_examples :
  int_literal "3" = Some 3
  /\ int_literal " 12 " = Some 12
  /\ int_literal "1_0" = Some 10
  /\ int_literal "-2" = Some (-2)
  /\ int_literal "" = None
  /\ int_literal "1__0" = None
  /\ int_literal "x" = None.
Proof. repeat split; reflexivity. Qed.

Example split_examples :
  split_max ":" "Z85:3:ab:cd" 2 = ["Z85"; "3"; "ab:cd"]
  /\ split_max ":" "Z85:3" 2 = ["Z85"; "3"]
  /\ split_all "|" "a|b||c" = ["a"; "b"; ""; "c"]
  /\ split_all "|" "" = [""].
Proof. repeat split; reflexivity. Qed.

Example z85_hello :
  _encode_z85 hello = Ok "Z85:3:nm=QNz.92jz/PV8aPIGx"
  /\ _decode_z85 "Z85:3:nm=QNz.92jz/PV8aPIGx" = Ok hello.
Proof. split; vm_compute; reflexivity. Qed.

Example z85_empty :
  _encode_z85 [] = Ok "Z85:0:" /\ _decode_z85 "Z85:0:" = Ok [].
Proof. split; vm_compute; reflexivity. Qed.

Example base91_single_byte :
  _encode_base91 ["A"%byte] = Ok "B91:%" /\ _decode_base91 "B91:%" = Ok ["A"%byte].
Proof. split; vm_compute; reflexivity. Qed.

Example selector_examples :
  determine_optimal_method stub_env hello "unknown" = "z85"
  /\ determine_optimal_method stub_env hello "image" = "z85"
  /\ determine_optimal_method stub_env hello "json" = "brotli_base64"
  /\ determine_optimal_method stub_env (repeat x00 (Z.to_nat (100 * 1024))) "unknown"
     = "gzip_base64".
Proof. repeat split; vm_compute; reflexivity. Qed.

(** ** Reasoning in the engine monad *)

Lemma eng_bind_eq {A B} (f : A -> eng B) (m : eng A) (w : Engine) :
  (m ≫= f) w = match m w with
                | (Ok a, w') => f a w'
                | (Raise e, w') => (Raise e, w')
                end.
Proof. reflexivity. Qed.

Lemma stats_preserving_ret {A} (a : A) : stats_preserving (mret a : eng A).
Proof. intros w. simpl. split; [reflexivity | lia]. Qed.

Lemma stats_preserving_lift {A} (r : result A) : stats_preserving (lift r).
Proof. intros w. simpl. split; [reflexivity | lia]. Qed.

Lemma stats_preserving_time (env : Env) : stats_preserving (time_time env).
Proof. intros w. simpl. split; [reflexivity | lia]. Qed.

Lemma stats_preserving_bind {A B} (m : eng A) (f : A -> eng B) :
  stats_preserving m -> (forall a, stats_preserving (f a)) ->
  stats_preserving (m ≫= f).
Proof.
  intros Hm Hf w. rewrite eng_bind_eq.
  destruct (Hm w) as [Hs Hc].
  destruct (m w) as [[a | e] w1]; simpl in *.
  - destruct (Hf a w1) as [Hs' Hc']. split; [congruence | lia].
  - split; [assumption | lia].
Qed.

Lemma stats_preserving_try {A} (body : eng A) (handler : exn -> eng A) :
  stats_preserving body -> (forall e, stats_preserving (handler e)) ->
  stats_preserving (try_except body handler).
Proof.
  intros Hm Hf w. unfold try_except.
  destruct (Hm w) as [Hs Hc].
  destruct (body w) as [[a | e] w1]; simpl in *.
  - split; [assumption | lia].
  - destruct (Hf e w1) as [Hs' Hc']. split; [congruence | lia].
Qed.

Create HintDb engine.
#[local] Hint Resolve stats_preserving_ret stats_preserving_lift stats_preserving_time
  stats_preserving_bind stats_preserving_try : engine.

Lemma hybrid_trial_total env data method : total (hybrid_trial env data method).
Proof.
  intros w. unfold hybrid_trial, try_except.
  match goal with |- context [match ?b w with _ => _ end] => destruct (b w) as [[a | e] w1] end;
    simpl; eauto.
Qed.

Lemma hybrid_trial_preserving env data method :
  stats_preserving (hybrid_trial env data method).
Proof.
  unfold hybrid_trial. apply stats_preserving_try; [| auto with engine].
  apply stats_preserving_bind; [auto with engine | intros start_time].
  apply stats_preserving_bind; [auto with engine | intros [result |]]; [| auto with engine].
  apply stats_preserving_bind; [auto with engine | intros end_time].
  apply stats_preserving_bind; auto with engine.
Qed.

Lemma hybrid_trials_total env data methods : total (hybrid_trials env data methods).
Proof.
  induction methods as [| method rest IH]; intros w; simpl.
  - eexists; reflexivity.
  - rewrite eng_bind_eq.
    destruct (hybrid_trial_total env data method w) as [c Hc].
    destruct (hybrid_trial env data method w) as [r w1]; simpl in Hc; subst r.
    rewrite eng_bind_eq.
    destruct (IH w1) as [cs Hcs].
    destruct (hybrid_trials env data rest w1) as [r w2]; simpl in Hcs; subst r.
    simpl. eauto.
Qed.

Lemma hybrid_trials_preserving env data methods :
  stats_preserving (hybrid_trials env data methods).
Proof.
  induction methods as [| method rest IH]; simpl; [auto with engine |].
  apply stats_preserving_bind; [apply hybrid_trial_preserving | intros c].
  apply stats_preserving_bind; auto with engine.
Qed.

Lemma _hybrid_compress_total env data : total (_hybrid_compress env data).
Proof.
  intros w. unfold _hybrid_compress. rewrite eng_bind_eq.
  destruct (hybrid_trials_total env data (hybrid_methods_to_try env data) w) as [cs Hcs].
  destruct (hybrid_trials env data _ w) as [r w1]; simpl in Hcs; subst r.
  destruct cs; simpl; eauto.
Qed.

Lemma _hybrid_compress_preserving env data : stats_preserving (_hybrid_compress env data).
Proof.
  unfold _hybrid_compress.
  apply stats_preserving_bind; [apply hybrid_trials_preserving | intros cs].
  destruct cs; [auto with engine |].
  apply stats_preserving_bind; auto with engine.
Qed.

Lemma compress_encode_preserving env data method level :
  stats_preserving (compress_encode env data method level).
Proof.
  unfold compress_encode.
  repeat match goal with
         | |- context [String.eqb ?a ?b] => destruct (String.eqb a b)
         end;
    (apply stats_preserving_bind;
     [first [apply _hybrid_compress_preserving | auto with engine] | auto with engine]).
Qed.

Lemma compress_attempt_total env data method level :
  total (compress_attempt env data method level).
Proof.
  intros w. unfold compress_attempt, try_except.
  destruct (compress_encode env data method level w) as [[a | e] w1]; simpl; eauto.
Qed.

Lemma compress_attempt_preserving env data method level :
  stats_preserving (compress_attempt env data method level).
Proof.
  unfold compress_attempt. apply stats_preserving_try; auto with engine.
  apply compress_encode_preserving.
Qed.

(** ** The statistics aggregator *)

Lemma dict_get_set_eq (d : dict) (k : string) (v : Z) :
  dict_get (dict_set d k v) k = Some v.
Proof.
  induction d as [| [k' v'] d IH]; simpl.
  - rewrite String.eqb_refl. reflexivity.
  - destruct (String.eqb_spec k' k) as [-> | Hne]; simpl.
    + rewrite String.eqb_refl. reflexivity.
    + destruct (String.eqb_spec k' k); [contradiction | exact IH].
Qed.

Lemma dict_get_set_ne (d : dict) (k k' : string) (v : Z) :
  k <> k' -> dict_get (dict_set d k v) k' = dict_get d k'.
Proof.
  intros Hne. induction d as [| [k0 v0] d IH]; simpl.
  - destruct (String.eqb_spec k k'); [contradiction | reflexivity].
  - destruct (String.eqb_spec k0 k) as [-> | Hne0]; simpl.
    + destruct (String.eqb_spec k k'); [contradiction | reflexivity].
    + destruct (String.eqb_spec k0 k'); [reflexivity | exact IH].
Qed.

(** [_update_stats] always returns; it adds one file, the two sizes and the
    time, and raises the count of [method] alone by one. *)
Lemma _update_stats_spec method original_size compressed_size processing_time w :
  exists st',
    _update_stats method original_size compressed_size processing_time w
    = (Ok tt, {| compression_stats := st'; clock_reads := clock_reads w |})
    /\ files_processed st' = files_processed (compression_stats w) + 1
    /\ total_original_size st' = total_original_size (compression_stats w) + original_size
    /\ total_compressed_size st'
       = total_compressed_size (compression_stats w) + compressed_size
    /\ total_processing_time st'
       = (total_processing_time (compression_stats w) + processing_time)%Q
    /\ usage_count st' method = usage_count (compression_stats w) method + 1
    /\ (forall k, k <> method ->
                  usage_count st' k = usage_count (compression_stats w) k).
Proof.
  unfold _update_stats, usage_count.
  destruct (dict_get (method_usage (compression_stats w)) method) as [n |] eqn:Hget.
  - rewrite Hget. eexists; split; [reflexivity |]. simpl.
    repeat split; try reflexivity.
    + rewrite dict_get_set_eq. reflexivity.
    + intros k Hk. rewrite dict_get_set_ne by congruence. reflexivity.
  - rewrite dict_get_set_eq. eexists; split; [reflexivity |]. simpl.
    repeat split; try reflexivity.
    + rewrite dict_get_set_eq. reflexivity.
    + intros k Hk. rewrite !dict_get_set_ne by congruence. reflexivity.
Qed.

(** ** What a call of [compress_data] does *)

Lemma base64_size_nonzero (n : Z) :
  0 < n -> int_of_float (inject_Z n * (133 # 100))%Q <> 0.
Proof.
  intros Hn. unfold int_of_float.
  replace (inject_Z n * (133 # 100))%Q with (n * 133 # 100)%Q by reflexivity.
  assert (Hle : Qle_bool 0 (n * 133 # 100) = true).
  { unfold Qle_bool. simpl. apply Z.leb_le. lia. }
  rewrite Hle. unfold Qfloor.
  assert (1 <= (n * 133) / 100); [| lia].
  apply Z.div_le_lower_bound; lia.
Qed.

Lemma compress_data_cases env data method level w :
  exists c m w1,
    compress_attempt env data (resolve_method env data method) level (tick w)
    = (Ok (c, m), w1)
    /\ compression_stats w1 = compression_stats w
    /\ (clock_reads w < clock_reads w1)%nat
    /\ match data with
       | [] => compress_data env data method level w = (Raise ZeroDivisionError, tick w1)
       | _ =>
         exists md st',
           compress_data env data method level w
           = (Ok (c, md), {| compression_stats := st'; clock_reads := S (clock_reads w1) |})
           /\ meta_method md = m
           /\ meta_original_size md = len data
           /\ meta_compressed_size md = utf8_len c
           /\ meta_processing_time_ms md
              = ((clock env (clock_reads w1) - clock env (clock_reads w)) * 1000)%Q
           /\ stats_step (compression_stats w) st' m (len data) (utf8_len c)
                ((clock env (clock_reads w1) - clock env (clock_reads w)) * 1000)%Q
       end.
Proof.
  destruct (compress_attempt_total env data (resolve_method env data method) level (tick w))
    as [[c m] Hc].
  destruct (compress_attempt_preserving env data (resolve_method env data method) level (tick w))
    as [Hs Hr].
  destruct (compress_attempt env data (resolve_method env data method) level (tick w))
    as [r w1] eqn:Hatt.
  simpl in Hc, Hs, Hr. subst r.
  exists c, m, w1. split; [reflexivity |]. split; [exact Hs |]. split; [lia |].
  unfold compress_data. rewrite eng_bind_eq.
  change (time_time env w) with (Ok (clock env (clock_reads w)), tick w).
  cbv beta iota. rewrite eng_bind_eq, Hatt. cbv beta iota.
  rewrite eng_bind_eq.
  change (time_time env w1) with (Ok (clock env (clock_reads w1)), tick w1).
  cbv beta iota.
  destruct data as [| b data'].
  - reflexivity.
  - set (data := b :: data') in *.
    assert (Hlen : 0 < len data) by (unfold len, data; simpl; lia).
    rewrite eng_bind_eq. unfold lift at 1. unfold int_truediv at 1.
    destruct (Z.eqb_spec (len data) 0) as [H0 | _]; [lia |].
    cbv beta iota. rewrite eng_bind_eq. unfold lift at 1. unfold int_truediv at 1.
    destruct (Z.eqb_spec (len data) 0) as [H0 | _]; [lia |].
    cbv beta iota. rewrite eng_bind_eq. unfold lift at 1. unfold int_truediv at 1.
    destruct (Z.eqb_spec (int_of_float (inject_Z (len data) * (133 # 100))) 0) as [H0 | _];
      [exfalso; revert H0; apply base64_size_nonzero, Hlen |].
    cbv beta iota.
    match goal with
    | |- context [_update_stats ?a ?b ?c ?d] =>
      destruct (_update_stats_spec a b c d (tick w1)) as (st' & Hup & Hst)
    end.
    unfold mbind at 1. unfold eng_bind. rewrite Hup. cbv beta iota.
    eexists _, st'. split; [reflexivity |].
    simpl. rewrite <- Hs. repeat split; apply Hst.
Qed.

(** For a payload of at least one byte [compress_data] returns, whatever
    the method, the level and the behaviour of the backends. *)
Lemma compress_data_nonempty_returns env data method level w :
  data <> [] -> returns (compress_data env data method level w).1.
Proof.
  intros Hne.
  destruct (compress_data_cases env data method level w) as (c & m & w1 & _ & _ & _ & H).
  destruct data; [contradiction |].
  destruct H as (md & st' & Heq & _). rewrite Heq. eexists; reflexivity.
Qed.

(** C3: on the empty payload [compress_data] raises [ZeroDivisionError],
    for every method, level and environment: [compressed_size / original_size]
    is evaluated after the [try] block with [original_size = 0]. *)
Theorem compress_data_empty_raises env method level w :
  (compress_data env [] method level w).1 = Raise ZeroDivisionError.
Proof.
  destruct (compress_data_cases env [] method level w) as (c & m & w1 & _ & _ & _ & H).
  rewrite H. reflexivity.
Qed.

(** ** Hybrid artifacts and the decoder *)

Lemma compress_attempt_hybrid env data level w :
  exists c w1, compress_attempt env data "hybrid" level w = (Ok (c, "hybrid"), w1).
Proof.
  unfold compress_attempt, try_except.
  change (compress_encode env data "hybrid" level)
    with (_hybrid_compress env data ≫= fun c => (mret (c, "hybrid") : eng (string * string))).
  rewrite eng_bind_eq.
  destruct (_hybrid_compress_total env data w) as [c Hc].
  destruct (_hybrid_compress env data w) as [r w1]; simpl in Hc; subst r.
  exists c, w1. reflexivity.
Qed.

(** C2: when [compress_data] is asked for ['hybrid'] and returns, the
    metadata names the method ['hybrid'], and [decompress_data] on the
    returned string and metadata raises [ValueError]: the decoder has no
    branch for that name and never parses the [HYBRID:] prefix. *)
Theorem hybrid_artifact_not_decodable env data level w s metadata w' :
  compress_data env data "hybrid" level w = (Ok (s, metadata), w') ->
  meta_method metadata = "hybrid"
  /\ decompress_data env s metadata
     = Raise (ValueError "Unknown compression method: hybrid").
Proof.
  intros Hc.
  destruct (compress_data_cases env data "hybrid" level w) as (c & m & w1 & Hatt & _ & _ & H).
  change (resolve_method env data "hybrid") with "hybrid" in Hatt.
  destruct (compress_attempt_hybrid env data level (tick w)) as (c' & w1' & Hatt').
  rewrite Hatt' in Hatt. injection Hatt as <- <- <-.
  destruct data as [| b data'].
  - rewrite H in Hc. discriminate.
  - destruct H as (md & st' & Heq & Hm & _).
    rewrite Heq in Hc. injection Hc as <- <- <-.
    split; [exact Hm |].
    unfold decompress_data. rewrite Hm. reflexivity.
Qed.

Lemma hybrid_artifact_not_decodable_witness :
  exists s metadata w',
    compress_data stub_env hello "hybrid" 6 new_engine = (Ok (s, metadata), w')
    /\ s = "HYBRID:gzip_base64:Hello, World!"
    /\ meta_method metadata = "hybrid"
    /\ decompress_data stub_env s metadata
       = Raise (ValueError "Unknown compression method: hybrid").
Proof.
  destruct (compress_data stub_env hello "hybrid" 6 new_engine) as [[[s md] | e] w'] eqn:E;
    [| vm_compute in E; discriminate].
  exists s, md, w'. split; [reflexivity |].
  split; [vm_compute in E; congruence |].
  exact (hybrid_artifact_not_decodable stub_env hello 6 new_engine s md w' E).
Defined.

(** ** The method selector *)

Lemma available_brotli env : available env "brotli_base64" = brotli_in_globals env.
Proof. reflexivity. Qed.

(** C4: the method chosen by [determine_optimal_method] is the value of the
    ordered first-match table [select] at the payload size, the hint and the
    available backends, and depends on nothing else. *)
Theorem determine_optimal_method_spec (env : Env) (data : bytes) (file_type : string) :
  determine_optimal_method env data file_type
  = select (len data) file_type (capabilities env).
Proof.
  unfold determine_optimal_method, select, selection_rules, first_match,
    media_hint, text_hint, capabilities, KiB, MiB.
  cbn [has_zstd has_brotli has_lz4].
  change (10 * (1024 * 1024)) with (10 * 1024 * 1024).
  change (1 * (1024 * 1024)) with (1024 * 1024).
  reflexivity.
Qed.


(** ** Chunking and strings *)

Lemma utf8_len_nonneg (s : string) : 0 <= utf8_len s.
Proof.
  induction s as [| c s IH]; cbn [utf8_len]; [lia |].
  destruct (Z.of_nat (nat_of_ascii c) <? 128); lia.
Qed.

Lemma chunks_go_enough {A} (n : nat) (fuel : nat) (l : list A) :
  (0 < n)%nat -> (length l <= fuel)%nat ->
  chunks_go fuel n l = chunks_go (length l) n l.
Proof.
  intros Hn. revert l.
  induction fuel as [fuel IH] using lt_wf_ind. intros l Hl.
  destruct l as [| x l]; [destruct fuel; reflexivity |].
  destruct fuel as [| fuel]; [simpl in Hl; lia |].
  cbn [chunks_go length].
  f_equal.
  assert (Hd : (length (drop n (x :: l)) <= length l)%nat).
  { rewrite length_drop. simpl. lia. }
  rewrite (IH fuel) by (simpl in Hl; lia).
  rewrite (IH (length l)); [reflexivity | simpl in Hl; lia | exact Hd].
Qed.

Lemma py_chunks_nil {A} (n : nat) : py_chunks n ([] : list A) = [].
Proof. reflexivity. Qed.

Lemma py_chunks_app {A} (n : nat) (l1 l2 : list A) :
  (0 < n)%nat -> length l1 = n ->
  py_chunks n (l1 ++ l2) = l1 :: py_chunks n l2.
Proof.
  intros Hn Hl. unfold py_chunks.
  destruct l1 as [| x l1]; [simpl in Hl; lia |].
  rewrite length_app. cbn [length Nat.add chunks_go app].
  change (x :: l1 ++ l2) with ((x :: l1) ++ l2).
  rewrite take_app_length' by (symmetry; exact Hl).
  rewrite drop_app_length' by (symmetry; exact Hl).
  f_equal. apply chunks_go_enough; [exact Hn | lia].
Qed.

Lemma list_ascii_of_string_app (s1 s2 : string) :
  list_ascii_of_string (s1 +:+ s2) = list_ascii_of_string s1 ++ list_ascii_of_string s2.
Proof.
  induction s1 as [| c s1 IH]; [reflexivity |].
  change (String c s1 +:+ s2) with (String c (s1 +:+ s2)).
  cbn [list_ascii_of_string]. rewrite IH. reflexivity.
Qed.

Lemma string_app_nil_r (s : string) : s +:+ "" = s.
Proof.
  induction s as [| c s IH]; [reflexivity |].
  change (String c s +:+ "") with (String c (s +:+ "")). rewrite IH. reflexivity.
Qed.

Lemma string_length_app (s1 s2 : string) :
  String.length (s1 +:+ s2) = (String.length s1 + String.length s2)%nat.
Proof.
  induction s1 as [| c s1 IH]; [reflexivity |].
  change (String c s1 +:+ s2) with (String c (s1 +:+ s2)).
  cbn [String.length Nat.add]. rewrite IH. reflexivity.
Qed.

Lemma join_empty_cons (g : string) (gs : list string) :
  join "" (g :: gs) = g +:+ join "" gs.
Proof.
  unfold join. destruct gs as [| g' gs]; simpl.
  - symmetry. apply string_app_nil_r.
  - reflexivity.
Qed.

Lemma split_max_0 (sep : ascii) (s : string) : split_max sep s 0 = [s].
Proof. destruct s; reflexivity. Qed.

(** ** The base-85 codec: digits *)

Lemma z85_digits_ok : forallb z85_digit_ok (seqZ 0 85) = true.
Proof. vm_compute. reflexivity. Qed.

Lemma z85_digit (d : Z) :
  0 <= d < 85 ->
  str_index z85_alphabet d = Ok (z85_symbol d)
  /\ char_table z85_alphabet !! z85_symbol d = Some d.
Proof.
  intros Hd.
  assert (Hok : z85_digit_ok d = true).
  { apply (proj1 (forallb_forall _ _) z85_digits_ok).
    apply list_elem_of_In, elem_of_seqZ. lia. }
  unfold z85_digit_ok, z85_symbol in *.
  destruct (str_index z85_alphabet d) as [c | e]; [| discriminate].
  split; [reflexivity |]. apply bool_decide_eq_true in Hok. exact Hok.
Qed.

Lemma z85_encode_value_step (m : nat) (value : Z) (encoded : string) :
  z85_encode_value (S m) value encoded
  = z85_encode_value m (value / 85) (String (z85_symbol (value mod 85)) encoded).
Proof.
  cbn [z85_encode_value].
  destruct (z85_digit (value mod 85)) as [-> _]; [| reflexivity].
  apply Z.mod_pos_bound. lia.
Qed.

Lemma z85_encode_chunk_group (chunk : bytes) :
  z85_encode_chunk chunk = Ok (z85_group (int_from_bytes_big chunk)).
Proof.
  unfold z85_encode_chunk. rewrite !z85_encode_value_step. reflexivity.
Qed.

Lemma z85_decode_symbols (value : Z) :
  0 <= value < 85 ^ 5 ->
  foldlM (fun value char =>
            match char_table z85_alphabet !! char with
            | Some idx => Ok (value * 85 + idx)
            | None => Raise KeyError
            end) 0 (list_ascii_of_string (z85_group value))
  = Ok value.
Proof.
  intros Hv. unfold z85_group. cbn [list_ascii_of_string foldlM].
  assert (H85 : 0 < 85) by lia.
  repeat match goal with
         | |- context [char_table z85_alphabet !! z85_symbol (?x mod 85)] =>
           rewrite (proj2 (z85_digit (x mod 85) (Z.mod_pos_bound x 85 H85)))
         end.
  cbn [mbind result_bind]. f_equal.
  pose proof (Z.div_mod value 85 ltac:(lia)) as E0.
  pose proof (Z.div_mod (value / 85) 85 ltac:(lia)) as E1.
  pose proof (Z.div_mod (value / 85 / 85) 85 ltac:(lia)) as E2.
  pose proof (Z.div_mod (value / 85 / 85 / 85) 85 ltac:(lia)) as E3.
  pose proof (Z.div_mod (value / 85 / 85 / 85 / 85) 85 ltac:(lia)) as E4.
  assert (E5 : value / 85 / 85 / 85 / 85 / 85 = 0).
  { rewrite !Z.div_div by lia. apply Z.div_small. change (85 ^ 5) with 4437053125 in Hv. lia. }
  rewrite E5 in E4. lia.
Qed.

(** ** The base-85 codec: bytes *)

Lemma byte_to_Z_range (b : byte) : 0 <= byte_to_Z b < 256.
Proof.
  unfold byte_to_Z. pose proof (Byte.to_N_bounded b) as Hb. lia.
Qed.

Lemma byte_of_to_Z (b : byte) (x : Z) : byte_of_Z (x * 256 + byte_to_Z b) = b.
Proof.
  unfold byte_of_Z.
  rewrite Z.add_comm, Z.mod_add by lia.
  rewrite Z.mod_small by apply byte_to_Z_range.
  unfold byte_to_Z. rewrite N2Z.id, Byte.of_to_N. reflexivity.
Qed.

Lemma div_256 (b : byte) (x : Z) : (x * 256 + byte_to_Z b) / 256 = x.
Proof.
  rewrite Z.add_comm, Z.div_add by lia.
  rewrite Z.div_small by apply byte_to_Z_range. lia.
Qed.

Lemma int_from_bytes_big_4 (a b c d : byte) :
  int_from_bytes_big [a; b; c; d]
  = ((byte_to_Z a * 256 + byte_to_Z b) * 256 + byte_to_Z c) * 256 + byte_to_Z d.
Proof. unfold int_from_bytes_big. simpl. lia. Qed.

Lemma int_from_bytes_big_4_range (a b c d : byte) :
  0 <= int_from_bytes_big [a; b; c; d] < 256 ^ 4.
Proof.
  rewrite int_from_bytes_big_4.
  pose proof (byte_to_Z_range a). pose proof (byte_to_Z_range b).
  pose proof (byte_to_Z_range c). pose proof (byte_to_Z_range d).
  change (256 ^ 4) with 4294967296. lia.
Qed.

Lemma int_to_bytes_from_bytes_4 (a b c d : byte) :
  int_to_bytes_big 4 (int_from_bytes_big [a; b; c; d]) = Ok [a; b; c; d].
Proof.
  unfold int_to_bytes_big.
  pose proof (int_from_bytes_big_4_range a b c d) as Hr.
  change (Z.of_nat 4) with 4.
  destruct (Z.ltb_spec (int_from_bytes_big [a; b; c; d]) 0); [lia |].
  destruct (Z.leb_spec (256 ^ 4) (int_from_bytes_big [a; b; c; d])); [lia |].
  cbn [orb to_bytes_go]. rewrite int_from_bytes_big_4.
  rewrite byte_of_to_Z, div_256, byte_of_to_Z, div_256, byte_of_to_Z, div_256.
  replace (byte_to_Z a) with (0 * 256 + byte_to_Z a) by lia.
  rewrite byte_of_to_Z. reflexivity.
Qed.

Lemma z85_decode_chunk_group (a b c d : byte) :
  z85_decode_chunk (list_ascii_of_string (z85_group (int_from_bytes_big [a; b; c; d])))
  = Ok [a; b; c; d].
Proof.
  unfold z85_decode_chunk.
  rewrite z85_decode_symbols.
  - cbn [mbind result_bind]. apply int_to_bytes_from_bytes_4.
  - pose proof (int_from_bytes_big_4_range a b c d) as Hr.
    change (256 ^ 4) with 4294967296 in Hr. change (85 ^ 5) with 4437053125. lia.
Qed.

(** ** The base-85 codec: whole payloads *)

(** The digits of a payload whose length is a multiple of 4 decode to the
    payload: [k] groups of 4 bytes become [k] groups of 5 characters and
    back. *)
Lemma z85_body_round_trip (k : nat) (data : bytes) :
  length data = (4 * k)%nat ->
  exists groups,
    mapM z85_encode_chunk (py_chunks 4 data) = Ok groups
    /\ String.length (join "" groups) = (5 * k)%nat
    /\ z85_decode_body (join "" groups) = Ok data.
Proof.
  revert data. induction k as [| k IH]; intros data Hlen.
  - destruct data; [| simpl in Hlen; lia].
    exists []. repeat split; reflexivity.
  - destruct data as [| a [| b [| c [| d rest]]]]; try (simpl in Hlen; lia).
    destruct (IH rest) as (groups & Henc & Hl & Hdec); [simpl in Hlen; lia |].
    exists (z85_group (int_from_bytes_big [a; b; c; d]) :: groups).
    change (a :: b :: c :: d :: rest) with ([a; b; c; d] ++ rest).
    rewrite py_chunks_app by (reflexivity || lia).
    split; [| split].
    + cbn [mapM]. rewrite z85_encode_chunk_group. cbn [mbind result_bind].
      rewrite Henc. reflexivity.
    + rewrite join_empty_cons, string_length_app, Hl. cbn [z85_group String.length]. lia.
    + unfold z85_decode_body in *.
      rewrite join_empty_cons, list_ascii_of_string_app.
      rewrite py_chunks_app by (reflexivity || lia).
      cbn [z85_decode_chunks].
      rewrite bool_decide_eq_false_2 by (intros Hbad; apply Hbad; reflexivity).
      rewrite z85_decode_chunk_group. cbn [mbind result_bind].
      destruct (z85_decode_chunks (py_chunks 5 (list_ascii_of_string (join "" groups))))
        as [cs | e]; [| discriminate].
      cbn [mbind result_bind] in *. injection Hdec as <-. reflexivity.
Qed.

Lemma z85_padding_range (data : bytes) : 0 <= z85_padding data < 4.
Proof. unfold z85_padding. apply Z.mod_pos_bound. lia. Qed.

Lemma z85_pad_length (data : bytes) :
  exists k, length (z85_pad data) = (4 * k)%nat.
Proof.
  unfold z85_pad. rewrite length_app, repeat_length.
  pose proof (z85_padding_range data) as Hp.
  unfold z85_padding, len in *.
  exists (Z.to_nat ((Z.of_nat (length data) + (4 - Z.of_nat (length data) mod 4) mod 4) / 4)).
  apply Nat2Z.inj. rewrite Nat2Z.inj_add, Nat2Z.inj_mul, !Z2Nat.id; try lia.
  - pose proof (Z.div_mod (Z.of_nat (length data)) 4 ltac:(lia)) as E.
    pose proof (Z.mod_pos_bound (Z.of_nat (length data)) 4 ltac:(lia)) as Hm.
    set (n := Z.of_nat (length data)) in *.
    set (r := n mod 4) in *.
    assert (Hr : r = 0 \/ r = 1 \/ r = 2 \/ r = 3) by lia.
    destruct Hr as [Hr | [Hr | [Hr | Hr]]]; rewrite Hr in *;
      [ change ((4 - 0) mod 4) with 0 | change ((4 - 1) mod 4) with 3
      | change ((4 - 2) mod 4) with 2 | change ((4 - 3) mod 4) with 1 ].
    + replace (n + 0) with (n / 4 * 4) by lia. rewrite Z.div_mul; lia.
    + replace (n + 3) with ((n / 4 + 1) * 4) by lia. rewrite Z.div_mul; lia.
    + replace (n + 2) with ((n / 4 + 1) * 4) by lia. rewrite Z.div_mul; lia.
    + replace (n + 1) with ((n / 4 + 1) * 4) by lia. rewrite Z.div_mul; lia.
  - apply Z.div_pos; lia.
Qed.

Lemma drop_last_pad (data : bytes) :
  drop_last (z85_padding data) (z85_pad data) = data.
Proof.
  unfold drop_last, z85_pad. rewrite length_app, repeat_length.
  replace (length data + Z.to_nat (z85_padding data) - Z.to_nat (z85_padding data))%nat
    with (length data) by lia.
  apply take_app_length.
Qed.

(** Decoding a well-formed frame whose count field is one digit. *)
Lemma _decode_z85_frame (padding : Z) (digits : string) (decoded : bytes) :
  0 <= padding < 4 ->
  z85_decode_body digits = Ok decoded ->
  _decode_z85 ("Z85:" +:+ str_of_int padding +:+ ":" +:+ digits)
  = Ok (if 0 <? padding then drop_last padding decoded else decoded).
Proof.
  intros Hp Hdec.
  assert (Hcases : padding = 0 \/ padding = 1 \/ padding = 2 \/ padding = 3) by lia.
  unfold _decode_z85.
  destruct Hcases as [-> | [-> | [-> | ->]]];
    [ change (str_of_int 0) with "0" | change (str_of_int 1) with "1"
    | change (str_of_int 2) with "2" | change (str_of_int 3) with "3" ];
    simpl; rewrite split_max_0; change ("" +:+ digits) with digits;
    cbv beta iota; rewrite Hdec; reflexivity.
Qed.

Lemma z85_encode_decode (data : bytes) :
  exists digits,
    _encode_z85 data = Ok ("Z85:" +:+ str_of_int (z85_padding data) +:+ ":" +:+ digits)
    /\ str_len digits * 4 = len (z85_pad data) * 5
    /\ z85_decode_body digits = Ok (z85_pad data)
    /\ _decode_z85 ("Z85:" +:+ str_of_int (z85_padding data) +:+ ":" +:+ digits)
       = Ok (if 0 <? z85_padding data
             then drop_last (z85_padding data) (z85_pad data)
             else z85_pad data).
Proof.
  destruct (z85_pad_length data) as [k Hk].
  destruct (z85_body_round_trip k (z85_pad data) Hk) as (groups & Henc & Hl & Hdec).
  exists (join "" groups). split; [| split; [| split]].
  - unfold _encode_z85. rewrite Henc. reflexivity.
  - unfold str_len, len. rewrite Hl, Hk. lia.
  - exact Hdec.
  - apply _decode_z85_frame; [apply z85_padding_range | exact Hdec].
Qed.

(** The base-85 codec returns every payload, the empty one included. *)
Lemma z85_round_trip (data : bytes) :
  exists s, _encode_z85 data = Ok s /\ _decode_z85 s = Ok data.
Proof.
  destruct (z85_encode_decode data) as (digits & Henc & _ & _ & Hdec).
  eexists. split; [exact Henc |]. rewrite Hdec. f_equal.
  destruct (Z.ltb_spec 0 (z85_padding data)) as [Hpos | Hz].
  - apply drop_last_pad.
  - pose proof (z85_padding_range data) as Hp.
    unfold z85_pad. replace (z85_padding data) with 0 by lia.
    apply app_nil_r.
Qed.

(** C6: for a payload whose length is not a multiple of 4, the encoder
    records the padding count [(4 - len mod 4) mod 4], which is 1, 2 or 3, in
    the frame [Z85:<padding>:]; the digits are 5 characters for each 4 bytes
    of the zero-padded payload and decode to that padded payload; the decoder
    returns it without its last [padding] bytes, which is the payload. *)
Theorem z85_padding_recorded_and_removed (data : bytes) :
  len data mod 4 <> 0 ->
  let padding := (4 - len data mod 4) mod 4 in
  let padded := data ++ repeat x00 (Z.to_nat padding) in
  1 <= padding <= 3
  /\ exists digits,
       _encode_z85 data = Ok ("Z85:" +:+ str_of_int padding +:+ ":" +:+ digits)
       /\ str_len digits * 4 = len padded * 5
       /\ z85_decode_body digits = Ok padded
       /\ _decode_z85 ("Z85:" +:+ str_of_int padding +:+ ":" +:+ digits)
          = Ok (drop_last padding padded)
       /\ len (drop_last padding padded) = len padded - padding
       /\ drop_last padding padded = data.
Proof.
  intros Hmod padding padded.
  assert (Hp : 1 <= padding <= 3).
  { subst padding.
    pose proof (Z.mod_pos_bound (len data) 4 ltac:(lia)) as Hm.
    assert (Hr : len data mod 4 = 1 \/ len data mod 4 = 2 \/ len data mod 4 = 3) by lia.
    destruct Hr as [-> | [-> | ->]]; vm_compute; split; discriminate. }
  split; [exact Hp |].
  destruct (z85_encode_decode data) as (digits & Henc & Hl & Hbody & Hdec).
  change (z85_padding data) with padding in *.
  change (z85_pad data) with padded in *.
  destruct (Z.ltb_spec 0 padding) as [_ | Hbad]; [| lia].
  exists digits. repeat split; try assumption.
  - pose proof (drop_last_pad data) as Hd.
    change (z85_padding data) with padding in Hd.
    change (z85_pad data) with padded in Hd.
    rewrite Hd. subst padded. unfold len. rewrite length_app, repeat_length. lia.
  - apply drop_last_pad.
Qed.

Lemma z85_padding_recorded_and_removed_witness :
  len hello mod 4 <> 0
  /\ exists digits,
       _encode_z85 hello = Ok ("Z85:" +:+ str_of_int 3 +:+ ":" +:+ digits)
       /\ _decode_z85 ("Z85:" +:+ str_of_int 3 +:+ ":" +:+ digits)
          = Ok (drop_last 3 (hello ++ [x00; x00; x00]))
       /\ drop_last 3 (hello ++ [x00; x00; x00]) = hello.
Proof.
  assert (Hmod : len hello mod 4 <> 0) by (vm_compute; discriminate).
  split; [exact Hmod |].
  destruct (z85_padding_recorded_and_removed hello Hmod)
    as (_ & digits & Henc & _ & _ & Hdec & _ & Hdrop).
  exists digits. repeat split; assumption.
Defined.

(** ** The base-91 codec *)

Lemma string_of_list_ascii_length (l : list ascii) :
  String.length (string_of_list_ascii l) = length l.
Proof. induction l as [| c l IH]; simpl; [reflexivity | f_equal; exact IH]. Qed.

(** Bit accounting of one round of the encoding loop: the byte adds 8
    bits and a symbol, if one is emitted, takes 13 away. *)
Lemma b91_encode_step_bits v b output byte v1 b1 output1 :
  0 <= b <= 13 ->
  b91_encode_step (v, b, output) byte = Ok (v1, b1, output1) ->
  b + 8 + 13 * len output = b1 + 13 * len output1 /\ 1 <= b1 <= 13.
Proof.
  intros Hb Hstep. unfold b91_encode_step in Hstep.
  destruct (Z.ltb_spec 13 (b + 8)) as [Hgt | Hle].
  - destruct (str_index b91_alphabet _) as [c | e]; [| discriminate].
    cbn [mbind result_bind] in Hstep. injection Hstep as <- <- <-.
    unfold len. rewrite length_app. cbn [length]. lia.
  - injection Hstep as <- <- <-. lia.
Qed.

(** Over the whole loop: between bytes the accumulator holds at most 13
    bits, and at least one once a byte was read. *)
Lemma b91_encode_loop_bits (data : bytes) :
  forall v b output v' b' output',
    0 <= b <= 13 ->
    foldlM b91_encode_step (v, b, output) data = Ok (v', b', output') ->
    b + 8 * len data + 13 * len output = b' + 13 * len output'
    /\ 0 <= b' <= 13
    /\ (data <> [] -> 1 <= b').
Proof.
  induction data as [| byte data IH]; intros v b output v' b' output' Hb Hrun.
  - injection Hrun as <- <- <-. unfold len. simpl. repeat split; try lia. congruence.
  - cbn [foldlM] in Hrun.
    destruct (b91_encode_step (v, b, output) byte) as [[[v1 b1] output1] | e] eqn:Hstep;
      [| discriminate].
    cbn [mbind result_bind] in Hrun.
    destruct (b91_encode_step_bits _ _ _ _ _ _ _ Hb Hstep) as [Hbits1 Hb1].
    destruct data as [| byte' data'].
    + cbn [foldlM] in Hrun. injection Hrun as <- <- <-.
      unfold len in *. cbn [length] in *. repeat split; lia.
    + apply IH in Hrun; [| lia].
      destruct Hrun as (Hbits & Hr & Hne).
      assert (1 <= b') by (apply Hne; discriminate).
      unfold len in *. cbn [length] in *. repeat split; lia.
Qed.

(** Whenever the encoder returns, it has emitted exactly [ceil(8N/13)]
    symbols after the prefix. *)
Lemma base91_symbol_count (data : bytes) (s : string) :
  _encode_base91 data = Ok s ->
  exists symbols,
    s = "B91:" +:+ symbols /\ str_len symbols = (8 * len data + 12) / 13.
Proof.
  unfold _encode_base91, b91_encode_symbols. intros Henc.
  destruct (foldlM b91_encode_step (0, 0, []) data) as [[[v b] output] | e] eqn:Hloop;
    [| discriminate].
  assert (H0 : 0 <= 0 <= 13) by lia.
  destruct (b91_encode_loop_bits data _ _ _ _ _ _ H0 Hloop) as (Hbits & Hb & Hne).
  cbn [mbind result_bind] in Henc.
  assert (Hout : forall final : list ascii,
             len final = (if 0 <? b then len output + 1 else len output) ->
             len final = (8 * len data + 12) / 13).
  { intros final Hfinal. rewrite Hfinal.
    change (len (@nil ascii)) with 0 in Hbits.
    destruct (Z.ltb_spec 0 b) as [Hpos | Hzero].
    - apply Z.div_unique with (r := b - 1); lia.
    - assert (data = []) as ->.
      { destruct data; [reflexivity |].
        assert (1 <= b) by (apply Hne; discriminate). lia. }
      change (len (@nil byte)) with 0 in *.
      assert (len output = 0) as -> by lia. reflexivity. }
  destruct (0 <? b) eqn:Hflush.
  - destruct (str_index b91_alphabet (Z.land v 8191)) as [c | e]; [| discriminate].
    cbn [mbind result_bind] in Henc. injection Henc as <-.
    eexists. split; [reflexivity |].
    unfold str_len. rewrite string_of_list_ascii_length.
    apply Hout. unfold len. rewrite length_app. simpl. lia.
  - cbn [mbind result_bind] in Henc. injection Henc as <-.
    eexists. split; [reflexivity |].
    unfold str_len. rewrite string_of_list_ascii_length.
    apply Hout. reflexivity.
Qed.

(** C7: on the one-byte payload [0xFF] the encoder emits no symbols at
    all: the final flush indexes the 91-character alphabet with the 13-bit
    accumulator value 255 and raises [IndexError], while the claim asks for
    between [ceil(8/13) = 1] and 2 symbols. *)
Theorem base91_encode_raises_on_ff :
  _encode_base91 [xff] = Raise IndexError
  /\ Z.land (byte_to_Z xff) 8191 = 255
  /\ str_len b91_alphabet = 91
  /\ (8 * len [xff] + 12) / 13 = 1.
Proof. repeat split; vm_compute; reflexivity. Qed.

(** ** Round trips *)

(** C1: the base-91 codec does not return the payload [00 00]: the encoder
    yields ["B91:AA"], two symbols of 13 bits each, and the decoder turns these
    26 bits into three zero bytes. *)
Theorem base91_round_trip_fails :
  _encode_base91 [x00; x00] = Ok "B91:AA"
  /\ _decode_base91 "B91:AA" = Ok [x00; x00; x00]
  /\ (forall env metadata,
         meta_method metadata = "base91" ->
         decompress_data env "B91:AA" metadata = Ok [x00; x00; x00]).
Proof.
  split; [vm_compute; reflexivity |].
  split; [vm_compute; reflexivity |].
  intros env metadata Hm. unfold decompress_data. rewrite Hm.
  vm_compute. reflexivity.
Qed.

(** The streaming wrapper does not return the empty payload: no chunk is
    produced, the frame declares 0 chunks, and the decoder counts one empty
    segment. *)
Lemma streaming_round_trip_fails_on_empty (env : Env) :
  _streaming_gzip_base64 env [] default_chunk_size = Ok "STREAM:0:"
  /\ _streaming_gunzip_base64 env "STREAM:0:" = Raise (ValueError "Chunk count mismatch").
Proof. split; vm_compute; reflexivity. Qed.

(** The backend pipelines and the raw fallback return the payload as far
    as the libraries they are built from do. *)
Section InvertibleLibraries.
Variable env : Env.
Hypothesis b64_inverse : forall d, b64decode env (b64encode env d) = Ok d.
Hypothesis gzip_inverse :
  forall d level c, gzip_compress env d level = Ok c -> gzip_decompress env c = Ok d.
Hypothesis zlib_inverse :
  forall d level c, zlib_compress env d level = Ok c -> zlib_decompress env c = Ok d.

Lemma gzip_pipeline_round_trip (data : bytes) (level : Z) (s : string) :
  _gzip_then_base64 env data level = Ok s -> _base64_then_gunzip env s = Ok data.
Proof using b64_inverse gzip_inverse.
  unfold _gzip_then_base64, _base64_then_gunzip. intros H.
  destruct (gzip_compress env data level) as [c | e] eqn:Hc; [| discriminate].
  cbn [mbind result_bind] in H. injection H as <-.
  rewrite b64_inverse. cbn [mbind result_bind]. eapply gzip_inverse, Hc.
Qed.

Lemma deflate_pipeline_round_trip (data : bytes) (level : Z) (s : string) :
  _deflate_then_base64 env data level = Ok s -> _base64_then_inflate env s = Ok data.
Proof using b64_inverse zlib_inverse.
  unfold _deflate_then_base64, _base64_then_inflate. intros H.
  destruct (zlib_compress env data level) as [c | e] eqn:Hc; [| discriminate].
  cbn [mbind result_bind] in H. injection H as <-.
  rewrite b64_inverse. cbn [mbind result_bind]. eapply zlib_inverse, Hc.
Qed.

Lemma raw_fallback_round_trip (data : bytes) (metadata : Metadata) :
  meta_method metadata = "base64_only" ->
  decompress_data env (b64encode env data) metadata = Ok data.
Proof using b64_inverse.
  intros Hm. unfold decompress_data. rewrite Hm.
  change (decompress_method env (b64encode env data) "base64_only")
    with (b64decode env (b64encode env data)).
  apply b64_inverse.
Qed.
End InvertibleLibraries.

(** ** Decode errors *)

(** Not exactly when: a well-framed base-85 string of a known method whose
    digit group exceeds 32 bits raises [OverflowError], and one with a
    character outside the alphabet raises [KeyError]. *)
Lemma decode_errors_not_only_framing :
  ~ (forall env s metadata,
        raises (decompress_data env s metadata)
        <-> decode_error_expected (meta_method metadata) s = true).
Proof.
  intros Hiff.
  destruct (Hiff stub_env "Z85:0:#####" (metadata_of_method "z85")) as [Hraise _].
  assert (Hr : raises (decompress_data stub_env "Z85:0:#####" (metadata_of_method "z85"))).
  { exists OverflowError. vm_compute. reflexivity. }
  apply Hraise in Hr. vm_compute in Hr. discriminate.
Qed.

(** [int] does not strip the separators U+001C to U+001F: a count field
    that starts with one is rejected, one between blanks is read. *)
Lemma int_rejects_separator :
  py_int (String (ascii_of_nat 31) "2")
  = Raise (ValueError "invalid literal for int() with base 10")
  /\ py_int " 2 " = Ok 2
  /\ raises (decompress_data stub_env ("Z85:" +:+ String (ascii_of_nat 31) "2:")
                             (metadata_of_method "z85")).
Proof.
  split; [vm_compute; reflexivity |]. split; [vm_compute; reflexivity |].
  eexists. vm_compute. reflexivity.
Qed.

Lemma _decode_z85_malformed (s : string) :
  malformed_counted_frame "Z85:" s = true -> raises (_decode_z85 s).
Proof.
  unfold malformed_counted_frame, _decode_z85, py_int. intros H.
  destruct (String.prefix "Z85:" s); [| eexists; reflexivity].
  cbn [negb orb] in H.
  destruct (split_max ":" s 2) as [| p0 [| count [| encoded [| extra parts]]]];
    try (eexists; reflexivity).
  destruct (int_literal count); [discriminate | eexists; reflexivity].
Qed.

Lemma _streaming_gunzip_base64_malformed (env : Env) (s : string) :
  malformed_counted_frame "STREAM:" s || chunk_count_mismatch s = true ->
  raises (_streaming_gunzip_base64 env s).
Proof.
  unfold malformed_counted_frame, chunk_count_mismatch, _streaming_gunzip_base64, py_int.
  intros H.
  destruct (String.prefix "STREAM:" s); [| eexists; reflexivity].
  cbn [negb orb] in H.
  destruct (split_max ":" s 2) as [| p0 [| count [| chunks_data [| extra parts]]]];
    try (eexists; reflexivity).
  destruct (int_literal count) as [n |]; [| eexists; reflexivity].
  cbn [orb mbind result_bind] in *.
  destruct (Z.eqb_spec (len (split_all "|" chunks_data)) n) as [Heq | Hne];
    [discriminate |].
  rewrite bool_decide_eq_true_2 by exact Hne. eexists; reflexivity.
Qed.

(** C5, amended: [decompress_data] raises whenever the method is no codec
    name, a [Z85:] or [STREAM:] frame lacks its tag, has not three parts or
    has a count that is no integer literal, a [B91:] frame lacks its tag, or
    the declared chunk count of a [STREAM:] frame differs from the number of
    segments. *)
Theorem decompress_data_raises_when (env : Env) (s : string) (metadata : Metadata) :
  decode_error_expected (meta_method metadata) s = true ->
  raises (decompress_data env s metadata).
Proof.
  unfold decode_error_expected, unrecognized, codec_names, decompress_data,
    decompress_method.
  generalize (meta_method metadata) as method. intros method H.
  cbn [existsb] in H.
  destruct (String.eqb_spec method "z85") as [Hm | _].
  { subst method. cbn in H. apply _decode_z85_malformed.
    destruct (malformed_counted_frame "Z85:" s); [reflexivity | discriminate]. }
  destruct (String.eqb_spec method "base91") as [Hm | _].
  { subst method. cbn in H. unfold _decode_base91.
    destruct (String.prefix "B91:" s); [discriminate | eexists; reflexivity]. }
  destruct (String.eqb_spec method "streaming_gzip") as [Hm | _].
  { subst method. cbn in H. apply _streaming_gunzip_base64_malformed. exact H. }
  cbn [andb orb] in H.
  destruct (String.eqb method "gzip_base64"); [discriminate |].
  destruct (String.eqb method "deflate_base64"); [discriminate |].
  destruct (String.eqb method "brotli_base64"); [discriminate |].
  destruct (String.eqb method "lz4_base64"); [discriminate |].
  destruct (String.eqb method "zstd_base64"); [discriminate |].
  destruct (String.eqb method "hybrid"); [discriminate |].
  destruct (String.eqb method "base64_only"); [discriminate |].
  eexists; reflexivity.
Qed.

Lemma decompress_data_raises_when_witness :
  decode_error_expected "streaming_gzip" "STREAM:2:abc" = true
  /\ raises (decompress_data stub_env "STREAM:2:abc" (metadata_of_method "streaming_gzip")).
Proof.
  split; [vm_compute; reflexivity |].
  apply (decompress_data_raises_when stub_env "STREAM:2:abc"
           (metadata_of_method "streaming_gzip")).
  vm_compute. reflexivity.
Defined.

(** ** Binary64 rounding *)

Lemma pow2_pos (e : Z) : (0 < pow2 e)%Q.
Proof. apply Qpower_0_lt. reflexivity. Qed.

Lemma pow2_add (a b : Z) : (pow2 (a + b) == pow2 a * pow2 b)%Q.
Proof. apply Qpower_plus. discriminate. Qed.

Lemma pow2_le (a b : Z) : a <= b -> (pow2 a <= pow2 b)%Q.
Proof. intros H. apply Qpower_le_compat_l; [exact H | discriminate]. Qed.

Lemma pow2_lt (a b : Z) : a < b -> (pow2 a < pow2 b)%Q.
Proof. intros H. apply Qpower_lt_compat_l; [exact H | reflexivity]. Qed.

Lemma pow2_le_inv (a b : Z) : (pow2 a <= pow2 b)%Q -> a <= b.
Proof. intros H. apply (Qpower_le_compat_l_inv 2); [exact H | reflexivity]. Qed.

Lemma pow2_lt_inv (a b : Z) : (pow2 a < pow2 b)%Q -> a < b.
Proof. intros H. apply (Qpower_lt_compat_l_inv 2); [exact H | reflexivity]. Qed.

Lemma pow2_nonneg_Z (e : Z) : 0 <= e -> (pow2 e == inject_Z (2 ^ e))%Q.
Proof. intros H. unfold pow2. rewrite Zpower_Qpower by exact H. reflexivity. Qed.

Lemma pow2_neq_0 (e : Z) : ~ (pow2 e == 0)%Q.
Proof. intros H. pose proof (pow2_pos e) as Hp. rewrite H in Hp. exact (Qlt_irrefl 0 Hp). Qed.

(** A power of two on a finer grid is an integer multiple of the quantum. *)
Lemma pow2_split (k q : Z) :
  q <= k -> (pow2 k == inject_Z (2 ^ (k - q)) * pow2 q)%Q.
Proof.
  intros H. rewrite <- pow2_nonneg_Z by lia. rewrite <- pow2_add.
  replace (k - q + q) with k by lia. reflexivity.
Qed.

Lemma float_exponent_spec (x : Q) :
  ~ (x == 0)%Q ->
  (pow2 (float_exponent x) <= Qabs x)%Q /\ (Qabs x < pow2 (float_exponent x + 1))%Q.
Proof.
  intros Hx. destruct x as [n d].
  assert (Hn : n <> 0).
  { intros ->. apply Hx. reflexivity. }
  unfold float_exponent. cbn [Qnum Qden].
  set (p := Z.abs n). set (a := Z.log2 p). set (b := Z.log2 (Z.pos d)).
  assert (Hp : 0 < p) by (subst p; lia).
  pose proof (Z.log2_spec p Hp) as Ha. fold a in Ha.
  pose proof (Z.log2_spec (Z.pos d) ltac:(lia)) as Hb. fold b in Hb.
  pose proof (Z.log2_nonneg p) as Ha0. fold a in Ha0.
  pose proof (Z.log2_nonneg (Z.pos d)) as Hb0. fold b in Hb0.
  assert (Habs : (Qabs (n # d) == inject_Z p / inject_Z (Z.pos d))%Q).
  { unfold Qabs. fold p. rewrite (Qmake_Qdiv p d). reflexivity. }
  assert (Hd : (0 < inject_Z (Z.pos d))%Q) by (unfold Qlt; simpl; lia).
  (* the quotient lies strictly between 2^(a-b-1) and 2^(a-b+1) *)
  assert (Hlow : (pow2 (a - b - 1) <= Qabs (n # d))%Q).
  { rewrite Habs. apply Qle_shift_div_l; [exact Hd |].
    apply Qle_trans with (inject_Z (2 ^ a)); [| rewrite <- Zle_Qle; lia].
    rewrite <- pow2_nonneg_Z by lia.
    apply Qle_trans with (pow2 (a - b - 1) * pow2 (b + 1))%Q.
    - apply Qmult_le_l; [apply pow2_pos |].
      rewrite pow2_nonneg_Z by lia. rewrite <- Zle_Qle.
      unfold Z.succ in Hb. lia.
    - rewrite <- pow2_add. replace (a - b - 1 + (b + 1)) with a by lia. apply Qle_refl. }
  assert (Hhigh : (Qabs (n # d) < pow2 (a - b + 1))%Q).
  { rewrite Habs. apply Qlt_shift_div_r; [exact Hd |].
    apply Qlt_le_trans with (inject_Z (2 ^ (a + 1))); [rewrite <- Zlt_Qlt; unfold Z.succ in Ha; lia |].
    rewrite <- pow2_nonneg_Z by lia.
    apply Qle_trans with (pow2 (a - b + 1) * pow2 b)%Q.
    - rewrite <- pow2_add. replace (a - b + 1 + b) with (a + 1) by lia. apply Qle_refl.
    - apply Qmult_le_l; [apply pow2_pos |].
      rewrite pow2_nonneg_Z by lia. rewrite <- Zle_Qle. lia. }
  destruct (Qle_bool (pow2 (a - b)) (Qabs (n # d))) eqn:Hcmp.
  - apply Qle_bool_iff in Hcmp. split; [exact Hcmp | exact Hhigh].
  - split; [exact Hlow |].
    replace (a - b - 1 + 1) with (a - b) by lia.
    apply Qnot_le_lt. intros Hle. apply Qle_bool_iff in Hle. congruence.
Qed.

(** The exponent is the one whose binade holds [|x|]. *)
Lemma float_exponent_unique (x : Q) (e : Z) :
  (pow2 e <= Qabs x)%Q -> (Qabs x < pow2 (e + 1))%Q -> float_exponent x = e.
Proof.
  intros Hlo Hhi.
  assert (Hx : ~ (x == 0)%Q).
  { intros H. rewrite H in Hlo. pose proof (pow2_pos e) as Hp.
    change (Qabs 0) with 0%Q in Hlo. exact (Qlt_irrefl 0 (Qlt_le_trans _ _ _ Hp Hlo)). }
  destruct (float_exponent_spec x Hx) as [Hlo' Hhi'].
  assert (H1 : float_exponent x < e + 1).
  { apply pow2_lt_inv. apply Qle_lt_trans with (Qabs x); assumption. }
  assert (H2 : e < float_exponent x + 1).
  { apply pow2_lt_inv. apply Qle_lt_trans with (Qabs x); assumption. }
  lia.
Qed.

Lemma float_exponent_ge (x : Q) (k : Z) :
  (pow2 k <= Qabs x)%Q -> k <= float_exponent x.
Proof.
  intros Hlo.
  assert (Hx : ~ (x == 0)%Q).
  { intros H. rewrite H in Hlo. pose proof (pow2_pos k) as Hp.
    change (Qabs 0) with 0%Q in Hlo. exact (Qlt_irrefl 0 (Qlt_le_trans _ _ _ Hp Hlo)). }
  destruct (float_exponent_spec x Hx) as [_ Hhi].
  assert (k < float_exponent x + 1); [| lia].
  apply pow2_lt_inv. apply Qle_lt_trans with (Qabs x); assumption.
Qed.

Lemma float_exponent_lt (x : Q) (k : Z) :
  ~ (x == 0)%Q -> (Qabs x < pow2 k)%Q -> float_exponent x < k.
Proof.
  intros Hx Hhi. destruct (float_exponent_spec x Hx) as [Hlo _].
  apply pow2_lt_inv. apply Qle_lt_trans with (Qabs x); assumption.
Qed.

Lemma float_exponent_le (x : Q) (k : Z) :
  ~ (x == 0)%Q -> (Qabs x <= pow2 k)%Q -> float_exponent x <= k.
Proof.
  intros Hx Hhi. destruct (float_exponent_spec x Hx) as [Hlo _].
  apply pow2_le_inv. apply Qle_trans with (Qabs x); assumption.
Qed.

(** *** Rounding to an integer *)

Lemma round_half_even_ge (x : Q) (n : Z) :
  (inject_Z n <= x)%Q -> n <= round_half_even x.
Proof.
  destruct x as [a d]. unfold Qle, round_half_even. cbn [Qnum Qden inject_Z].
  intros H.
  pose proof (Z.div_mod a (Z.pos d) ltac:(lia)) as Hdm.
  pose proof (Z.mod_pos_bound a (Z.pos d) ltac:(lia)) as Hmb.
  assert (Hf : n <= a / Z.pos d) by (apply Z.div_le_lower_bound; lia).
  destruct (2 * (a mod Z.pos d) ?= Z.pos d); [destruct (Z.even _) | |]; lia.
Qed.

Lemma round_half_even_le (x : Q) (n : Z) :
  (x <= inject_Z n)%Q -> round_half_even x <= n.
Proof.
  destruct x as [a d]. unfold Qle, round_half_even. cbn [Qnum Qden inject_Z].
  intros H.
  pose proof (Z.div_mod a (Z.pos d) ltac:(lia)) as Hdm.
  pose proof (Z.mod_pos_bound a (Z.pos d) ltac:(lia)) as Hmb.
  set (f := a / Z.pos d) in *. set (r := a mod Z.pos d) in *.
  assert (Hf : f <= n).
  { destruct (Z.le_gt_cases f n) as [? | Hgt]; [assumption |]. exfalso. nia. }
  destruct (Z.eq_dec f n) as [Heq | Hne].
  - assert (r = 0) by nia.
    destruct (Z.compare_spec (2 * r) (Z.pos d)); [lia | lia | lia].
  - destruct (2 * r ?= Z.pos d); [destruct (Z.even _) | |]; lia.
Qed.

Lemma round_half_even_Z (n : Z) : round_half_even (inject_Z n) = n.
Proof.
  pose proof (round_half_even_ge (inject_Z n) n (Qle_refl _)).
  pose proof (round_half_even_le (inject_Z n) n (Qle_refl _)). lia.
Qed.

(** The result is 0 exactly between [-1/2] and [1/2]. *)
Lemma round_half_even_0 (x : Q) :
  round_half_even x = 0 <-> (- (1 # 2) <= x)%Q /\ (x <= 1 # 2)%Q.
Proof.
  destruct x as [a d]. unfold Qle, round_half_even. cbn [Qnum Qden Qopp].
  pose proof (Z.div_mod a (Z.pos d) ltac:(lia)) as Hdm.
  pose proof (Z.mod_pos_bound a (Z.pos d) ltac:(lia)) as Hmb.
  set (f := a / Z.pos d) in *. set (r := a mod Z.pos d) in *.

  destruct (Z.compare_spec (2 * r) (Z.pos d)) as [Heq | Hlt | Hgt].
  - destruct (Z.even f) eqn:He.
    + split; [intros ->; lia |]. intros [H1 H2].
      assert (Hf : f = 0 \/ f = -1) by nia.
      destruct Hf as [-> | ->]; [reflexivity | discriminate He].
    + split; [intros Hf; assert (f = -1) by lia; subst f; nia |].
      intros [H1 H2]. assert (Hf : f = 0 \/ f = -1) by nia.
      destruct Hf as [Hf | Hf]; [rewrite Hf in He; discriminate He | lia].
  - split; [intros ->; lia |]. intros [H1 H2]. nia.
  - split; [intros Hf; assert (f = -1) by lia; subst f; nia |].
    intros [H1 H2]. nia.
Qed.

(** *** Rounding to binary64 *)

Lemma fround_unfold (x : Q) :
  ~ (x == 0)%Q ->
  (fround x
   == inject_Z (round_half_even (x / pow2 (float_quantum x))) * pow2 (float_quantum x))%Q.
Proof.
  intros Hx. unfold fround.
  destruct (Qeq_bool x 0) eqn:E; [apply Qeq_bool_iff in E; contradiction |].
  apply Qred_correct.
Qed.

Lemma fround_eq_0 (x : Q) : (x == 0)%Q -> fround x = 0%Q.
Proof.
  intros Hx. unfold fround. apply Qeq_bool_iff in Hx. rewrite Hx. reflexivity.
Qed.

(** A multiple of a power of two that is no finer than the quantum of [x]
    stays on its side of [x] under rounding. *)
Lemma fround_ge_grid (x : Q) (n q : Z) :
  ~ (x == 0)%Q -> float_quantum x <= q ->
  (inject_Z n * pow2 q <= x)%Q -> (inject_Z n * pow2 q <= fround x)%Q.
Proof.
  intros Hx Hq Hle. rewrite (fround_unfold x Hx).
  set (qe := float_quantum x) in *.
  assert (Hsplit : (inject_Z n * pow2 q == inject_Z (n * 2 ^ (q - qe)) * pow2 qe)%Q).
  { rewrite inject_Z_mult, (pow2_split q qe Hq). ring. }
  rewrite Hsplit in Hle |- *.
  apply Qmult_le_compat_r; [| apply Qlt_le_weak, pow2_pos].
  rewrite <- Zle_Qle. apply round_half_even_ge.
  apply Qle_shift_div_l; [apply pow2_pos | exact Hle].
Qed.

Lemma fround_le_grid (x : Q) (n q : Z) :
  ~ (x == 0)%Q -> float_quantum x <= q ->
  (x <= inject_Z n * pow2 q)%Q -> (fround x <= inject_Z n * pow2 q)%Q.
Proof.
  intros Hx Hq Hle. rewrite (fround_unfold x Hx).
  set (qe := float_quantum x) in *.
  assert (Hsplit : (inject_Z n * pow2 q == inject_Z (n * 2 ^ (q - qe)) * pow2 qe)%Q).
  { rewrite inject_Z_mult, (pow2_split q qe Hq). ring. }
  rewrite Hsplit in Hle |- *.
  apply Qmult_le_compat_r; [| apply Qlt_le_weak, pow2_pos].
  rewrite <- Zle_Qle. apply round_half_even_le.
  apply Qle_shift_div_r; [apply pow2_pos | exact Hle].
Qed.

Lemma float_quantum_ge (x : Q) : -1074 <= float_quantum x.
Proof. unfold float_quantum. lia. Qed.

Lemma float_quantum_le (x : Q) (k : Z) :
  -1074 <= k -> float_exponent x <= k -> float_quantum x <= k.
Proof. unfold float_quantum. lia. Qed.

(** Rounding keeps the sign. *)
Lemma fround_nonneg (x : Q) : (0 <= x)%Q -> (0 <= fround x)%Q.
Proof.
  intros Hx. destruct (Qeq_dec x 0) as [E | E].
  - rewrite (fround_eq_0 x E). apply Qle_refl.
  - assert (H0 : (inject_Z 0 * pow2 (float_quantum x) == 0)%Q) by ring.
    rewrite <- H0. apply fround_ge_grid; [exact E | lia |]. rewrite H0. exact Hx.
Qed.

Lemma fround_nonpos (x : Q) : (x <= 0)%Q -> (fround x <= 0)%Q.
Proof.
  intros Hx. destruct (Qeq_dec x 0) as [E | E].
  - rewrite (fround_eq_0 x E). apply Qle_refl.
  - assert (H0 : (inject_Z 0 * pow2 (float_quantum x) == 0)%Q) by ring.
    rewrite <- H0. apply fround_le_grid; [exact E | lia |]. rewrite H0. exact Hx.
Qed.

Lemma pos_neq_0 (x y : Q) : (0 < y)%Q -> (y <= x)%Q -> ~ (x == 0)%Q.
Proof.
  intros Hy Hle E. rewrite E in Hle. exact (Qlt_irrefl 0 (Qlt_le_trans _ _ _ Hy Hle)).
Qed.

(** Rounding does not cross a power of two from [2 ^ -1074] up. *)
Lemma fround_ge_pow2 (x : Q) (k : Z) :
  -1074 <= k -> (pow2 k <= x)%Q -> (pow2 k <= fround x)%Q.
Proof.
  intros Hk Hle.
  assert (Hx : ~ (x == 0)%Q) by exact (pos_neq_0 x _ (pow2_pos k) Hle).
  assert (Hpos : (0 <= x)%Q).
  { apply Qle_trans with (pow2 k); [apply Qlt_le_weak, pow2_pos | exact Hle]. }
  assert (Habs : (Qabs x == x)%Q) by (apply Qabs_pos; exact Hpos).
  destruct (float_exponent_spec x Hx) as [Hlo _]. rewrite Habs in Hlo.
  assert (He : k <= float_exponent x).
  { apply float_exponent_ge. rewrite Habs. exact Hle. }
  apply Qle_trans with (pow2 (float_exponent x)); [apply pow2_le; exact He |].
  assert (H1 : (inject_Z 1 * pow2 (float_exponent x) == pow2 (float_exponent x))%Q) by ring.
  rewrite <- H1. apply fround_ge_grid; [exact Hx | | rewrite H1; exact Hlo].
  unfold float_quantum. lia.
Qed.

Lemma fround_le_pow2 (x : Q) (k : Z) :
  -1074 <= k -> (0 <= x)%Q -> (x <= pow2 k)%Q -> (fround x <= pow2 k)%Q.
Proof.
  intros Hk Hpos Hle. destruct (Qeq_dec x 0) as [E | E].
  - rewrite (fround_eq_0 x E). apply Qlt_le_weak, pow2_pos.
  - assert (Habs : (Qabs x == x)%Q) by (apply Qabs_pos; exact Hpos).
    assert (He : float_exponent x <= k).
    { apply float_exponent_le; [exact E | rewrite Habs; exact Hle]. }
    assert (H1 : (inject_Z 1 * pow2 k == pow2 k)%Q) by ring.
    rewrite <- H1. apply fround_le_grid; [exact E | | rewrite H1; exact Hle].
    apply float_quantum_le; assumption.
Qed.

Lemma fround_le_neg_pow2 (x : Q) (k : Z) :
  -1074 <= k -> (x <= - pow2 k)%Q -> (fround x <= - pow2 k)%Q.
Proof.
  intros Hk Hle.
  assert (Hneg : (x < 0)%Q).
  { apply Qle_lt_trans with (- pow2 k)%Q; [exact Hle |].
    apply (Qplus_lt_l _ _ (pow2 k)). ring_simplify. apply pow2_pos. }
  assert (Hx : ~ (x == 0)%Q).
  { intros E. rewrite E in Hneg. exact (Qlt_irrefl 0 Hneg). }
  assert (Habs : (Qabs x == - x)%Q) by (apply Qabs_neg, Qlt_le_weak; exact Hneg).
  destruct (float_exponent_spec x Hx) as [Hlo _]. rewrite Habs in Hlo.
  assert (He : k <= float_exponent x).
  { apply float_exponent_ge. rewrite Habs.
    apply (Qplus_le_l _ _ (x - pow2 k)). ring_simplify. exact Hle. }
  apply Qle_trans with (- pow2 (float_exponent x))%Q.
  - assert (H1 : (inject_Z (-1) * pow2 (float_exponent x) == - pow2 (float_exponent x))%Q)
      by ring.
    rewrite <- H1. apply fround_le_grid; [exact Hx | unfold float_quantum; lia |].
    rewrite H1. apply (Qplus_le_l _ _ (pow2 (float_exponent x) - x)). ring_simplify.
    exact Hlo.
  - apply Qopp_le_compat. apply pow2_le. exact He.
Qed.

Lemma fround_ge_neg_pow2 (x : Q) (k : Z) :
  -1074 <= k -> (x <= 0)%Q -> (- pow2 k <= x)%Q -> (- pow2 k <= fround x)%Q.
Proof.
  intros Hk Hneg Hle. destruct (Qeq_dec x 0) as [E | E].
  - rewrite (fround_eq_0 x E).
    apply (Qplus_le_l _ _ (pow2 k)). ring_simplify. apply Qlt_le_weak, pow2_pos.
  - assert (Habs : (Qabs x == - x)%Q) by (apply Qabs_neg; exact Hneg).
    assert (He : float_exponent x <= k).
    { apply float_exponent_le; [exact E |]. rewrite Habs.
      apply (Qplus_le_l _ _ (x - pow2 k)). ring_simplify. exact Hle. }
    assert (H1 : (inject_Z (-1) * pow2 k == - pow2 k)%Q) by ring.
    rewrite <- H1. apply fround_ge_grid; [exact E | | rewrite H1; exact Hle].
    apply float_quantum_le; assumption.
Qed.

(** In absolute value. *)
Lemma fround_abs_le_pow2 (x : Q) (k : Z) :
  -1074 <= k -> (Qabs x <= pow2 k)%Q -> (Qabs (fround x) <= pow2 k)%Q.
Proof.
  intros Hk Hle. apply Qabs_Qle_condition in Hle. destruct Hle as [Hlo Hhi].
  apply Qabs_Qle_condition.
  destruct (Qlt_le_dec x 0) as [Hneg | Hpos].
  - split.
    + apply fround_ge_neg_pow2; [exact Hk | apply Qlt_le_weak; exact Hneg | exact Hlo].
    + apply Qle_trans with 0%Q; [apply fround_nonpos, Qlt_le_weak; exact Hneg |].
      apply Qlt_le_weak, pow2_pos.
  - split.
    + apply Qle_trans with 0%Q; [| apply fround_nonneg; exact Hpos].
      apply (Qplus_le_l _ _ (pow2 k)). ring_simplify. apply Qlt_le_weak, pow2_pos.
    + apply fround_le_pow2; assumption.
Qed.

(** The result is zero for the numbers up to half of the smallest subnormal
    number, [2 ^ -1074], and for no other. *)
Lemma fround_zero_iff (x : Q) :
  (fround x == 0)%Q <-> (Qabs x <= pow2 (-1075))%Q.
Proof.
  destruct (Qeq_dec x 0) as [E | E].
  { rewrite (fround_eq_0 x E). split; [| reflexivity].
    intros _. rewrite E. apply Qlt_le_weak, pow2_pos. }
  rewrite (fround_unfold x E).
  assert (Hhalf : (pow2 (-1075) == (1 # 2) * pow2 (-1074))%Q).
  { change (1 # 2)%Q with (pow2 (-1)). rewrite <- pow2_add. reflexivity. }
  destruct (float_exponent_spec x E) as [Hlo Hhi].
  split.
  - intros Hz.
    assert (Hr : round_half_even (x / pow2 (float_quantum x)) = 0).
    { destruct (Z.eq_dec (round_half_even (x / pow2 (float_quantum x))) 0) as [? | Hne];
        [assumption |].
      exfalso. apply (Qmult_integral) in Hz. destruct Hz as [Hz | Hz].
      - apply Hne. revert Hz. unfold Qeq. simpl. lia.
      - exact (pow2_neq_0 _ Hz). }
    apply round_half_even_0 in Hr. destruct Hr as [H1 H2].
    set (q := float_quantum x) in *.
    assert (Hx : (Qabs x <= (1 # 2) * pow2 q)%Q).
    { apply Qabs_Qle_condition. split.
      - apply (Qmult_le_compat_r _ _ (pow2 q)) in H1; [| apply Qlt_le_weak, pow2_pos].
        assert (E1 : (x / pow2 q * pow2 q == x)%Q) by (field; apply pow2_neq_0).
        rewrite E1 in H1. apply Qle_trans with (- (1 # 2) * pow2 q)%Q; [| exact H1].
        apply Qle_lteq. right. ring.
      - apply (Qmult_le_compat_r _ _ (pow2 q)) in H2; [| apply Qlt_le_weak, pow2_pos].
        assert (E1 : (x / pow2 q * pow2 q == x)%Q) by (field; apply pow2_neq_0).
        rewrite E1 in H2. exact H2. }
    assert (Hq : q = -1074).
    { unfold q, float_quantum in *.
      destruct (Z.max_spec (float_exponent x - 52) (-1074)) as [[_ Hm] | [_ Hm]];
        [exact Hm |].
      exfalso. rewrite Hm in Hx.
      assert (Hc : (pow2 (float_exponent x) <= (1 # 2) * pow2 (float_exponent x - 52))%Q)
        by (apply Qle_trans with (Qabs x); assumption).
      change (1 # 2)%Q with (pow2 (-1)) in Hc. rewrite <- pow2_add in Hc.
      apply pow2_le_inv in Hc. lia. }
    rewrite Hq in Hx. rewrite Hhalf. exact Hx.
  - intros Hle.
    assert (He : float_exponent x <= -1075).
    { apply float_exponent_le; assumption. }
    assert (Hq : float_quantum x = -1074) by (unfold float_quantum; lia).
    rewrite Hq.
    assert (Hr : round_half_even (x / pow2 (-1074)) = 0).
    { apply round_half_even_0. rewrite Hhalf in Hle.
      apply Qabs_Qle_condition in Hle. destruct Hle as [H1 H2]. split.
      - apply Qle_shift_div_l; [apply pow2_pos |].
        apply Qle_trans with (- ((1 # 2) * pow2 (-1074)))%Q; [| exact H1].
        apply Qle_lteq. right. ring.
      - apply Qle_shift_div_r; [apply pow2_pos | exact H2]. }
    rewrite Hr. ring.
Qed.

(** *** Float operations *)

Lemma float_0_8_eq : float_0_8 = Finite (3602879701896397 # 4503599627370496).
Proof. vm_compute. reflexivity. Qed.

Lemma float_0_2_eq : float_0_2 = Finite (3602879701896397 # 18014398509481984).
Proof. vm_compute. reflexivity. Qed.

Lemma float_1_33_eq : float_1_33 = Finite (748723438050345 # 562949953421312).
Proof. vm_compute. reflexivity. Qed.

Lemma round_float_cases (x : Q) :
  (round_float x = Finite (fround x) /\ (Qabs (fround x) < pow2 1024)%Q)
  \/ (round_float x = Infinity (negb (Qle_bool 0 x)) /\ (pow2 1024 <= Qabs (fround x))%Q).
Proof.
  unfold round_float.
  destruct (Qle_bool (pow2 1024) (Qabs (fround x))) eqn:E.
  - right. split; [reflexivity | apply Qle_bool_iff; exact E].
  - left. split; [reflexivity |].
    apply Qnot_le_lt. intros H. apply Qle_bool_iff in H. congruence.
Qed.

Lemma round_float_not_NaN (x : Q) : round_float x <> NaN.
Proof. destruct (round_float_cases x) as [[-> _] | [-> _]]; discriminate. Qed.

(** A result of magnitude at most [2 ^ k], [k <= 1023], is finite. *)
Lemma round_float_finite (x : Q) (k : Z) :
  -1074 <= k <= 1023 -> (Qabs x <= pow2 k)%Q ->
  round_float x = Finite (fround x) /\ (Qabs (fround x) <= pow2 k)%Q.
Proof.
  intros Hk Hx.
  pose proof (fround_abs_le_pow2 x k ltac:(lia) Hx) as Hr.
  split; [| exact Hr]. unfold round_float.
  destruct (Qle_bool (pow2 1024) (Qabs (fround x))) eqn:E; [| reflexivity].
  apply Qle_bool_iff in E. exfalso.
  assert (Hc : (pow2 1024 <= pow2 k)%Q) by (apply Qle_trans with (Qabs (fround x)); assumption).
  apply pow2_le_inv in Hc. lia.
Qed.

(** A non-negative result below the largest float is finite. *)
Lemma round_float_finite_nonneg (x : Q) :
  (0 <= x)%Q -> (x <= inject_Z (2 ^ 53 - 1) * pow2 971)%Q ->
  exists y, round_float x = Finite y /\ (0 <= y)%Q.
Proof.
  intros Hpos Hle. exists (fround x).
  pose proof (fround_nonneg x Hpos) as Hr. split; [| exact Hr].
  unfold round_float.
  destruct (Qle_bool (pow2 1024) (Qabs (fround x))) eqn:E; [| reflexivity].
  apply Qle_bool_iff in E. rewrite (Qabs_pos _ Hr) in E. exfalso.
  destruct (Qeq_dec x 0) as [Hz | Hnz].
  { rewrite (fround_eq_0 x Hz) in E.
    exact (Qlt_irrefl 0 (Qlt_le_trans _ _ _ (pow2_pos 1024) E)). }
  assert (Hmax : (inject_Z (2 ^ 53 - 1) * pow2 971 < pow2 1024)%Q).
  { unfold Qlt. vm_compute. reflexivity. }
  assert (Hq : float_quantum x <= 971).
  { assert (float_exponent x < 1024); [| unfold float_quantum; lia].
    apply float_exponent_lt; [exact Hnz |].
    rewrite (Qabs_pos _ Hpos). apply Qle_lt_trans with (inject_Z (2 ^ 53 - 1) * pow2 971)%Q;
      assumption. }
  pose proof (fround_le_grid x (2 ^ 53 - 1) 971 Hnz Hq Hle) as Hup.
  apply (Qlt_irrefl (pow2 1024)).
  apply Qle_lt_trans with (fround x); [exact E |].
  apply Qle_lt_trans with (inject_Z (2 ^ 53 - 1) * pow2 971)%Q; assumption.
Qed.

(** The conversion of an integer: finite of the same sign when it returns. *)
Lemma float_of_int_Ok (n : Z) (a : float) :
  float_of_int n = Ok a ->
  a = Finite (fround (inject_Z n)) /\ (Qabs (fround (inject_Z n)) < pow2 1024)%Q.
Proof.
  unfold float_of_int.
  destruct (round_float_cases (inject_Z n)) as [[-> Hlt] | [-> _]]; [| discriminate].
  intros [= <-]. split; [reflexivity | exact Hlt].
Qed.

Lemma inject_Z_abs_le_pow2 (n k : Z) :
  0 <= k -> Z.abs n <= 2 ^ k -> (Qabs (inject_Z n) <= pow2 k)%Q.
Proof.
  intros Hk Hn. rewrite pow2_nonneg_Z by exact Hk.
  apply Qabs_Qle_condition. split.
  - rewrite <- inject_Z_opp, <- Zle_Qle. lia.
  - rewrite <- Zle_Qle. lia.
Qed.

Lemma float_of_int_range (n k m : Z) :
  0 <= k <= m -> m <= 1023 -> 2 ^ k <= n <= 2 ^ m ->
  exists x, float_of_int n = Ok (Finite x) /\ (pow2 k <= x)%Q /\ (x <= pow2 m)%Q.
Proof.
  intros Hk Hm Hn.
  assert (Hpk : 0 < 2 ^ k) by (apply Z.pow_pos_nonneg; lia).
  destruct (round_float_finite (inject_Z n) m ltac:(lia)) as [Hr Hb].
  { apply inject_Z_abs_le_pow2; lia. }
  exists (fround (inject_Z n)). unfold float_of_int. rewrite Hr.
  split; [reflexivity |]. split.
  - apply fround_ge_pow2; [lia |]. rewrite pow2_nonneg_Z by lia. rewrite <- Zle_Qle. lia.
  - apply Qle_trans with (Qabs (fround (inject_Z n))); [apply Qle_Qabs | exact Hb].
Qed.

(** *** The order of the floats that are no NaN *)

Lemma Qle_bool_false (x y : Q) : Qle_bool x y = false <-> (y < x)%Q.
Proof.
  split.
  - intros H. apply Qnot_le_lt. intros Hle. apply Qle_bool_iff in Hle. congruence.
  - intros H. destruct (Qle_bool x y) eqn:E; [| reflexivity].
    apply Qle_bool_iff in E. exfalso. exact (Qlt_not_le _ _ H E).
Qed.

Lemma float_gt_Finite (x y : Q) : float_gt (Finite x) (Finite y) = true <-> (y < x)%Q.
Proof. cbn [float_gt]. rewrite negb_true_iff. apply Qle_bool_false. Qed.

Lemma float_gt_Finite_false (x y : Q) : float_gt (Finite x) (Finite y) = false <-> (x <= y)%Q.
Proof. cbn [float_gt]. rewrite negb_false_iff. apply Qle_bool_iff. Qed.

Lemma float_gt_asym (a b : float) : float_gt a b = true -> float_gt b a = false.
Proof.
  destruct a as [x | [] |], b as [y | [] |]; try reflexivity; try discriminate.
  rewrite float_gt_Finite, float_gt_Finite_false. apply Qlt_le_weak.
Qed.

(** [a < b <= c] gives [a < c]. *)
Lemma float_lt_le_trans (a b c : float) :
  a <> NaN -> c <> NaN ->
  float_gt b a = true -> float_gt b c = false -> float_gt c a = true.
Proof.
  destruct a as [x | [] |], b as [y | [] |], c as [z | [] |];
    intros Ha Hc; try contradiction; try reflexivity; try discriminate.
  rewrite !float_gt_Finite, float_gt_Finite_false. intros H1 H2.
  apply Qlt_le_trans with y; assumption.
Qed.

(** [a <= b <= c] gives [a <= c]. *)
Lemma float_le_trans (a b c : float) :
  b <> NaN ->
  float_gt a b = false -> float_gt b c = false -> float_gt a c = false.
Proof.
  destruct a as [x | [] |], b as [y | [] |], c as [z | [] |];
    intros Hb; try contradiction; try reflexivity; try discriminate.
  rewrite !float_gt_Finite_false. intros H1 H2.
  apply Qle_trans with y; assumption.
Qed.

(** [a <= b < c] gives [a < c]. *)
Lemma float_le_lt_trans (a b c : float) :
  a <> NaN -> b <> NaN ->
  float_gt a b = false -> float_gt c b = true -> float_gt c a = true.
Proof.
  destruct a as [x | [] |], b as [y | [] |], c as [z | [] |];
    intros Ha Hb; try contradiction; try reflexivity; try discriminate.
  rewrite !float_gt_Finite, float_gt_Finite_false. intros H1 H2.
  apply Qle_lt_trans with y; assumption.
Qed.

Lemma float_gt_irrefl (a : float) : float_gt a a = false.
Proof.
  destruct a as [x | [] |]; try reflexivity.
  apply float_gt_Finite_false. apply Qle_refl.
Qed.

(** ** The hybrid benchmarker *)

Lemma max_go_In {A K} (gt : K -> K -> bool) (key : A -> K) (l : list A) :
  forall best, In (max_go gt key best l) (best :: l).
Proof.
  induction l as [| x l IH]; intros best; [left; reflexivity |].
  cbn [max_go]. destruct (gt (key x) (key best)).
  - right. apply IH.
  - destruct (IH best) as [H | H]; [left; exact H | right; right; exact H].
Qed.

(** [max] returns the first of the items with the greatest key. *)
Lemma max_go_first_best {A} (key : A -> float) (l : list A) :
  forall best,
    Forall (fun x => key x <> NaN) (best :: l) ->
    exists i,
      (best :: l) !! i = Some (max_go float_gt key best l)
      /\ forall j c, (best :: l) !! j = Some c ->
                     float_gt (key c) (key (max_go float_gt key best l)) = false
                     /\ ((j < i)%nat ->
                         float_gt (key (max_go float_gt key best l)) (key c) = true).
Proof.
  induction l as [| x l IH]; intros best Hall.
  - exists 0%nat. split; [reflexivity |].
    intros [| j] c Hc; [| discriminate]. injection Hc as <-.
    split; [apply float_gt_irrefl | lia].
  - apply Forall_cons in Hall. destruct Hall as [Hbest Hall].
    pose proof Hall as Hall'. apply Forall_cons in Hall'. destruct Hall' as [Hx Hl].
    cbn [max_go]. destruct (float_gt (key x) (key best)) eqn:Hgt.
    + destruct (IH x Hall) as (i & Hi & Hmax).
      exists (S i). split; [exact Hi |].
      destruct (Hmax 0%nat x eq_refl) as [Hxm _].
      assert (Hm : float_gt (key (max_go float_gt key x l)) (key best) = true).
      { apply float_lt_le_trans with (key x); try assumption.
        pose proof (max_go_In float_gt key l x) as Hin.
        rewrite List.Forall_forall in Hall. exact (Hall _ Hin). }
      intros [| j] c Hc.
      * injection Hc as <-. split; [apply float_gt_asym; exact Hm | intros _; exact Hm].
      * destruct (Hmax j c Hc) as [Hle Hlt]. split; [exact Hle |].
        intros Hj. apply Hlt. lia.
    + assert (Hall0 : Forall (fun x => key x <> NaN) (best :: l))
        by (constructor; assumption).
      destruct (IH best Hall0) as (i & Hi & Hmax).
      destruct (Hmax 0%nat best eq_refl) as [Hbm Hbml].
      assert (Hxm : float_gt (key x) (key (max_go float_gt key best l)) = false).
      { apply float_le_trans with (key best); assumption. }
      destruct i as [| i].
      * exists 0%nat. split; [exact Hi |].
        intros [| [| j]] c Hc.
        -- injection Hc as <-. split; [exact Hbm | lia].
        -- injection Hc as <-. split; [exact Hxm | lia].
        -- destruct (Hmax (S j) c Hc) as [Hle _]. split; [exact Hle | lia].
      * exists (S (S i)). split; [exact Hi |].
        assert (Hstrict : float_gt (key (max_go float_gt key best l)) (key best) = true)
          by (apply Hbml; lia).
        intros [| [| j]] c Hc.
        -- injection Hc as <-. split; [exact Hbm | intros _; exact Hstrict].
        -- injection Hc as <-. split; [exact Hxm |].
           intros _. apply float_le_lt_trans with (key best); assumption.
        -- destruct (Hmax (S j) c Hc) as [Hle Hlt]. split; [exact Hle |].
           intros Hj. apply Hlt. lia.
Qed.

(** The winner depends on the names and scores of the candidates only. *)
Lemma max_go_deterministic (l1 : list candidate) :
  forall l2 best1 best2,
    cand_key best1 = cand_key best2 ->
    map cand_key l1 = map cand_key l2 ->
    cand_key (max_go float_gt cand_score best1 l1)
    = cand_key (max_go float_gt cand_score best2 l2).
Proof.
  induction l1 as [| x1 l1 IH]; intros [| x2 l2] best1 best2 Hb Hl; try discriminate.
  - exact Hb.
  - cbn [map] in Hl.
    assert (Hx : cand_key x1 = cand_key x2) by congruence.
    assert (Hl' : map cand_key l1 = map cand_key l2) by congruence.
    assert (Hs : cand_score x1 = cand_score x2) by (unfold cand_key in Hx; congruence).
    assert (Hsb : cand_score best1 = cand_score best2) by (unfold cand_key in Hb; congruence).
    cbn [max_go]. rewrite Hs, Hsb.
    destruct (float_gt (cand_score x2) (cand_score best2)); apply IH; assumption.
Qed.

Lemma hybrid_methods_in_order (env : Env) (data : bytes) :
  hybrid_methods_to_try env data `sublist_of` hybrid_enumeration.
Proof.
  unfold hybrid_methods_to_try, hybrid_enumeration.
  destruct (available env "brotli_base64"), (LZ4_SUPPORT env && (len data <? 1024 * 1024)),
    (len data <? 100 * 1024);
    cbn [app];
    repeat first [apply sublist_nil | apply sublist_skip | apply sublist_cons].
Qed.

(** The [if]/[elif] chain of the benchmark loop runs the codec that the
    table gives for the name. *)
Lemma hybrid_encode_pipeline (env : Env) (data : bytes) (method : string) :
  hybrid_encode env data method
  = match assoc method (hybrid_pipelines env data) with
    | Some r => Some <$> r
    | None => Ok None
    end.
Proof.
  unfold hybrid_encode, hybrid_pipelines. cbn [assoc].
  repeat match goal with
         | |- context [String.eqb method ?name] => destruct (String.eqb method name)
         end; reflexivity.
Qed.

(** One round of the benchmark loop, with its [try] and its clock
    readings, is the outcome of the candidate. *)
Lemma hybrid_trial_outcome (env : Env) (data : bytes) (method : string) (w : Engine) :
  hybrid_trial env data method w
  = (Ok (candidate_outcome env data method (clock_reads w)).1,
     {| compression_stats := compression_stats w;
        clock_reads := (candidate_outcome env data method (clock_reads w)).2 |}).
Proof.
  unfold hybrid_trial, try_except, candidate_outcome. rewrite eng_bind_eq.
  change (time_time env w) with (Ok (clock env (clock_reads w)), tick w).
  cbv beta iota. rewrite eng_bind_eq. unfold lift at 1.
  rewrite hybrid_encode_pipeline.
  destruct (assoc method (hybrid_pipelines env data)) as [[encoded | e] |];
    cbn [fmap result_fmap]; cbv beta iota; [| reflexivity | reflexivity].
  rewrite eng_bind_eq.
  change (time_time env (tick w))
    with (Ok (clock env (clock_reads (tick w))), tick (tick w)).
  cbv beta iota. rewrite eng_bind_eq. unfold lift at 1.
  change (clock_reads (tick w)) with (S (clock_reads w)).
  change (hybrid_score (utf8_len encoded)
            (float_sub (Finite (clock env (S (clock_reads w))))
                       (Finite (clock env (clock_reads w)))))
    with (score_of (utf8_len encoded) (elapsed_ms env (clock_reads w))).
  destruct (score_of (utf8_len encoded) (elapsed_ms env (clock_reads w))) as [score | e];
    reflexivity.
Qed.

Lemma hybrid_trials_candidates (env : Env) (data : bytes) (methods : list string) :
  forall w,
    hybrid_trials env data methods w
    = (Ok (candidates_from env data methods (clock_reads w)).1,
       {| compression_stats := compression_stats w;
          clock_reads := (candidates_from env data methods (clock_reads w)).2 |}).
Proof.
  induction methods as [| method rest IH]; intros w.
  - destruct w. reflexivity.
  - cbn [hybrid_trials candidates_from]. rewrite eng_bind_eq, hybrid_trial_outcome.
    destruct (candidate_outcome env data method (clock_reads w)) as [c n1].
    cbn [fst snd]. rewrite eng_bind_eq, IH. cbn [clock_reads compression_stats].
    destruct (candidates_from env data rest n1) as [cs n2]. reflexivity.
Qed.

Lemma candidate_outcome_method env data method n c n' :
  candidate_outcome env data method n = (Some c, n') -> cand_method c = method.
Proof.
  unfold candidate_outcome.
  destruct (assoc method (hybrid_pipelines env data)) as [[encoded | e] |];
    try discriminate.
  destruct (score_of _ _); [| discriminate]. intros [= <- _]. reflexivity.
Qed.

Lemma candidates_from_order env data methods :
  forall n, map cand_method (candidates_from env data methods n).1 `sublist_of` methods.
Proof.
  induction methods as [| method rest IH]; intros n; [constructor |].
  cbn [candidates_from].
  destruct (candidate_outcome env data method n) as [c n1] eqn:Hc.
  specialize (IH n1). destruct (candidates_from env data rest n1) as [cs n2].
  cbn [fst] in *. destruct c as [c |].
  - cbn [map]. rewrite (candidate_outcome_method _ _ _ _ _ _ Hc).
    apply sublist_skip. exact IH.
  - apply sublist_cons. exact IH.
Qed.

(** *** No score is a NaN *)

Lemma elapsed_ms_not_NaN (env : Env) (n : nat) : elapsed_ms env n <> NaN.
Proof.
  unfold elapsed_ms, float_sub. cbn [float_opp float_add].
  destruct (round_float_cases (clock env (S n) + - clock env n)) as [[-> _] | [-> _]].
  - cbn [float_mul]. apply round_float_not_NaN.
  - cbn [float_mul]. discriminate.
Qed.

Lemma score_of_not_NaN (size : Z) (time_ms score : float) :
  0 <= size -> time_ms <> NaN -> score_of size time_ms = Ok score -> score <> NaN.
Proof.
  intros Hsize Htime. unfold score_of.
  destruct (float_of_int size) as [size_f |] eqn:Hconv; [| discriminate].
  cbn [mbind result_bind].
  destruct (float_of_int_Ok _ _ Hconv) as [-> Hfin].
  assert (Hnn : (0 <= fround (inject_Z size))%Q).
  { apply fround_nonneg. change 0%Q with (inject_Z 0). rewrite <- Zle_Qle. exact Hsize. }
  rewrite (Qabs_pos _ Hnn) in Hfin.
  unfold w_size, w_time. rewrite float_0_8_eq, float_0_2_eq. cbn [float_mul].
  set (x := fround (inject_Z size)) in *.
  destruct (round_float_finite_nonneg (x * (3602879701896397 # 4503599627370496))%Q)
    as (y & -> & _).
  { apply Qmult_le_0_compat; [exact Hnn | discriminate]. }
  { apply Qle_trans with (pow2 1024 * (3602879701896397 # 4503599627370496))%Q.
    - apply Qmult_le_compat_r; [apply Qlt_le_weak; exact Hfin | discriminate].
    - unfold Qle. vm_compute. discriminate. }
  assert (Hb : forall b, b <> NaN -> float_add (Finite y) b <> NaN).
  { intros [z | s |] Hbn; [apply round_float_not_NaN | discriminate | contradiction]. }
  assert (Ht : float_mul time_ms (Finite (3602879701896397 # 18014398509481984)) <> NaN).
  { destruct time_ms as [t | s |]; [apply round_float_not_NaN | | contradiction].
    cbn [float_mul]. discriminate. }
  specialize (Hb _ Ht).
  destruct (float_add (Finite y) _) as [c | s |]; [| | contradiction].
  - cbn [float_truediv]. destruct (Qeq_bool c 0); [discriminate |].
    intros [= <-]. apply round_float_not_NaN.
  - cbn [float_truediv]. intros [= <-]. discriminate.
Qed.

Lemma candidate_outcome_score env data method n c n' :
  candidate_outcome env data method n = (Some c, n') -> cand_score c <> NaN.
Proof.
  unfold candidate_outcome.
  destruct (assoc method (hybrid_pipelines env data)) as [[encoded | e] |];
    try discriminate.
  destruct (score_of _ _) as [score |] eqn:Hs; [| discriminate]. intros [= <- _].
  cbn [cand_score].
  exact (score_of_not_NaN _ _ _ (utf8_len_nonneg encoded) (elapsed_ms_not_NaN env n) Hs).
Qed.

Lemma candidates_from_scores env data methods :
  forall n, Forall (fun c => cand_score c <> NaN) (candidates_from env data methods n).1.
Proof.
  induction methods as [| method rest IH]; intros n; [constructor |].
  cbn [candidates_from].
  destruct (candidate_outcome env data method n) as [c n1] eqn:Hc.
  specialize (IH n1). destruct (candidates_from env data rest n1) as [cs n2].
  cbn [fst] in *. destruct c as [c |]; [| exact IH].
  constructor; [exact (candidate_outcome_score _ _ _ _ _ _ Hc) | exact IH].
Qed.

(** *** Every codec that returns is scored *)

(** A non-negative exact result rounds to a non-negative float or to
    [+Infinity]. *)
Lemma round_float_nonneg (x : Q) :
  (0 <= x)%Q ->
  (exists z, round_float x = Finite z /\ (0 <= z)%Q) \/ round_float x = Infinity false.
Proof.
  intros Hpos. destruct (round_float_cases x) as [[-> _] | [-> _]].
  - left. exists (fround x). split; [reflexivity | apply fround_nonneg; exact Hpos].
  - right. apply Qle_bool_iff in Hpos. rewrite Hpos. reflexivity.
Qed.

Lemma float_mul_nonneg (a : float) (c : Q) :
  (0 < c)%Q ->
  (exists z, a = Finite z /\ (0 <= z)%Q) \/ a = Infinity false ->
  (exists z, float_mul a (Finite c) = Finite z /\ (0 <= z)%Q)
  \/ float_mul a (Finite c) = Infinity false.
Proof.
  intros Hc [(z & -> & Hz) | ->].
  - cbn [float_mul]. apply round_float_nonneg.
    apply Qmult_le_0_compat; [exact Hz | apply Qlt_le_weak; exact Hc].
  - right. cbn [float_mul].
    destruct (Qeq_bool c 0) eqn:E.
    + apply Qeq_bool_eq in E. rewrite E in Hc. destruct (Qlt_irrefl 0 Hc).
    + unfold float_negative.
      assert (Hle : Qle_bool 0 c = true) by (apply Qle_bool_iff, Qlt_le_weak; exact Hc).
      rewrite Hle. reflexivity.
Qed.

Lemma hybrid_score_returns (size : Z) (t0 t1 : Q) :
  0 < size <= 2 ^ 1023 -> (t0 <= t1)%Q ->
  exists score, hybrid_score size (float_sub (Finite t1) (Finite t0)) = Ok score.
Proof.
  intros Hsize Ht. unfold hybrid_score.
  destruct (float_of_int_range size 0 1023 ltac:(lia) ltac:(lia) ltac:(lia))
    as (x & -> & Hlo & Hhi).
  cbn [mbind result_bind]. rewrite float_0_8_eq, float_0_2_eq.
  assert (Hx : (0 <= x)%Q).
  { apply Qle_trans with (pow2 0); [discriminate | exact Hlo]. }
  set (c := (3602879701896397 # 4503599627370496)%Q).
  assert (Hcost : exists y, float_mul (Finite x) (Finite c) = Finite y /\ (pow2 (-1) <= y)%Q).
  { change (float_mul (Finite x) (Finite c)) with (round_float (x * c)).
    assert (Hxc : (0 <= x * c)%Q) by (apply Qmult_le_0_compat; [exact Hx | discriminate]).
    destruct (round_float_finite (x * c) 1023 ltac:(lia)) as [-> _].
    { rewrite (Qabs_pos _ Hxc).
      apply Qle_trans with (pow2 1023 * c)%Q.
      - apply Qmult_le_compat_r; [exact Hhi | discriminate].
      - unfold Qle. vm_compute. discriminate. }
    eexists. split; [reflexivity |]. apply fround_ge_pow2; [lia |].
    apply Qle_trans with (pow2 0 * c)%Q.
    - unfold Qle. vm_compute. discriminate.
    - apply Qmult_le_compat_r; [exact Hlo | discriminate]. }
  destruct Hcost as (y & -> & Hy).
  assert (Htime : (exists z, float_mul (float_mul (float_sub (Finite t1) (Finite t0))
                                                  (Finite 1000))
                                       (Finite (3602879701896397 # 18014398509481984))
                             = Finite z /\ (0 <= z)%Q)
                  \/ float_mul (float_mul (float_sub (Finite t1) (Finite t0)) (Finite 1000))
                               (Finite (3602879701896397 # 18014398509481984))
                     = Infinity false).
  { apply float_mul_nonneg; [reflexivity |]. apply float_mul_nonneg; [reflexivity |].
    unfold float_sub. cbn [float_opp float_add]. apply round_float_nonneg.
    apply (proj1 (Qle_minus_iff t0 t1)). exact Ht. }
  destruct Htime as [(z & -> & Hz) | ->].
  - cbn [float_add]. destruct (round_float_cases (y + z)) as [[-> _] | [-> _]].
    + cbn [float_truediv].
      destruct (Qeq_bool (fround (y + z)) 0) eqn:E; [exfalso | eexists; reflexivity].
      apply Qeq_bool_eq in E.
      assert (Hge : (pow2 (-1) <= fround (y + z))%Q).
      { apply fround_ge_pow2; [lia |].
        rewrite <- (Qplus_0_r (pow2 (-1))). apply Qplus_le_compat; assumption. }
      rewrite E in Hge. revert Hge. unfold Qle. vm_compute. intros H. apply H. reflexivity.
    + cbn [float_truediv]. eexists. reflexivity.
  - cbn [float_add float_truediv]. eexists. reflexivity.
Qed.

(** A codec that returns a non-empty string of a size a float can hold,
    between two clock readings that do not go down, is scored and kept. *)
Lemma candidate_outcome_kept env data method encoded n :
  assoc method (hybrid_pipelines env data) = Some (Ok encoded) ->
  0 < utf8_len encoded <= 2 ^ 1023 ->
  (clock env n <= clock env (S n))%Q ->
  exists score,
    score_of (utf8_len encoded) (elapsed_ms env n) = Ok score
    /\ candidate_outcome env data method n
       = (Some {| cand_method := method; cand_result := encoded;
                  cand_size := utf8_len encoded; cand_score := score |}, S (S n)).
Proof.
  intros Hp Hsize Ht. unfold candidate_outcome. rewrite Hp.
  destruct (hybrid_score_returns (utf8_len encoded) _ _ Hsize Ht) as [score Hs].
  change (hybrid_score (utf8_len encoded)
            (float_sub (Finite (clock env (S n))) (Finite (clock env n))))
    with (score_of (utf8_len encoded) (elapsed_ms env n)) in Hs.
  exists score. rewrite Hs. split; reflexivity.
Qed.

(** C8: the candidates are those of the methods tried, in the order
    gzip, deflate, brotli, lz4, z85: every codec that returns is timed and
    scored as [1 / (size * 0.8 + time_ms * 0.2)] in float arithmetic and kept
    with that score; the score exists whenever the encoded string is not empty
    and the clock did not go down while the codec ran.  No score is a NaN; the
    winner has the highest score, and every candidate before it in that order
    has a strictly lower score, so that among equal scores the earliest wins;
    and the winning name is a function of the names and scores of the
    candidates alone. *)
Theorem hybrid_selects_first_best (env : Env) (data : bytes) (w : Engine) :
  let methods := hybrid_methods_to_try env data in
  let cands := (candidates_from env data methods (clock_reads w)).1 in
  let w' := {| compression_stats := compression_stats w;
               clock_reads := (candidates_from env data methods (clock_reads w)).2 |} in
  methods `sublist_of` hybrid_enumeration
  /\ hybrid_trials env data methods w = (Ok cands, w')
  /\ map cand_method cands `sublist_of` methods
  /\ (forall method encoded n,
        assoc method (hybrid_pipelines env data) = Some (Ok encoded) ->
        0 < utf8_len encoded <= 2 ^ 1023 ->
        (clock env n <= clock env (S n))%Q ->
        exists score,
          score_of (utf8_len encoded) (elapsed_ms env n) = Ok score
          /\ candidate_outcome env data method n
             = (Some {| cand_method := method; cand_result := encoded;
                        cand_size := utf8_len encoded; cand_score := score |},
                S (S n)))
  /\ Forall (fun c => cand_score c <> NaN) cands
  /\ match cands with
     | [] => _hybrid_compress env data w = (Ok (b64encode env data), w')
     | _ =>
       exists i best,
         cands !! i = Some best
         /\ _hybrid_compress env data w
            = (Ok ("HYBRID:" +:+ cand_method best +:+ ":" +:+ cand_result best), w')
         /\ forall j c, cands !! j = Some c ->
                        float_gt (cand_score c) (cand_score best) = false
                        /\ ((j < i)%nat ->
                            float_gt (cand_score best) (cand_score c) = true)
     end
  /\ forall other,
       map cand_key other = map cand_key cands ->
       cand_method <$> py_max float_gt cand_score other
       = cand_method <$> py_max float_gt cand_score cands.
Proof.
  intros methods cands w'.
  pose proof (hybrid_trials_candidates env data methods w) as Hrun.
  pose proof (candidates_from_scores env data methods (clock_reads w)) as Hscores.
  fold cands in Hrun, Hscores. fold w' in Hrun.
  split; [apply hybrid_methods_in_order |]. split; [exact Hrun |].
  split; [apply candidates_from_order |].
  split; [apply candidate_outcome_kept |]. split; [exact Hscores |]. split.
  - unfold _hybrid_compress. fold methods. rewrite eng_bind_eq, Hrun. cbv beta iota.
    destruct cands as [| c0 cands0]; [reflexivity |].
    destruct (max_go_first_best cand_score cands0 c0 Hscores) as (i & Hi & Hbest).
    exists i, (max_go float_gt cand_score c0 cands0).
    split; [exact Hi |]. split; [reflexivity | exact Hbest].
  - intros other Hkeys.
    destruct other as [| o0 other], cands as [| c0 cands0]; try discriminate;
      [reflexivity |].
    cbn [py_max fmap result_fmap]. cbn [map] in Hkeys.
    assert (Hk : cand_key (max_go float_gt cand_score o0 other)
                 = cand_key (max_go float_gt cand_score c0 cands0))
      by (apply max_go_deterministic; congruence).
    unfold cand_key in Hk. congruence.
Qed.

(** C8, a codec that returns is not always scored: on a clock that steps
    back by 0.052 seconds while gzip runs, the cost [13 * 0.8 + (-52) * 0.2]
    of its 13 bytes is the float zero, the division raises inside the [try]
    and the candidate is dropped; deflate, the next in order, wins. *)
Lemma hybrid_drops_returning_codec :
  hybrid_encode zero_cost_env hello "gzip_base64" = Ok (Some "Hello, World!")
  /\ hybrid_score 13 (float_sub (Finite (clock zero_cost_env 1))
                                (Finite (clock zero_cost_env 0)))
     = Raise ZeroDivisionError
  /\ (hybrid_trial zero_cost_env hello "gzip_base64" new_engine).1 = Ok None
  /\ map cand_method
       <$> (hybrid_trials zero_cost_env hello
                          (hybrid_methods_to_try zero_cost_env hello) new_engine).1
     = Ok ["deflate_base64"; "brotli_base64"; "z85"]
  /\ (_hybrid_compress zero_cost_env hello new_engine).1
     = Ok "HYBRID:deflate_base64:Hello, World!"
  /\ ~ (forall env data method encoded w,
           hybrid_encode env data method = Ok (Some encoded) ->
           exists c, (hybrid_trial env data method w).1 = Ok (Some c)).
Proof.
  split; [vm_compute; reflexivity |]. split; [vm_compute; reflexivity |].
  split; [vm_compute; reflexivity |]. split; [vm_compute; reflexivity |].
  split; [vm_compute; reflexivity |].
  intros Hkept.
  destruct (Hkept zero_cost_env hello "gzip_base64" "Hello, World!" new_engine)
    as [c Hc]; [vm_compute; reflexivity |].
  vm_compute in Hc. discriminate.
Qed.

(** Scores that differ in exact arithmetic can be equal floats: with 13
    encoded bytes, the costs of [2 ^ -60] and of [2 ^ -61] seconds both round
    to [13 * 0.8], the three Base64 candidates tie, and gzip, tried first, is
    kept although deflate was faster. *)
Lemma hybrid_scores_tie_after_rounding :
  float_gt (elapsed_ms tie_clock_env 0) (elapsed_ms tie_clock_env 2) = true
  /\ score_of 13 (elapsed_ms tie_clock_env 0) = score_of 13 (elapsed_ms tie_clock_env 2)
  /\ map cand_method
         (candidates_from tie_clock_env hello (hybrid_methods_to_try tie_clock_env hello) 0).1
     = ["gzip_base64"; "deflate_base64"; "brotli_base64"; "z85"]
  /\ (_hybrid_compress tie_clock_env hello new_engine).1
     = Ok "HYBRID:gzip_base64:Hello, World!".
Proof. repeat split; vm_compute; reflexivity. Qed.

(** ** Statistics over a run *)

Lemma stats_le_refl (P : Prop) (st : Stats) : stats_le P st st.
Proof. unfold stats_le. repeat split; try lia. intros _. apply Qle_refl. Qed.

Lemma stats_le_trans (P : Prop) (a b c : Stats) :
  stats_le P a b -> stats_le P b c -> stats_le P a c.
Proof.
  intros (H1 & H2 & H3 & H4 & H5) (G1 & G2 & G3 & G4 & G5).
  unfold stats_le. repeat split; try lia.
  - intros HP. apply Qle_trans with (total_processing_time b); auto.
  - intros k. specialize (H5 k). specialize (G5 k). lia.
Qed.

Lemma monotone_clock_le (env : Env) (n m : nat) :
  monotone_clock env -> (n <= m)%nat -> (clock env n <= clock env m)%Q.
Proof.
  intros Hmono Hle. induction Hle as [| m Hle IH]; [apply Qle_refl |].
  apply Qle_trans with (clock env m); [exact IH | apply Hmono].
Qed.

Lemma len_nonneg {A} (l : list A) : 0 <= len l.
Proof. unfold len. lia. Qed.

Lemma stats_step_le (P : Prop) (st st' : Stats) (method : string) (original c : Z) (t : Q) :
  0 <= original -> 0 <= c -> (P -> (0 <= t)%Q) ->
  stats_step st st' method original c t -> stats_le P st st'.
Proof.
  intros Ho Hc Ht (H1 & H2 & H3 & H4 & H5 & H6).
  unfold stats_le. repeat split; try lia.
  - intros HP. rewrite H4. rewrite <- (Qplus_0_r (total_processing_time st)) at 1.
    apply Qplus_le_r. exact (Ht HP).
  - intros k. destruct (decide (k = method)) as [-> | Hne]; [lia |].
    rewrite (H6 k Hne). lia.
Qed.

(** What one call does to the statistics.  A call of [compress_data] that
    returns adds one file, the payload length, the encoded length, the measured
    time and one use of the method named in its metadata; a call that raises,
    and every call of another method, leaves the statistics as they are. *)
Lemma run_call_stats (env : Env) (c : call) (w : Engine) :
  match c with
  | CompressData data method level =>
    match compress_data env data method level w with
    | (Ok (_, md), w') =>
      run_call env c w = (true, w')
      /\ meta_original_size md = len data
      /\ stats_step (compression_stats w) (compression_stats w') (meta_method md)
           (len data) (meta_compressed_size md) (meta_processing_time_ms md)
      /\ (monotone_clock env -> (0 <= meta_processing_time_ms md)%Q)
      /\ 0 <= meta_compressed_size md
    | (Raise _, w') =>
      run_call env c w = (false, w') /\ compression_stats w' = compression_stats w
    end
  | _ => compression_stats (run_call env c w).2 = compression_stats w
  end.
Proof.
  destruct c as [data method level | s md | data file_type |]; try reflexivity.
  destruct (compress_data_cases env data method level w)
    as (c & m & w1 & Hatt & Hs & Hr & H).
  destruct data as [| b data'].
  - cbn [run_call]. rewrite H. split; [reflexivity | exact Hs].
  - destruct H as (md & st' & Heq & Hm & Ho & Hc & Ht & Hstep).
    cbn [run_call]. rewrite Heq. cbn [compression_stats].
    split; [reflexivity |]. split; [exact Ho |]. split.
    + rewrite Hm, Hc, Ht. exact Hstep.
    + split.
      * intros Hmono. rewrite Ht.
        apply Qmult_le_0_compat; [| discriminate].
        unfold Qminus. rewrite <- Qle_minus_iff.
        apply monotone_clock_le; [exact Hmono | lia].
      * rewrite Hc. apply utf8_len_nonneg.
Qed.

Lemma run_call_le (env : Env) (c : call) (w : Engine) :
  stats_le (monotone_clock env)
           (compression_stats w) (compression_stats (run_call env c w).2).
Proof.
  pose proof (run_call_stats env c w) as H.
  destruct c as [data method level | s md | data file_type |];
    try (rewrite H; apply stats_le_refl).
  destruct (compress_data env data method level w) as [[[s md] | e] w'].
  - destruct H as (-> & Ho & Hstep & Ht & Hc). cbn [snd].
    apply (stats_step_le _ _ _ (meta_method md) (len data) (meta_compressed_size md)
             (meta_processing_time_ms md));
      [apply len_nonneg | exact Hc | exact Ht | exact Hstep].
  - destruct H as (-> & Hs). cbn [snd]. rewrite Hs. apply stats_le_refl.
Qed.

Lemma run_calls_le (env : Env) (cs : list call) :
  forall w, stats_le (monotone_clock env)
                     (compression_stats w) (compression_stats (run_calls env cs w)).
Proof.
  induction cs as [| c cs IH]; intros w; cbn [run_calls].
  - apply stats_le_refl.
  - eapply stats_le_trans; [apply run_call_le | apply IH].
Qed.

Lemma run_calls_app (env : Env) (cs1 cs2 : list call) (w : Engine) :
  run_calls env (cs1 ++ cs2) w = run_calls env cs2 (run_calls env cs1 w).
Proof.
  revert w. induction cs1 as [| c cs1 IH]; intros w; [reflexivity |].
  cbn [app run_calls]. apply IH.
Qed.

Lemma run_calls_totals (env : Env) (cs : list call) :
  forall w,
    total_original_size (compression_stats (run_calls env cs w))
    = total_original_size (compression_stats w) + sum_sizes (completed_sizes env cs w)
    /\ files_processed (compression_stats (run_calls env cs w))
       = files_processed (compression_stats w) + len (completed_sizes env cs w).
Proof.
  induction cs as [| c cs IH]; intros w.
  - cbn. unfold len. cbn. lia.
  - cbn [run_calls completed_sizes].
    pose proof (run_call_stats env c w) as H.
    destruct (IH (run_call env c w).2) as [IHo IHf].
    rewrite IHo, IHf. clear IHo IHf.
    destruct c as [data method level | s md | data file_type |].
    + destruct (compress_data env data method level w) as [[[s md] | e] w'].
      * destruct H as (Hrun & Ho & (Hf & Hs & _) & _). rewrite Hrun. cbn [snd].
        rewrite Hf, Hs. unfold len, sum_sizes. cbn [foldr length]. split; lia.
      * destruct H as (Hrun & Hs). rewrite Hrun. cbn [snd]. rewrite Hs. lia.
    + destruct (run_call env (DecompressData s md) w) as [ok w'] eqn:E.
      cbn [snd] in *. rewrite H. lia.
    + destruct (run_call env (DetermineOptimalMethod data file_type) w) as [ok w'] eqn:E.
      cbn [snd] in *. rewrite H. lia.
    + destruct (run_call env GetCompressionReport w) as [ok w'] eqn:E.
      cbn [snd] in *. rewrite H. lia.
Qed.

(** C9: on a fresh engine, after any run of calls the total original
    size is the sum of the payload lengths of the [compress_data] calls that
    returned and [files_processed] is their number; the totals and usage counts
    after any prefix of the run are at most those after the whole run (for the
    total of measured times, on a clock that never runs backwards); and call by
    call, only a returning [compress_data] changes the statistics, by exactly
    its own deltas. *)
Theorem stats_consistency (env : Env) (calls : list call) :
  let st := compression_stats (run_calls env calls new_engine) in
  total_original_size st = sum_sizes (completed_sizes env calls new_engine)
  /\ files_processed st = len (completed_sizes env calls new_engine)
  /\ (forall before after,
         calls = before ++ after ->
         stats_le (monotone_clock env)
                  (compression_stats (run_calls env before new_engine)) st)
  /\ forall c w,
       match c with
       | CompressData data method level =>
         match compress_data env data method level w with
         | (Ok (_, md), w') =>
           run_call env c w = (true, w')
           /\ meta_original_size md = len data
           /\ stats_step (compression_stats w) (compression_stats w') (meta_method md)
                (len data) (meta_compressed_size md) (meta_processing_time_ms md)
         | (Raise _, w') =>
           run_call env c w = (false, w') /\ compression_stats w' = compression_stats w
         end
       | _ => compression_stats (run_call env c w).2 = compression_stats w
       end.
Proof.
  intros st. subst st.
  destruct (run_calls_totals env calls new_engine) as [Ho Hf].
  split; [rewrite Ho; reflexivity |]. split; [rewrite Hf; reflexivity |]. split.
  - intros before after ->. rewrite run_calls_app. apply run_calls_le.
  - intros c w. pose proof (run_call_stats env c w) as H.
    destruct c as [data method level | s md | data file_type |]; try exact H.
    destruct (compress_data env data method level w) as [[[s md] | e] w'];
      [| exact H].
    destruct H as (H1 & H2 & H3 & _).
    split; [exact H1 | split; [exact H2 | exact H3]].
Qed.

(** A run of four calls on the stand-in environment: two of the three
    [compress_data] calls return, and the totals are theirs. *)
Lemma stats_consistency_witness :
  let calls := [CompressData hello "z85" 6; CompressData [] "z85" 6;
                DecompressData "Z85:0:" (metadata_of_method "z85");
                CompressData [x00; x00] "base91" 6] in
  let st := compression_stats (run_calls stub_env calls new_engine) in
  monotone_clock stub_env
  /\ completed_sizes stub_env calls new_engine = [13; 2]
  /\ total_original_size st = 15
  /\ files_processed st = 2
  /\ (total_processing_time initial_stats <= total_processing_time st)%Q.
Proof.
  intros calls st.
  assert (Hmono : monotone_clock stub_env) by (intros n; unfold Qle; simpl; lia).
  split; [exact Hmono |].
  destruct (stats_consistency stub_env calls) as (Ho & Hf & Hle & _).
  assert (Hsizes : completed_sizes stub_env calls new_engine = [13; 2])
    by (vm_compute; reflexivity).
  split; [exact Hsizes |].
  subst st. rewrite Ho, Hf, Hsizes.
  split; [reflexivity |]. split; [reflexivity |].
  destruct (Hle [] calls eq_refl) as (_ & _ & _ & Ht & _).
  exact (Ht Hmono).
Defined.

(** C9, the total of the measured times can decrease: on a clock whose
    readings go down by one second per reading, one returning
    [compress_data] call on a fresh engine leaves [total_processing_time] at
    [-1000] milliseconds, below its initial [0].  So "every total is
    non-decreasing" needs the clock not to run backwards. *)
Lemma processing_time_total_decreases :
  (total_processing_time
     (compression_stats
        (run_calls backward_clock_env [CompressData hello "z85" 6] new_engine))
   == -1000)%Q
  /\ files_processed
       (compression_stats
          (run_calls backward_clock_env [CompressData hello "z85" 6] new_engine)) = 1
  /\ ~ (forall env calls before after,
           calls = before ++ after ->
           stats_le True (compression_stats (run_calls env before new_engine))
                    (compression_stats (run_calls env calls new_engine))).
Proof.
  split; [vm_compute; reflexivity |]. split; [vm_compute; reflexivity |].
  intros Hle.
  destruct (Hle backward_clock_env [CompressData hello "z85" 6] []
                [CompressData hello "z85" 6] eq_refl) as (_ & _ & _ & Ht & _).
  specialize (Ht I). revert Ht. vm_compute. intros H. apply H. reflexivity.
Qed.

(** * Further properties *)

(** ** The base-85 codec *)

(** X1: [_encode_z85] returns for every payload, [_decode_z85] inverts it, and
    so two payloads with the same encoding are equal. *)
Theorem z85_inverse_and_injective (d1 d2 : bytes) :
  (exists s, _encode_z85 d1 = Ok s /\ _decode_z85 s = Ok d1)
  /\ (_encode_z85 d1 = _encode_z85 d2 -> d1 = d2).
Proof.
  destruct (z85_encode_decode d1) as (g1 & He1 & _ & _ & Hd1).
  assert (Hinv : forall d, exists s, _encode_z85 d = Ok s /\ _decode_z85 s = Ok d).
  { intros d. destruct (z85_encode_decode d) as (g & He & _ & _ & Hd).
    eexists. split; [exact He |]. rewrite Hd. f_equal.
    destruct (Z.ltb_spec 0 (z85_padding d)) as [Hpos | Hz].
    - apply drop_last_pad.
    - pose proof (z85_padding_range d) as Hp.
      unfold z85_pad. replace (z85_padding d) with 0 by lia. apply app_nil_r. }
  split; [apply Hinv |].
  intros Heq.
  destruct (Hinv d1) as (s1 & E1 & D1), (Hinv d2) as (s2 & E2 & D2).
  rewrite E1, E2 in Heq. injection Heq as ->. congruence.
Qed.

(** *** Chunking *)

Lemma py_chunks_step {A} (n : nat) (l : list A) :
  (0 < n)%nat -> l <> [] -> py_chunks n l = take n l :: py_chunks n (drop n l).
Proof.
  intros Hn Hl. unfold py_chunks.
  destruct l as [| x l]; [contradiction |].
  cbn [length chunks_go]. f_equal.
  apply chunks_go_enough; [exact Hn |].
  rewrite length_drop. cbn [length]. lia.
Qed.

(** Slicing a list into chunks of [n] gives [ceil(len / n)] chunks, none
    empty and none longer than [n], whose concatenation is the list. *)
Lemma py_chunks_spec {A} (n : nat) :
  (0 < n)%nat ->
  forall l : list A,
    concat (py_chunks n l) = l
    /\ len (py_chunks n l) = (len l + Z.of_nat n - 1) / Z.of_nat n
    /\ Forall (fun c => (0 < length c <= n)%nat) (py_chunks n l).
Proof.
  intros Hn l.
  induction l as [l IH] using (induction_ltof1 _ (@length A)). unfold ltof in IH.
  destruct l as [| x l].
  - rewrite py_chunks_nil. unfold len. cbn [length concat].
    repeat split; [| constructor].
    symmetry. apply Z.div_small. lia.
  - rewrite py_chunks_step by (exact Hn || discriminate).
    destruct (IH (drop n (x :: l))) as (Hc & Hl & Hall).
    { rewrite length_drop. cbn [length]. lia. }
    repeat split.
    + cbn [concat]. rewrite Hc. apply take_drop.
    + unfold len in *. cbn [length]. rewrite Nat2Z.inj_succ, Hl.
      rewrite length_drop. cbn [length].
      destruct (Nat.le_gt_cases n (S (length l))) as [Hge | Hlt].
      * replace (Z.of_nat (S (length l) - n) + Z.of_nat n - 1)
          with (Z.of_nat (S (length l)) + Z.of_nat n - 1 + (-1) * Z.of_nat n) by lia.
        rewrite Z.div_add by lia. lia.
      * replace (S (length l) - n)%nat with 0%nat by lia.
        rewrite (Z.div_small (Z.of_nat 0 + Z.of_nat n - 1)) by lia.
        apply Z.div_unique with (r := Z.of_nat (S (length l)) - 1); lia.
    + constructor; [| exact Hall].
      rewrite length_take. cbn [length]. lia.
Qed.

(** *** Sizes *)

Lemma utf8_len_app (s1 s2 : string) : utf8_len (s1 +:+ s2) = utf8_len s1 + utf8_len s2.
Proof.
  induction s1 as [| c s1 IH]; [reflexivity |].
  change (String c s1 +:+ s2) with (String c (s1 +:+ s2)).
  cbn [utf8_len]. rewrite IH. lia.
Qed.

Lemma str_index_In (s : string) (i : Z) (c : ascii) :
  str_index s i = Ok c -> In c (list_ascii_of_string s).
Proof.
  unfold str_index.
  destruct ((0 <=? _) && (_ <? _)); [| discriminate].
  generalize (Z.to_nat (if i <? 0 then i + str_len s else i)) as n.
  induction s as [| a s IH]; intros n H; [destruct n; discriminate |].
  destruct n as [| n]; cbn [String.get list_ascii_of_string In] in *.
  - left. congruence.
  - right. apply (IH n). exact H.
Qed.

Lemma z85_symbol_ascii (d : Z) : utf8_len (String (z85_symbol d) "") = 1.
Proof.
  assert (Hall : forallb (fun c => Z.of_nat (nat_of_ascii c) <? 128)
                         (list_ascii_of_string z85_alphabet) = true)
    by (vm_compute; reflexivity).
  unfold z85_symbol.
  destruct (str_index z85_alphabet d) as [c | e] eqn:Hc; [| reflexivity].
  apply str_index_In in Hc.
  apply (proj1 (forallb_forall _ _) Hall) in Hc.
  cbn [utf8_len]. rewrite Hc. reflexivity.
Qed.

Lemma z85_group_size (value : Z) :
  utf8_len (z85_group value) = 5 /\ String.length (z85_group value) = 5%nat.
Proof.
  split; [| reflexivity].
  unfold z85_group.
  repeat match goal with
         | |- context [String (z85_symbol ?d) ?s] =>
           lazymatch s with
           | EmptyString => fail
           | _ => change (String (z85_symbol d) s) with (String (z85_symbol d) "" +:+ s)
           end
         end.
  rewrite !utf8_len_app, !z85_symbol_ascii. reflexivity.
Qed.

Lemma mapM_z85_encode_chunk (chunks : list bytes) :
  mapM z85_encode_chunk chunks
  = Ok (map (fun c => z85_group (int_from_bytes_big c)) chunks).
Proof.
  induction chunks as [| c chunks IH]; [reflexivity |].
  cbn [mapM map]. rewrite z85_encode_chunk_group. cbn [mbind result_bind].
  fold (mapM z85_encode_chunk chunks). rewrite IH. reflexivity.
Qed.

Lemma z85_groups_size (values : list Z) :
  utf8_len (join "" (map z85_group values)) = 5 * len values
  /\ str_len (join "" (map z85_group values)) = 5 * len values.
Proof.
  induction values as [| v values [IHu IHs]]; [split; reflexivity |].
  cbn [map]. rewrite join_empty_cons, utf8_len_app.
  unfold str_len in *. rewrite string_length_app.
  destruct (z85_group_size v) as [-> ->].
  unfold len in *. cbn [length]. lia.
Qed.

Lemma z85_padded_groups (data : bytes) :
  len (py_chunks 4 (z85_pad data)) = (len data + 3) / 4.
Proof.
  destruct (py_chunks_spec 4 ltac:(lia) (z85_pad data)) as (_ & -> & _).
  destruct (z85_pad_length data) as [k Hk].
  unfold len. rewrite Hk. change (Z.of_nat 4) with 4.
  pose proof (z85_padding_range data) as Hp.
  assert (Hlen : Z.of_nat (4 * k) = len data + z85_padding data).
  { rewrite <- Hk. unfold z85_pad, len. rewrite length_app, repeat_length. lia. }
  unfold len in Hlen.
  replace (Z.of_nat (4 * k) + 4 - 1) with (3 + Z.of_nat k * 4) by lia.
  rewrite Z.div_add by lia. change (3 / 4) with 0.
  apply Z.div_unique with (r := 3 - z85_padding data); lia.
Qed.

(** X2: the string [_encode_z85] returns has 6 characters of frame and 5 for every started
    group of 4 payload bytes, all of them ASCII. *)
Theorem z85_encoded_length (data : bytes) :
  exists s, _encode_z85 data = Ok s
            /\ str_len s = 6 + 5 * ((len data + 3) / 4)
            /\ utf8_len s = 6 + 5 * ((len data + 3) / 4).
Proof.
  unfold _encode_z85. rewrite mapM_z85_encode_chunk. cbn [mbind result_bind].
  eexists. split; [reflexivity |].
  rewrite <- (map_map int_from_bytes_big z85_group).
  pose proof (z85_groups_size (map int_from_bytes_big (py_chunks 4 (z85_pad data))))
    as [Hu Hs].
  assert (Hm : len (map int_from_bytes_big (py_chunks 4 (z85_pad data)))
               = (len data + 3) / 4).
  { unfold len at 1. rewrite length_map. exact (z85_padded_groups data). }
  rewrite Hm in Hu, Hs.
  pose proof (z85_padding_range data) as Hp.
  assert (Hpad : utf8_len (str_of_int (z85_padding data)) = 1
                 /\ str_len (str_of_int (z85_padding data)) = 1).
  { assert (Hc : z85_padding data = 0 \/ z85_padding data = 1
                 \/ z85_padding data = 2 \/ z85_padding data = 3) by lia.
    destruct Hc as [-> | [-> | [-> | ->]]]; split; reflexivity. }
  destruct Hpad as [Hpu Hps].
  unfold str_len in *.
  rewrite !utf8_len_app, !string_length_app, Hu, Hpu.
  rewrite !Nat2Z.inj_add, Hs, Hps.
  change (utf8_len "Z85:") with 4. change (utf8_len ":") with 1.
  change (Z.of_nat (String.length "Z85:")) with 4.
  change (Z.of_nat (String.length ":")) with 1.
  split; lia.
Qed.

(** ** Top-level dispatch *)

(** What the [try] block of [compress_data] leaves as method name: the
    requested name when it is one the dispatch knows, ['gzip_base64']
    otherwise. *)
Lemma compress_encode_method env data method level w c m w1 :
  compress_encode env data method level w = (Ok (c, m), w1) ->
  (In method dispatched_names /\ m = method)
  \/ (~ In method dispatched_names /\ m = "gzip_base64").
Proof.
  unfold compress_encode, dispatched_names. intros H.
  repeat match type of H with
         | context [String.eqb method ?name] =>
           destruct (String.eqb_spec method name) as [Heq | ?];
             [ left; split; [rewrite Heq; cbn; tauto |];
               rewrite eng_bind_eq in H;
               match type of H with
               | context [match ?x with _ => _ end] =>
                 destruct x as [[? | ?] ?]; [| discriminate]
               end;
               unfold mret, eng_ret in H; congruence
             |]
         end.
  right. split.
  - cbn [In]. intuition congruence.
  - rewrite eng_bind_eq in H.
    match type of H with
    | context [match ?x with _ => _ end] => destruct x as [[? | ?] ?]; [| discriminate]
    end.
    unfold mret, eng_ret in H. congruence.
Qed.

(** The outcome of the [try]/[except] of [compress_data]: either the codec
    returned, or the string is the plain Base64 of the payload under the name
    ['base64_only']. *)
Lemma compress_attempt_cases env data method level w c m w1 :
  compress_attempt env data method level w = (Ok (c, m), w1) ->
  compress_encode env data method level w = (Ok (c, m), w1)
  \/ (exists e w0, compress_encode env data method level w = (Raise e, w0)
                   /\ w1 = w0 /\ c = b64encode env data /\ m = "base64_only").
Proof.
  unfold compress_attempt, try_except.
  destruct (compress_encode env data method level w) as [[[c0 m0] | e] w0].
  - intros H. left. exact H.
  - intros H. right. exists e, w0. cbn in H.
    injection H as <- <- <-. repeat split; reflexivity.
Qed.

(** The metadata record of a call of [compress_data] that returns. *)
Lemma compress_data_returned env data method level w s md w' :
  compress_data env data method level w = (Ok (s, md), w') ->
  exists m w1,
    compress_attempt env data (resolve_method env data method) level (tick w)
    = (Ok (s, m), w1)
    /\ data <> []
    /\ md = {| meta_method := m;
               meta_original_size := len data;
               meta_compressed_size := utf8_len s;
               meta_compression_ratio :=
                 (1 - inject_Z (utf8_len s) / inject_Z (len data))%Q;
               meta_efficiency := (inject_Z (utf8_len s) / inject_Z (len data))%Q;
               meta_space_saved := len data - utf8_len s;
               meta_processing_time_ms :=
                 ((clock env (clock_reads w1) - clock env (clock_reads w)) * 1000)%Q;
               meta_base64_improvement :=
                 (1 - inject_Z (utf8_len s)
                      / inject_Z (int_of_float (inject_Z (len data) * (133 # 100))))%Q;
               meta_compression_level :=
                 if endswith "_base64" m then Some level else None |}
    /\ _update_stats m (len data) (utf8_len s)
         ((clock env (clock_reads w1) - clock env (clock_reads w)) * 1000)%Q (tick w1)
       = (Ok tt, w').
Proof.
  intros Hret.
  destruct (compress_attempt_total env data (resolve_method env data method) level (tick w))
    as [[c m] Hc].
  destruct (compress_attempt env data (resolve_method env data method) level (tick w))
    as [r w1] eqn:Hatt.
  simpl in Hc. subst r.
  unfold compress_data in Hret. rewrite eng_bind_eq in Hret.
  change (time_time env w) with (Ok (clock env (clock_reads w)), tick w) in Hret.
  cbv beta iota in Hret. rewrite eng_bind_eq, Hatt in Hret. cbv beta iota in Hret.
  rewrite eng_bind_eq in Hret.
  change (time_time env w1) with (Ok (clock env (clock_reads w1)), tick w1) in Hret.
  cbv beta iota in Hret.
  destruct data as [| b data']; [discriminate |].
  set (data := b :: data') in *.
  assert (Hlen : 0 < len data) by (unfold len, data; simpl; lia).
  rewrite eng_bind_eq in Hret. unfold lift at 1 in Hret. unfold int_truediv at 1 in Hret.
  destruct (Z.eqb_spec (len data) 0) as [H0 | _]; [lia |].
  cbv beta iota in Hret. rewrite eng_bind_eq in Hret.
  unfold lift at 1 in Hret. unfold int_truediv at 1 in Hret.
  destruct (Z.eqb_spec (len data) 0) as [H0 | _]; [lia |].
  cbv beta iota in Hret. rewrite eng_bind_eq in Hret.
  unfold lift at 1 in Hret. unfold int_truediv at 1 in Hret.
  destruct (Z.eqb_spec (int_of_float (inject_Z (len data) * (133 # 100))) 0) as [H0 | _];
    [exfalso; revert H0; apply base64_size_nonzero, Hlen |].
  cbv beta iota in Hret.
  match type of Hret with
  | context [_update_stats ?a ?b ?c ?d] =>
    destruct (_update_stats_spec a b c d (tick w1)) as (st' & Hup & Hst)
  end.
  unfold mbind at 1 in Hret. unfold eng_bind in Hret. rewrite Hup in Hret.
  cbv beta iota in Hret. cbn [mret eng_ret] in Hret.
  injection Hret as <- <- <-.
  exists m, w1. split; [reflexivity |]. split; [discriminate |].
  split; [reflexivity | exact Hup].
Qed.

Lemma compress_encode_unknown env data method level :
  ~ In method dispatched_names ->
  compress_encode env data method level = compress_encode env data "gzip_base64" level.
Proof.
  intros Hnot.
  unfold compress_encode, dispatched_names in *. cbn [In] in Hnot.
  repeat match goal with
         | |- context [String.eqb method ?name] =>
           destruct (String.eqb_spec method name) as [Heq | _];
             [exfalso; apply Hnot; rewrite Heq; tauto |]
         end.
  reflexivity.
Qed.

(** X3: a method name that the dispatch does not know, other than ['auto'], is
    served as ['gzip_base64']: the whole call equals the call that requests
    gzip. *)
Theorem unknown_method_is_gzip env data method level w :
  ~ In method dispatched_names -> method <> "auto" ->
  compress_data env data method level w
  = compress_data env data "gzip_base64" level w.
Proof.
  intros Hnot Hauto.
  pose proof (compress_encode_unknown env data method level Hnot) as Henc.
  unfold compress_data, compress_attempt.
  replace (resolve_method env data method) with method.
  - change (resolve_method env data "gzip_base64") with "gzip_base64".
    rewrite Henc. reflexivity.
  - unfold resolve_method.
    destruct (String.eqb_spec method "auto"); [contradiction | reflexivity].
Qed.

Lemma unknown_method_is_gzip_witness :
  ~ In "zip" dispatched_names /\ "zip" <> "auto"
  /\ compress_data stub_env hello "zip" 9 new_engine
     = compress_data stub_env hello "gzip_base64" 9 new_engine.
Proof.
  assert (H1 : ~ In "zip" dispatched_names) by (cbn; intuition discriminate).
  assert (H2 : "zip" <> "auto") by discriminate.
  split; [exact H1 |]. split; [exact H2 |].
  apply (unknown_method_is_gzip stub_env hello "zip" 9 new_engine H1 H2).
Defined.

(** X4: the metadata of a returned call: the method is one of the ten codec
    names whatever was requested, the sizes are those of the payload and of
    the UTF-8 encoded string, the derived figures follow from them with
    [compression_ratio = 1 - efficiency <= 1], and the level is recorded for
    the five backend pipelines only. *)
Theorem compress_data_metadata env data method level w s md w' :
  compress_data env data method level w = (Ok (s, md), w') ->
  In (meta_method md) codec_names
  /\ 0 < len data
  /\ meta_original_size md = len data
  /\ meta_compressed_size md = utf8_len s
  /\ meta_space_saved md = meta_original_size md - meta_compressed_size md
  /\ meta_compression_ratio md = (1 - meta_efficiency md)%Q
  /\ (0 <= meta_efficiency md)%Q
  /\ (meta_compression_ratio md <= 1)%Q
  /\ (meta_compression_level md = Some level <-> In (meta_method md) level_names)
  /\ (meta_compression_level md = None <-> ~ In (meta_method md) level_names).
Proof.
  intros Hret.
  destruct (compress_data_returned _ _ _ _ _ _ _ _ Hret) as (m & w1 & Hatt & Hne & -> & _).
  cbn [meta_method meta_original_size meta_compressed_size meta_space_saved
       meta_compression_ratio meta_efficiency meta_compression_level].
  assert (Hlen : 0 < len data).
  { destruct data; [contradiction | unfold len; simpl; lia]. }
  assert (Hm : In m codec_names).
  { destruct (compress_attempt_cases _ _ _ _ _ _ _ _ Hatt) as [Henc | (e & w0 & _ & _ & _ & ->)].
    - destruct (compress_encode_method _ _ _ _ _ _ _ _ Henc) as [[Hin ->] | [_ ->]].
      + unfold dispatched_names, codec_names in *. cbn [In] in *. tauto.
      + cbn. tauto.
    - cbn. tauto. }
  assert (Heff : (0 <= inject_Z (utf8_len s) / inject_Z (len data))%Q).
  { apply Qle_shift_div_l.
    - change 0%Q with (inject_Z 0). rewrite <- Zlt_Qlt. exact Hlen.
    - rewrite Qmult_0_l. change 0%Q with (inject_Z 0). rewrite <- Zle_Qle.
      apply utf8_len_nonneg. }
  split; [exact Hm |]. split; [exact Hlen |].
  split; [reflexivity |]. split; [reflexivity |]. split; [reflexivity |].
  split; [reflexivity |]. split; [exact Heff |]. split.
  { apply Qle_minus_iff.
    assert (E : (1 + - (1 - inject_Z (utf8_len s) / inject_Z (len data))
                 == inject_Z (utf8_len s) / inject_Z (len data))%Q) by ring.
    rewrite E. exact Heff. }
  unfold codec_names, level_names in *. cbn [In] in *.
  destruct Hm as [<- | [<- | [<- | [<- | [<- | [<- | [<- | [<- | [<- | [<- | []]]]]]]]]]];
    cbn; split; split; intros H; try discriminate; try reflexivity;
    intuition (try discriminate; try congruence).
Qed.

Lemma compress_data_metadata_witness :
  exists s md w',
    compress_data stub_env hello "no-such-method" 6 new_engine = (Ok (s, md), w')
    /\ meta_method md = "gzip_base64"
    /\ meta_compression_level md = Some 6
    /\ (meta_compression_ratio md <= 1)%Q.
Proof.
  destruct (compress_data stub_env hello "no-such-method" 6 new_engine)
    as [[[s md] | e] w'] eqn:E; [| vm_compute in E; discriminate].
  exists s, md, w'. split; [reflexivity |].
  destruct (compress_data_metadata stub_env hello "no-such-method" 6 new_engine s md w' E)
    as (_ & _ & _ & _ & _ & _ & _ & Hr & Hl & _).
  assert (Hm : meta_method md = "gzip_base64")
    by (vm_compute in E; injection E as _ <- _; reflexivity).
  split; [exact Hm |]. split; [| exact Hr].
  apply Hl. rewrite Hm. cbn. tauto.
Defined.

(** X5: the name ['base64_only'] in the metadata means that the chosen codec
    raised and nothing else: it is recorded exactly when the [try] block
    raised, and then the string is the plain Base64 of the payload, which
    [decompress_data] hands to [base64.b64decode]. *)
Theorem base64_only_means_fallback env data method level w s md w' :
  compress_data env data method level w = (Ok (s, md), w') ->
  (meta_method md = "base64_only"
   <-> exists e w0,
         compress_encode env data (resolve_method env data method) level (tick w)
         = (Raise e, w0))
  /\ (meta_method md = "base64_only" ->
      s = b64encode env data
      /\ decompress_data env s md = b64decode env (b64encode env data)).
Proof.
  intros Hret.
  destruct (compress_data_returned _ _ _ _ _ _ _ _ Hret) as (m & w1 & Hatt & Hne & -> & _).
  cbn [meta_method].
  destruct (compress_attempt_cases _ _ _ _ _ _ _ _ Hatt)
    as [Henc | (e & w0 & Henc & _ & -> & ->)].
  - assert (Hm : m <> "base64_only").
    { destruct (compress_encode_method _ _ _ _ _ _ _ _ Henc) as [[Hin ->] | [_ ->]];
        [| discriminate].
      intros Hbad. rewrite Hbad in Hin.
      unfold dispatched_names in Hin. cbn [In] in Hin.
      intuition discriminate. }
    split; [split |]; try (intros; contradiction).
    intros (e & w0 & Hraise). rewrite Hraise in Henc. discriminate.
  - split; [split; [intros _; eauto | reflexivity] |].
    intros _. split; [reflexivity |].
    unfold decompress_data. cbn [meta_method]. reflexivity.
Qed.

Lemma base64_only_means_fallback_witness :
  exists s md w',
    compress_data stub_env [xff] "base91" 6 new_engine = (Ok (s, md), w')
    /\ meta_method md = "base64_only"
    /\ s = b64encode stub_env [xff]
    /\ decompress_data stub_env s md = Ok [xff].
Proof.
  destruct (compress_data stub_env [xff] "base91" 6 new_engine)
    as [[[s md] | e] w'] eqn:E; [| vm_compute in E; discriminate].
  exists s, md, w'. split; [reflexivity |].
  destruct (base64_only_means_fallback stub_env [xff] "base91" 6 new_engine s md w' E)
    as [_ Hfb].
  assert (Hm : meta_method md = "base64_only")
    by (vm_compute in E; injection E as _ <- _; reflexivity).
  destruct (Hfb Hm) as [Hs Hd].
  split; [exact Hm |]. split; [exact Hs |]. rewrite Hd. reflexivity.
Defined.

(** X6: asking for ['zstd_base64'] without the zstandard module: the encoder
    silently uses [_brotli_then_base64], the metadata still says
    ['zstd_base64'], and [decompress_data] raises on what was returned. *)
Theorem zstd_request_without_zstd env data level w s md w' :
  ZSTD_SUPPORT env = false ->
  compress_data env data "zstd_base64" level w = (Ok (s, md), w') ->
  (meta_method md = "zstd_base64"
   /\ _brotli_then_base64 env data level = Ok s
   /\ raises (decompress_data env s md))
  \/ (meta_method md = "base64_only" /\ s = b64encode env data).
Proof.
  intros Hz Hret.
  destruct (compress_data_returned _ _ _ _ _ _ _ _ Hret) as (m & w1 & Hatt & Hne & -> & _).
  cbn [meta_method].
  change (resolve_method env data "zstd_base64") with "zstd_base64" in Hatt.
  destruct (compress_attempt_cases _ _ _ _ _ _ _ _ Hatt)
    as [Henc | (e & w0 & _ & _ & -> & ->)]; [| right; split; reflexivity].
  left.
  change (compress_encode env data "zstd_base64" level)
    with (lift (_zstd_then_base64 env data level)
          ≫= fun c => (mret (c, "zstd_base64") : eng (string * string))) in Henc.
  rewrite eng_bind_eq in Henc. unfold lift, _zstd_then_base64 in Henc.
  rewrite Hz in Henc. cbn [negb] in Henc.
  destruct (_brotli_then_base64 env data level) as [c | e]; [| discriminate].
  unfold mret, eng_ret in Henc. injection Henc as <- <- <-.
  split; [reflexivity |]. split; [reflexivity |].
  unfold decompress_data. cbn [meta_method].
  change (decompress_method env c "zstd_base64")
    with (_base64_then_zstd_decompress env c).
  unfold _base64_then_zstd_decompress. rewrite Hz.
  destruct (b64decode env c) as [z | e]; eexists; reflexivity.
Qed.

Lemma zstd_request_without_zstd_witness :
  ZSTD_SUPPORT stub_env = false
  /\ exists s md w',
       compress_data stub_env hello "zstd_base64" 6 new_engine = (Ok (s, md), w')
       /\ meta_method md = "zstd_base64"
       /\ raises (decompress_data stub_env s md).
Proof.
  split; [reflexivity |].
  destruct (compress_data stub_env hello "zstd_base64" 6 new_engine)
    as [[[s md] | e] w'] eqn:E; [| vm_compute in E; discriminate].
  exists s, md, w'. split; [reflexivity |].
  assert (Hm : meta_method md = "zstd_base64")
    by (vm_compute in E; injection E as _ <- _; reflexivity).
  destruct (zstd_request_without_zstd stub_env hello 6 new_engine s md w' eq_refl E)
    as [(_ & _ & Hr) | [Hbad _]].
  - split; [exact Hm | exact Hr].
  - rewrite Hm in Hbad. discriminate.
Defined.

(** X7: asking for ['lz4_base64'] without the lz4 module: the encoder
    silently uses gzip at level 1, the metadata still says ['lz4_base64'], and
    [decompress_data] raises on what was returned. *)
Theorem lz4_request_without_lz4 env data level w s md w' :
  LZ4_SUPPORT env = false ->
  compress_data env data "lz4_base64" level w = (Ok (s, md), w') ->
  (meta_method md = "lz4_base64"
   /\ _gzip_then_base64 env data 1 = Ok s
   /\ raises (decompress_data env s md))
  \/ (meta_method md = "base64_only" /\ s = b64encode env data).
Proof.
  intros Hz Hret.
  destruct (compress_data_returned _ _ _ _ _ _ _ _ Hret) as (m & w1 & Hatt & Hne & -> & _).
  cbn [meta_method].
  change (resolve_method env data "lz4_base64") with "lz4_base64" in Hatt.
  destruct (compress_attempt_cases _ _ _ _ _ _ _ _ Hatt)
    as [Henc | (e & w0 & _ & _ & -> & ->)]; [| right; split; reflexivity].
  left.
  change (compress_encode env data "lz4_base64" level)
    with (lift (_lz4_then_base64 env data)
          ≫= fun c => (mret (c, "lz4_base64") : eng (string * string))) in Henc.
  rewrite eng_bind_eq in Henc. unfold lift, _lz4_then_base64 in Henc.
  rewrite Hz in Henc. cbn [negb] in Henc.
  destruct (_gzip_then_base64 env data 1) as [c | e]; [| discriminate].
  unfold mret, eng_ret in Henc. injection Henc as <- <- <-.
  split; [reflexivity |]. split; [reflexivity |].
  unfold decompress_data. cbn [meta_method].
  change (decompress_method env c "lz4_base64")
    with (_base64_then_lz4_decompress env c).
  unfold _base64_then_lz4_decompress. rewrite Hz.
  destruct (b64decode env c) as [z | e]; eexists; reflexivity.
Qed.

Lemma lz4_request_without_lz4_witness :
  LZ4_SUPPORT stub_env = false
  /\ exists s md w',
       compress_data stub_env hello "lz4_base64" 6 new_engine = (Ok (s, md), w')
       /\ meta_method md = "lz4_base64"
       /\ raises (decompress_data stub_env s md).
Proof.
  split; [reflexivity |].
  destruct (compress_data stub_env hello "lz4_base64" 6 new_engine)
    as [[[s md] | e] w'] eqn:E; [| vm_compute in E; discriminate].
  exists s, md, w'. split; [reflexivity |].
  assert (Hm : meta_method md = "lz4_base64")
    by (vm_compute in E; injection E as _ <- _; reflexivity).
  destruct (lz4_request_without_lz4 stub_env hello 6 new_engine s md w' eq_refl E)
    as [(_ & _ & Hr) | [Hbad _]].
  - split; [exact Hm | exact Hr].
  - rewrite Hm in Hbad. discriminate.
Defined.

(** ** The method selector *)

(** X8: [determine_optimal_method] only names methods that [available_methods] marks as
    available: it offers zstd, brotli and lz4 only when they are there. *)
Theorem selector_offers_available (env : Env) (data : bytes) (file_type : string) :
  available env (determine_optimal_method env data file_type) = true.
Proof.
  unfold determine_optimal_method.
  destruct (10 * 1024 * 1024 <? len data); [reflexivity |].
  destruct (bool_decide (file_type ∈ ["image"; "video"; "audio"]) && (100 * 1024 <? len data));
    [reflexivity |].
  destruct (bool_decide (file_type ∈ ["pdf"; "text"; "json"; "xml"])).
  - destruct (ZSTD_SUPPORT env) eqn:Hz; cbn [andb].
    + destruct (1024 * 1024 <? len data); [exact Hz |].
      destruct (available env "brotli_base64") eqn:Hb; [exact Hb | reflexivity].
    + destruct (available env "brotli_base64") eqn:Hb; [exact Hb | reflexivity].
  - destruct (len data <? 100 * 1024).
    + destruct (LZ4_SUPPORT env) eqn:Hl; [exact Hl | reflexivity].
    + destruct (len data <? 1024 * 1024); reflexivity.
Qed.

(** ** Round trips through the public interface *)

(** X9: with ['z85'] the public pair round-trips every payload of at least one
    byte, in every environment: [compress_data] returns, names the method
    ['z85'], and [decompress_data] gives the payload back. *)
Theorem z85_compress_decompress env data level w :
  data <> [] ->
  exists s md w',
    compress_data env data "z85" level w = (Ok (s, md), w')
    /\ meta_method md = "z85"
    /\ decompress_data env s md = Ok data.
Proof.
  intros Hne.
  destruct (compress_data_cases env data "z85" level w) as (c & m & w1 & Hatt & _ & _ & H).
  destruct (z85_round_trip data) as (s & Henc & Hdec).
  change (resolve_method env data "z85") with "z85" in Hatt.
  unfold compress_attempt, try_except in Hatt.
  change (compress_encode env data "z85" level)
    with (lift (_encode_z85 data)
          ≫= fun c => (mret (c, "z85") : eng (string * string))) in Hatt.
  rewrite eng_bind_eq in Hatt. unfold lift in Hatt. rewrite Henc in Hatt.
  unfold mret, eng_ret in Hatt. injection Hatt as <- <- <-.
  destruct data as [| b data']; [contradiction |].
  destruct H as (md & st' & Heq & Hm & _).
  eexists s, md, _. split; [exact Heq |]. split; [exact Hm |].
  unfold decompress_data. rewrite Hm. exact Hdec.
Qed.

Lemma z85_compress_decompress_witness :
  hello <> []
  /\ exists s md w',
       compress_data stub_env hello "z85" 6 new_engine = (Ok (s, md), w')
       /\ meta_method md = "z85"
       /\ decompress_data stub_env s md = Ok hello.
Proof.
  assert (Hne : hello <> []) by discriminate.
  split; [exact Hne |].
  exact (z85_compress_decompress stub_env hello 6 new_engine Hne).
Defined.

Section LibrariesInvert.
Variable env : Env.
Hypothesis b64_inverse : forall d, b64decode env (b64encode env d) = Ok d.
Hypothesis gzip_inverse :
  forall d level c, gzip_compress env d level = Ok c -> gzip_decompress env c = Ok d.
Hypothesis zlib_inverse :
  forall d level c, zlib_compress env d level = Ok c -> zlib_decompress env c = Ok d.
Hypothesis brotli_inverse :
  forall d level c, brotli_compress env d level = Ok c -> brotli_decompress env c = Ok d.
Hypothesis lz4_inverse :
  forall d c, lz4_compress env d = Ok c -> lz4_decompress env c = Ok d.
Hypothesis zstd_inverse :
  forall d level c, zstd_compress env d level = Ok c -> zstd_decompress env c = Ok d.

(** X10: provided the libraries invert their own output: whenever [compress_data]
    returns for such a request, also after falling back to plain Base64,
    [decompress_data] on the returned string and metadata gives the payload
    back. *)
Theorem backend_compress_decompress data method level w s md w' :
  served_faithfully env method ->
  compress_data env data method level w = (Ok (s, md), w') ->
  decompress_data env s md = Ok data.
Proof using All.
  intros Hserved Hret.
  destruct (compress_data_returned _ _ _ _ _ _ _ _ Hret) as (m & w1 & Hatt & Hne & -> & _).
  unfold decompress_data. cbn [meta_method].
  assert (Hres : resolve_method env data method = method).
  { unfold resolve_method.
    destruct (String.eqb_spec method "auto") as [-> | _]; [| reflexivity].
    exfalso. unfold served_faithfully in Hserved.
    intuition (try discriminate; try congruence). }
  rewrite Hres in Hatt.
  destruct (compress_attempt_cases _ _ _ _ _ _ _ _ Hatt)
    as [Henc | (e & w0 & _ & _ & -> & ->)]; [| apply b64_inverse].
  assert (Hgzip : forall lvl c0 m0 w0 w2,
             (lift (_gzip_then_base64 env data lvl)
              ≫= fun c => (mret (c, "gzip_base64") : eng (string * string))) w0
             = (Ok (c0, m0), w2) ->
             decompress_method env c0 m0 = Ok data).
  { intros lvl c0 m0 w0 w2 H. rewrite eng_bind_eq in H. unfold lift in H.
    destruct (_gzip_then_base64 env data lvl) as [c |] eqn:Hc; [| discriminate].
    unfold mret, eng_ret in H. injection H as <- <- <-.
    exact (gzip_pipeline_round_trip env b64_inverse gzip_inverse data lvl c Hc). }
  destruct Hserved as [-> | [-> | [-> | [[-> Hb] | [[-> Hl] | [[-> Hz] | [Hunk _]]]]]]].
  - exact (Hgzip _ _ _ _ _ Henc).
  - change (compress_encode env data "deflate_base64" level)
      with (lift (_deflate_then_base64 env data level)
            ≫= fun c => (mret (c, "deflate_base64") : eng (string * string))) in Henc.
    rewrite eng_bind_eq in Henc. unfold lift in Henc.
    destruct (_deflate_then_base64 env data level) as [c |] eqn:Hc; [| discriminate].
    unfold mret, eng_ret in Henc. injection Henc as <- <- <-.
    exact (deflate_pipeline_round_trip env b64_inverse zlib_inverse data level c Hc).
  - change (compress_encode env data "z85" level)
      with (lift (_encode_z85 data)
            ≫= fun c => (mret (c, "z85") : eng (string * string))) in Henc.
    rewrite eng_bind_eq in Henc. unfold lift in Henc.
    destruct (z85_round_trip data) as (s0 & He & Hd). rewrite He in Henc.
    unfold mret, eng_ret in Henc. injection Henc as <- <- <-. exact Hd.
  - change (compress_encode env data "brotli_base64" level)
      with (lift (_brotli_then_base64 env data level)
            ≫= fun c => (mret (c, "brotli_base64") : eng (string * string))) in Henc.
    rewrite eng_bind_eq in Henc. unfold lift, _brotli_then_base64 in Henc.
    rewrite Hb in Henc. cbn [negb] in Henc.
    destruct (brotli_compress env data level) as [z |] eqn:Hc; [| discriminate].
    cbn [mbind result_bind] in Henc.
    unfold mret, eng_ret in Henc. injection Henc as <- <- <-.
    change (decompress_method env (b64encode env z) "brotli_base64")
      with (_base64_then_brotli_decompress env (b64encode env z)).
    unfold _base64_then_brotli_decompress. rewrite b64_inverse.
    cbn [mbind result_bind]. exact (brotli_inverse _ _ _ Hc).
  - change (compress_encode env data "lz4_base64" level)
      with (lift (_lz4_then_base64 env data)
            ≫= fun c => (mret (c, "lz4_base64") : eng (string * string))) in Henc.
    rewrite eng_bind_eq in Henc. unfold lift, _lz4_then_base64 in Henc.
    rewrite Hl in Henc. cbn [negb] in Henc.
    destruct (lz4_compress env data) as [z |] eqn:Hc; [| discriminate].
    cbn [mbind result_bind] in Henc.
    unfold mret, eng_ret in Henc. injection Henc as <- <- <-.
    change (decompress_method env (b64encode env z) "lz4_base64")
      with (_base64_then_lz4_decompress env (b64encode env z)).
    unfold _base64_then_lz4_decompress. rewrite b64_inverse, Hl.
    cbn [mbind result_bind]. exact (lz4_inverse _ _ Hc).
  - change (compress_encode env data "zstd_base64" level)
      with (lift (_zstd_then_base64 env data level)
            ≫= fun c => (mret (c, "zstd_base64") : eng (string * string))) in Henc.
    rewrite eng_bind_eq in Henc. unfold lift, _zstd_then_base64 in Henc.
    rewrite Hz in Henc. cbn [negb] in Henc.
    destruct (zstd_compress env data level) as [z |] eqn:Hc; [| discriminate].
    cbn [mbind result_bind] in Henc.
    unfold mret, eng_ret in Henc. injection Henc as <- <- <-.
    change (decompress_method env (b64encode env z) "zstd_base64")
      with (_base64_then_zstd_decompress env (b64encode env z)).
    unfold _base64_then_zstd_decompress. rewrite b64_inverse, Hz.
    cbn [mbind result_bind]. exact (zstd_inverse _ _ _ Hc).
  - rewrite (compress_encode_unknown env data method level Hunk) in Henc.
    exact (Hgzip _ _ _ _ _ Henc).
Qed.
End LibrariesInvert.

Lemma backend_compress_decompress_witness :
  served_faithfully stub_env "deflate_base64"
  /\ exists s md w',
       compress_data stub_env hello "deflate_base64" 6 new_engine = (Ok (s, md), w')
       /\ decompress_data stub_env s md = Ok hello.
Proof.
  assert (Hs : served_faithfully stub_env "deflate_base64")
    by (unfold served_faithfully; tauto).
  split; [exact Hs |].
  destruct (compress_data stub_env hello "deflate_base64" 6 new_engine)
    as [[[s md] | e] w'] eqn:E; [| vm_compute in E; discriminate].
  exists s, md, w'. split; [reflexivity |].
  apply (backend_compress_decompress stub_env) with (method := "deflate_base64")
    (level := 6) (w := new_engine) (w' := w'); try exact Hs; try exact E.
  - intros d. simpl. f_equal. apply list_byte_of_string_of_list_byte.
  - intros d level c H. simpl in *. congruence.
  - intros d level c H. simpl in *. congruence.
  - intros d level c H. simpl in *. congruence.
  - intros d c H. simpl in *. congruence.
  - intros d level c H. simpl in *. congruence.
Defined.

(** ** The statistics aggregator and the report *)

Lemma dict_get_None_keys (d : dict) (k : string) :
  dict_get d k = None <-> ~ In k (map fst d).
Proof.
  induction d as [| [k' v'] d IH]; cbn [dict_get map fst In]; [tauto |].
  destruct (String.eqb_spec k' k) as [-> | Hne].
  - split; [discriminate | tauto].
  - rewrite IH. tauto.
Qed.

Lemma dict_get_Some_In (d : dict) (k : string) (v : Z) :
  dict_get d k = Some v -> In (k, v) d.
Proof.
  induction d as [| [k' v'] d IH]; cbn [dict_get In]; [discriminate |].
  destruct (String.eqb_spec k' k) as [-> | Hne].
  - intros [= ->]. left. reflexivity.
  - intros H. right. exact (IH H).
Qed.

Lemma dict_set_total (d : dict) (k : string) (v : Z) :
  usage_total (dict_set d k v) = usage_total d - default 0 (dict_get d k) + v.
Proof.
  induction d as [| [k' v'] d IH]; cbn [dict_set dict_get].
  - unfold usage_total. simpl. lia.
  - destruct (String.eqb_spec k' k) as [-> | Hne].
    + unfold usage_total. simpl. lia.
    + change (usage_total ((k', v') :: dict_set d k v))
        with (v' + usage_total (dict_set d k v)).
      change (usage_total ((k', v') :: d)) with (v' + usage_total d).
      rewrite IH. lia.
Qed.

Lemma dict_set_keys (d : dict) (k : string) (v : Z) :
  map fst (dict_set d k v)
  = match dict_get d k with
    | Some _ => map fst d
    | None => map fst d ++ [k]
    end.
Proof.
  induction d as [| [k' v'] d IH]; cbn [dict_set dict_get map fst app]; [reflexivity |].
  destruct (String.eqb_spec k' k) as [-> | Hne]; cbn [map fst]; [reflexivity |].
  rewrite IH. destruct (dict_get d k); reflexivity.
Qed.

Lemma dict_set_Forall (P : string * Z -> Prop) (d : dict) (k : string) (v : Z) :
  Forall P d -> P (k, v) -> Forall P (dict_set d k v).
Proof.
  intros Hd Hk. induction Hd as [| [k' v'] d Hp Hd IH]; cbn [dict_set].
  - constructor; [exact Hk | constructor].
  - destruct (String.eqb_spec k' k) as [-> | Hne]; constructor; assumption.
Qed.

Lemma dict_set_set (d : dict) (k : string) (a b : Z) :
  dict_set (dict_set d k a) k b = dict_set d k b.
Proof.
  induction d as [| [k' v'] d IH]; cbn [dict_set].
  - rewrite String.eqb_refl. reflexivity.
  - destruct (String.eqb_spec k' k) as [-> | Hne]; cbn [dict_set].
    + rewrite String.eqb_refl. reflexivity.
    + destruct (String.eqb_spec k' k); [contradiction |]. rewrite IH. reflexivity.
Qed.

(** One call of [_update_stats] with a codec name keeps the statistics
    consistent. *)
Lemma _update_stats_consistent method original_size compressed_size processing_time w w' :
  In method codec_names ->
  stats_consistent (compression_stats w) ->
  _update_stats method original_size compressed_size processing_time w = (Ok tt, w') ->
  stats_consistent (compression_stats w').
Proof.
  intros Hname (Htot & Hnd & Hall). unfold _update_stats.
  destruct (dict_get (method_usage (compression_stats w)) method) as [n |] eqn:Hget.
  - rewrite Hget. intros [= <-]. unfold stats_consistent. cbn [compression_stats
      files_processed method_usage].
    split; [| split].
    + rewrite dict_set_total, Hget. simpl. lia.
    + rewrite dict_set_keys, Hget. exact Hnd.
    + apply dict_set_Forall; [exact Hall |]. cbn [fst snd]. split; [exact Hname |].
      apply dict_get_Some_In, list_elem_of_In in Hget.
      apply (proj1 (Forall_forall _ _) Hall) in Hget. cbn [snd] in Hget. lia.
  - rewrite dict_get_set_eq, dict_set_set. intros [= <-].
    unfold stats_consistent. cbn [compression_stats files_processed method_usage].
    split; [| split].
    + rewrite dict_set_total, Hget. simpl. lia.
    + rewrite dict_set_keys, Hget.
      apply NoDup_app. split; [exact Hnd |]. split.
      * intros x Hx Hx'. apply list_elem_of_In in Hx, Hx'.
        cbn [In] in Hx'. destruct Hx' as [<- | []].
        apply dict_get_None_keys in Hget. contradiction.
      * apply NoDup_singleton.
    + apply dict_set_Forall; [exact Hall |]. cbn [fst snd]. split; [exact Hname | lia].
Qed.

Lemma compress_attempt_codec_name env data method level w c m w1 :
  compress_attempt env data method level w = (Ok (c, m), w1) -> In m codec_names.
Proof.
  intros Hatt.
  destruct (compress_attempt_cases _ _ _ _ _ _ _ _ Hatt) as [Henc | (e & w0 & _ & _ & _ & ->)].
  - destruct (compress_encode_method _ _ _ _ _ _ _ _ Henc) as [[Hin ->] | [_ ->]].
    + unfold dispatched_names, codec_names in *. cbn [In] in *. tauto.
    + cbn. tauto.
  - cbn. tauto.
Qed.

Lemma run_call_consistent (env : Env) (c : call) (w : Engine) :
  stats_consistent (compression_stats w) ->
  stats_consistent (compression_stats (run_call env c w).2).
Proof.
  intros Hinv. pose proof (run_call_stats env c w) as H.
  destruct c as [data method level | s md | data file_type |];
    try (rewrite H; exact Hinv).
  destruct (compress_data env data method level w) as [[[s md] | e] w'] eqn:Hret.
  - destruct H as (-> & _). cbn [snd].
    destruct (compress_data_returned _ _ _ _ _ _ _ _ Hret) as (m & w1 & Hatt & _ & _ & Hup).
    destruct (compress_attempt_preserving env data (resolve_method env data method) level
                (tick w)) as [Hs _].
    rewrite Hatt in Hs. cbn [snd] in Hs.
    eapply _update_stats_consistent; [| | exact Hup].
    + eapply compress_attempt_codec_name, Hatt.
    + cbn [tick compression_stats]. rewrite Hs. exact Hinv.
  - destruct H as (-> & Hs). cbn [snd]. rewrite Hs. exact Hinv.
Qed.

(** X11: on an engine instance, after any run of calls: the usage counts add up
    to [files_processed], the usage dict has one entry per method, each for a
    codec name and with a count of at least one. *)
Theorem reachable_stats_consistent (env : Env) (calls : list call) :
  let st := compression_stats (run_calls env calls new_engine) in
  usage_total (method_usage st) = files_processed st
  /\ NoDup (map fst (method_usage st))
  /\ Forall (fun p => In p.1 codec_names /\ 1 <= p.2) (method_usage st).
Proof.
  assert (Hgen : forall w, stats_consistent (compression_stats w) ->
                           stats_consistent (compression_stats (run_calls env calls w))).
  { induction calls as [| c cs IH]; intros w Hinv; cbn [run_calls]; [exact Hinv |].
    apply IH, run_call_consistent, Hinv. }
  apply Hgen. unfold stats_consistent. cbn.
  split; [reflexivity |]. split; constructor.
Qed.

Lemma Qabs_div_le (a b : Z) :
  b <> 0 -> (Qabs (inject_Z a / inject_Z b) <= inject_Z (Z.abs a))%Q.
Proof.
  intros Hb.
  assert (Habs : forall z, Qabs (inject_Z z) = inject_Z (Z.abs z)) by reflexivity.
  assert (Hb1 : (1 <= Qabs (inject_Z b))%Q).
  { rewrite Habs. change 1%Q with (inject_Z 1). rewrite <- Zle_Qle. lia. }
  assert (Hbp : (0 < Qabs (inject_Z b))%Q)
    by (apply Qlt_le_trans with 1%Q; [reflexivity | exact Hb1]).
  unfold Qdiv. rewrite Qabs_Qmult, Qabs_Qinv, (Habs a).
  apply Qle_shift_div_r; [exact Hbp |].
  apply Qle_trans with (1 * inject_Z (Z.abs a))%Q; [rewrite Qmult_1_l; apply Qle_refl |].
  rewrite (Qmult_comm (inject_Z (Z.abs a))).
  apply Qmult_le_compat_r; [exact Hb1 |].
  change 0%Q with (inject_Z 0). rewrite <- Zle_Qle. lia.
Qed.

(** [a / b] on integers returns when the dividend is below [2 ^ 1023]. *)
Lemma int_truediv_float_Ok (a b k : Z) :
  b <> 0 -> 0 <= k <= 1023 -> Z.abs a <= 2 ^ k ->
  int_truediv_float a b = Ok (Finite (fround (inject_Z a / inject_Z b))).
Proof.
  intros Hb Hk Ha. unfold int_truediv_float.
  destruct (Z.eqb_spec b 0); [contradiction |].
  destruct (round_float_finite (inject_Z a / inject_Z b) k ltac:(lia)) as [-> _];
    [| reflexivity].
  apply Qle_trans with (inject_Z (Z.abs a)); [apply Qabs_div_le; exact Hb |].
  rewrite pow2_nonneg_Z by lia. rewrite <- Zle_Qle. exact Ha.
Qed.

(** A float division returns unless the divisor is zero. *)
Lemma float_truediv_Ok (a b : float) :
  (forall y, b = Finite y -> ~ (y == 0)%Q) -> exists c, float_truediv a b = Ok c.
Proof.
  intros Hb. destruct b as [y | s |]; cbn [float_truediv]; [| eexists; reflexivity ..].
  destruct (Qeq_bool y 0) eqn:E; [| eexists; reflexivity].
  apply Qeq_bool_iff in E. exfalso. exact (Hb y eq_refl E).
Qed.

(** [total / 1000]: zero up to [1000 * 2 ^ -1075], and only there. *)
Lemma seconds_of_total (total : Q) :
  exists seconds,
    float_truediv (Finite total) (Finite 1000) = Ok seconds
    /\ ((Qabs total <= 1000 * pow2 (-1075))%Q ->
        exists y, seconds = Finite y /\ (y == 0)%Q)
    /\ ((1000 * pow2 (-1075) < Qabs total)%Q ->
        forall y, seconds = Finite y -> ~ (y == 0)%Q).
Proof.
  exists (round_float (total / 1000)). split; [reflexivity |].
  assert (Habs : (Qabs (total / 1000) == Qabs total / 1000)%Q).
  { unfold Qdiv. rewrite Qabs_Qmult. reflexivity. }
  split.
  - intros Hsmall.
    assert (Hz : (fround (total / 1000) == 0)%Q).
    { apply fround_zero_iff. rewrite Habs.
      apply Qle_shift_div_r; [reflexivity |]. rewrite Qmult_comm. exact Hsmall. }
    exists (fround (total / 1000)). split; [| exact Hz].
    unfold round_float.
    destruct (Qle_bool (pow2 1024) (Qabs (fround (total / 1000)))) eqn:E; [| reflexivity].
    apply Qle_bool_iff in E. rewrite Hz in E. exfalso. revert E.
    unfold Qle. vm_compute. intros H. apply H. reflexivity.
  - intros Hbig y Hy Hzero.
    destruct (round_float_cases (total / 1000)) as [[Hr _] | [Hr _]];
      rewrite Hr in Hy; [| discriminate].
    injection Hy as <-. apply fround_zero_iff in Hzero. rewrite Habs in Hzero.
    apply (Qlt_irrefl (Qabs total)).
    apply Qle_lt_trans with (1000 * pow2 (-1075))%Q; [| exact Hbig].
    apply (Qmult_le_compat_r _ _ 1000) in Hzero; [| discriminate].
    assert (E : (Qabs total / 1000 * 1000 == Qabs total)%Q) by field.
    rewrite E in Hzero. rewrite Qmult_comm. exact Hzero.
Qed.

(** [int(size * 1.33)] is at least 1 for a size from 1 up to [2 ^ 63]. *)
Lemma base64_size_float (n : Z) :
  0 < n <= 2 ^ 63 ->
  exists x b,
    float_of_int n = Ok (Finite x)
    /\ int_of_float64 (float_mul (Finite x) float_1_33) = Ok b
    /\ 1 <= b.
Proof.
  intros Hn.
  destruct (float_of_int_range n 0 63 ltac:(lia) ltac:(lia) ltac:(lia))
    as (x & Hx & Hlo & Hhi).
  change (pow2 0) with 1%Q in Hlo.
  exists x. rewrite float_1_33_eq. cbn [float_mul].
  set (c := (748723438050345 # 562949953421312)%Q).
  assert (Hc1 : (1 <= c)%Q) by (unfold Qle; vm_compute; discriminate).
  assert (Hc2 : (c <= 2)%Q) by (unfold Qle; vm_compute; discriminate).
  assert (Hx0 : (0 <= x)%Q) by (apply Qle_trans with 1%Q; [discriminate | exact Hlo]).
  assert (Hlow : (1 <= x * c)%Q).
  { apply Qle_trans with (1 * c)%Q; [rewrite Qmult_1_l; exact Hc1 |].
    apply Qmult_le_compat_r; [exact Hlo |].
    apply Qle_trans with 1%Q; [discriminate | exact Hc1]. }
  assert (Hup : (Qabs (x * c) <= pow2 64)%Q).
  { rewrite Qabs_pos by (apply Qle_trans with 1%Q; [discriminate | exact Hlow]).
    apply Qle_trans with (pow2 63 * 2)%Q.
    - apply Qle_trans with (x * 2)%Q.
      + rewrite (Qmult_comm x c), (Qmult_comm x 2).
        apply Qmult_le_compat_r; [exact Hc2 | exact Hx0].
      + apply Qmult_le_compat_r; [exact Hhi | discriminate].
    - unfold Qle. vm_compute. discriminate. }
  destruct (round_float_finite (x * c) 64 ltac:(lia) Hup) as [-> _].
  pose proof (fround_ge_pow2 (x * c) 0 ltac:(lia) Hlow) as Hr.
  change (pow2 0) with 1%Q in Hr.
  exists (Qfloor (fround (x * c))). split; [exact Hx |]. split.
  - cbn [int_of_float64].
    assert (Hnn : Qle_bool 0 (fround (x * c)) = true).
    { apply Qle_bool_iff. apply Qle_trans with 1%Q; [discriminate | exact Hr]. }
    rewrite Hnn. reflexivity.
  - rewrite <- (Qfloor_Z 1). apply Qfloor_resp_le. exact Hr.
Qed.

(** X12: [get_compression_report] on statistics without processed bytes
    returns the bare copy.  With processed bytes it raises whenever the total
    of the measured times divided by 1000 is the float zero, that is when the
    total is at most [1000 * 2 ^ -1075] in magnitude, a zero total included;
    with sizes below [2 ^ 63] the exception is [ZeroDivisionError].  For a
    total beyond that bound and sizes below [2 ^ 63] it returns the statistics
    with the bytes saved, the overall ratio [1 - compressed / original] in
    float arithmetic, and the most used method, which is present exactly when
    the usage dict is not empty. *)
Theorem get_compression_report_cases (st : Stats) :
  (total_original_size st <= 0 -> get_compression_report st = Ok (inl st))
  /\ (0 < total_original_size st ->
      (Qabs (total_processing_time st) <= 1000 * pow2 (-1075))%Q ->
      raises (get_compression_report st)
      /\ (total_original_size st < 2 ^ 63 ->
          Z.abs (total_compressed_size st) < 2 ^ 63 ->
          get_compression_report st = Raise ZeroDivisionError))
  /\ (0 < total_original_size st < 2 ^ 63 ->
      Z.abs (total_compressed_size st) < 2 ^ 63 ->
      (1000 * pow2 (-1075) < Qabs (total_processing_time st))%Q ->
      exists r,
        get_compression_report st = Ok (inr r)
        /\ report_stats r = st
        /\ space_saved_bytes r = total_original_size st - total_compressed_size st
        /\ overall_compression_ratio r
           = float_sub (Finite 1)
               (round_float (inject_Z (total_compressed_size st)
                             / inject_Z (total_original_size st)))
        /\ (most_used_method r = None <-> method_usage st = [])).
Proof.
  unfold get_compression_report.
  destruct (seconds_of_total (total_processing_time st)) as (seconds & Hsec & Hzero & Hnz).
  split; [| split].
  - intros Hle. destruct (Z.ltb_spec 0 (total_original_size st)); [lia | reflexivity].
  - intros Hpos Hsmall.
    destruct (Z.ltb_spec 0 (total_original_size st)); [| lia].
    destruct (Hzero Hsmall) as (y & -> & Hy).
    assert (Hdiv : forall a, float_truediv a (Finite y) = Raise ZeroDivisionError).
    { intros a. cbn [float_truediv]. apply Qeq_bool_iff in Hy. rewrite Hy. reflexivity. }
    split.
    + repeat match goal with
             | |- raises (?x ≫= _) =>
               lazymatch x with
               | int_truediv_float _ _ => idtac
               | float_of_int _ => idtac
               | int_of_float64 _ => idtac
               end;
               destruct x; [cbn [mbind result_bind] | eexists; reflexivity]
             end.
      rewrite Hsec. cbn [mbind result_bind].
      rewrite Hdiv. eexists. reflexivity.
    + intros Ho Hc.
      rewrite (int_truediv_float_Ok (total_compressed_size st) (total_original_size st) 63)
        by lia.
      cbn [mbind result_bind].
      destruct (base64_size_float (total_original_size st) ltac:(lia))
        as (x & b & Hx & Hb & Hb1).
      rewrite Hx. cbn [mbind result_bind]. rewrite Hb. cbn [mbind result_bind].
      rewrite (int_truediv_float_Ok (total_compressed_size st) b 63) by lia.
      cbn [mbind result_bind]. rewrite Hsec. cbn [mbind result_bind]. rewrite Hdiv. reflexivity.
  - intros Ho Hc Hbig.
    destruct (Z.ltb_spec 0 (total_original_size st)); [| lia].
    assert (Hratio : round_float (inject_Z (total_compressed_size st)
                                  / inject_Z (total_original_size st))
                     = Finite (fround (inject_Z (total_compressed_size st)
                                       / inject_Z (total_original_size st)))).
    { apply (round_float_finite _ 63 ltac:(lia)).
      apply Qle_trans with (inject_Z (Z.abs (total_compressed_size st)));
        [apply Qabs_div_le; lia |].
      rewrite pow2_nonneg_Z by lia. rewrite <- Zle_Qle. lia. }
    rewrite (int_truediv_float_Ok (total_compressed_size st) (total_original_size st) 63)
      by lia.
    cbn [mbind result_bind].
    destruct (base64_size_float (total_original_size st) ltac:(lia))
      as (x & b & Hx & Hb & Hb1).
    rewrite Hx. cbn [mbind result_bind]. rewrite Hb. cbn [mbind result_bind].
    rewrite (int_truediv_float_Ok (total_compressed_size st) b 63) by lia.
    cbn [mbind result_bind]. rewrite Hsec. cbn [mbind result_bind].
    destruct (float_truediv_Ok (Finite x) seconds (Hnz Hbig)) as [t ->].
    cbn [mbind result_bind].
    destruct (float_truediv_Ok t (Finite (inject_Z (1024 * 1024)))) as [speed ->].
    { intros y [= <-]. discriminate. }
    cbn [mbind result_bind].
    rewrite (int_truediv_float_Ok
               (total_original_size st - total_compressed_size st) (1024 * 1024) 64) by lia.
    cbn [mbind result_bind].
    rewrite Hratio.
    destruct (method_usage st) as [| p usage] eqn:Hu.
    + cbn [mbind result_bind]. eexists. split; [reflexivity |].
      cbn [report_stats space_saved_bytes overall_compression_ratio most_used_method].
      repeat split; try reflexivity; discriminate.
    + cbn [map py_max mbind result_bind]. eexists. split; [reflexivity |].
      cbn [report_stats space_saved_bytes overall_compression_ratio most_used_method].
      repeat split; try reflexivity; discriminate.
Qed.

(** The smallest positive float as total of the measured times: divided by
    1000 it is the float zero, and the report raises. *)
Lemma report_raises_on_underflow :
  get_compression_report
    {| files_processed := 1; total_original_size := 13; total_compressed_size := 26;
       total_processing_time := pow2 (-1074); method_usage := [("z85", 1)] |}
  = Raise ZeroDivisionError.
Proof. vm_compute. reflexivity. Qed.

(** [max] over integer keys: the first of the items with the greatest key. *)
Lemma max_go_first_best_Z {A} (f : A -> Z) (l : list A) :
  forall best,
  exists i,
    (best :: l) !! i = Some (max_go (fun a b => b <? a) f best l)
    /\ forall j c, (best :: l) !! j = Some c ->
                   f c <= f (max_go (fun a b => b <? a) f best l)
                   /\ ((j < i)%nat -> f c < f (max_go (fun a b => b <? a) f best l)).
Proof.
  induction l as [| x l IH]; intros best.
  - exists 0%nat. cbn [max_go]. split; [reflexivity |].
    intros [| j] c Hc; [| discriminate]. injection Hc as <-. split; [lia | intros ?; lia].
  - cbn [max_go]. destruct (Z.ltb_spec (f best) (f x)) as [Hgt | Hle].
    + destruct (IH x) as (i & Hi & Hall).
      exists (S i). split; [exact Hi |].
      destruct (Hall 0%nat x eq_refl) as [Hx _].
      intros [| j] c Hc.
      * injection Hc as <-. split; [lia | intros ?; lia].
      * destruct (Hall j c Hc) as [H1 H2]. split; [exact H1 |].
        intros Hj. apply H2. lia.
    + destruct (IH best) as (i & Hi & Hall).
      destruct (Hall 0%nat best eq_refl) as [Hb Hb'].
      destruct i as [| i].
      * exists 0%nat. split; [exact Hi |].
        intros [| [| j]] c Hc.
        -- injection Hc as <-. split; [lia | intros ?; lia].
        -- injection Hc as <-. split; [lia | intros ?; lia].
        -- destruct (Hall (S j) c Hc) as [H1 _]. split; [lia | intros ?; lia].
      * exists (S (S i)). split; [exact Hi |].
        assert (f best < f (max_go (fun a b => b <? a) f best l)) by (apply Hb'; lia).
        intros [| [| j]] c Hc.
        -- injection Hc as <-. split; [lia | intros ?; lia].
        -- injection Hc as <-. split; [lia | intros ?; lia].
        -- destruct (Hall (S j) c Hc) as [H1 H2]. split; [exact H1 |].
           intros Hj. apply H2. lia.
Qed.

Lemma max_go_count_gt {A} (key : A -> option Z) (f : A -> Z) (l : list A) :
  forall best,
    Forall (fun x => key x = Some (f x)) (best :: l) ->
    max_go count_gt key best l = max_go (fun a b => b <? a) f best l.
Proof.
  induction l as [| x l IH]; intros best Hall; [reflexivity |].
  cbn [max_go].
  apply Forall_cons in Hall as [Hb Hall]. apply Forall_cons in Hall as [Hx Hall].
  rewrite Hb, Hx. cbn [count_gt].
  destruct (f best <? f x); apply IH; constructor; assumption.
Qed.

Lemma dict_get_lookup (d : dict) (j : nat) (k : string) (v : Z) :
  NoDup (map fst d) -> d !! j = Some (k, v) -> dict_get d k = Some v.
Proof.
  revert j. induction d as [| [k0 v0] d IH]; intros j Hnd Hj; [discriminate |].
  cbn [map fst] in Hnd. apply NoDup_cons in Hnd as [Hnot Hnd].
  destruct j as [| j]; cbn [dict_get].
  - injection Hj as -> ->. rewrite String.eqb_refl. reflexivity.
  - cbn in Hj. destruct (String.eqb_spec k0 k) as [-> | _].
    + exfalso. apply Hnot. apply list_elem_of_In.
      apply in_map_iff. exists (k, v). split; [reflexivity |].
      apply list_elem_of_In. eapply list_elem_of_lookup_2, Hj.
    + exact (IH j Hnd Hj).
Qed.

Lemma report_most_used (st : Stats) (r : Report) :
  get_compression_report st = Ok (inr r) ->
  most_used_method r
  = match method_usage st with
    | [] => None
    | p :: usage => Some (max_go count_gt (dict_get (p :: usage)) p.1 (map fst usage))
    end.
Proof.
  unfold get_compression_report.
  destruct (0 <? total_original_size st); [| intros [=]].
  repeat match goal with
         | |- (?x ≫= _) = _ -> _ =>
           lazymatch x with
           | int_truediv_float _ _ => idtac
           | float_of_int _ => idtac
           | int_of_float64 _ => idtac
           | float_truediv _ _ => idtac
           end;
           destruct x; [| intros [=]]; cbn [mbind result_bind]
         end.
  destruct (method_usage st) as [| p usage];
    cbn [map py_max mbind result_bind]; intros [= <-]; reflexivity.
Qed.

(** X13: on an engine instance, after any run of calls, a report that is
    returned names as most used method the key of the usage dict with the
    highest count, and among equal counts the one that was used first. *)
Theorem most_used_method_first_maximum (env : Env) (calls : list call) (r : Report) :
  let st := compression_stats (run_calls env calls new_engine) in
  get_compression_report st = Ok (inr r) ->
  match method_usage st with
  | [] => most_used_method r = None
  | _ =>
    exists i k v,
      method_usage st !! i = Some (k, v)
      /\ most_used_method r = Some k
      /\ forall j k' v',
           method_usage st !! j = Some (k', v') ->
           v' <= v /\ ((j < i)%nat -> v' < v)
  end.
Proof.
  intros st Hr. rewrite (report_most_used st r Hr).
  assert (Hinv : stats_consistent st).
  { assert (Hgen : forall cs w, stats_consistent (compression_stats w) ->
                                stats_consistent (compression_stats (run_calls env cs w))).
    { induction cs as [| c cs IH]; intros w Hw; cbn [run_calls]; [exact Hw |].
      apply IH, run_call_consistent, Hw. }
    apply Hgen. unfold stats_consistent. cbn.
    split; [reflexivity |]. split; constructor. }
  destruct Hinv as (_ & Hnd & _).
  destruct (method_usage st) as [| p usage] eqn:Hu; [reflexivity |].
  set (d := p :: usage) in *.
  set (f := fun k => default 0 (dict_get d k)).
  assert (Hkeys : Forall (fun k => dict_get d k = Some (f k)) (map fst d)).
  { apply Forall_forall. intros k Hk. apply list_elem_of_In, in_map_iff in Hk.
    destruct Hk as ([k0 v0] & <- & Hin).
    apply list_elem_of_In, list_elem_of_lookup_1 in Hin. destruct Hin as [j Hj].
    cbn [fst]. unfold f. rewrite (dict_get_lookup d j k0 v0 Hnd Hj). reflexivity. }
  change (map fst d) with (p.1 :: map fst usage) in Hkeys.
  rewrite (max_go_count_gt (dict_get d) f (map fst usage) p.1 Hkeys).
  destruct (max_go_first_best_Z f (map fst usage) p.1) as (i & Hi & Hall).
  change (p.1 :: map fst usage) with (map fst d) in Hi, Hall.
  rewrite list_lookup_fmap in Hi.
  destruct (d !! i) as [[k v] |] eqn:Hdi; [| discriminate].
  cbn in Hi. injection Hi as Hk.
  exists i, k, v. split; [exact Hdi |]. split; [rewrite <- Hk; reflexivity |].
  assert (Hfk : f k = v).
  { unfold f. rewrite (dict_get_lookup d i k v Hnd Hdi). reflexivity. }
  intros j k' v' Hj.
  assert (Hfk' : f k' = v').
  { unfold f. rewrite (dict_get_lookup d j k' v' Hnd Hj). reflexivity. }
  assert (Hj' : (fst <$> d) !! j = Some k').
  { rewrite list_lookup_fmap.
    transitivity (fst <$> Some (k', v')); [f_equal; exact Hj | reflexivity]. }
  destruct (Hall j k' Hj') as [H1 H2].
  rewrite <- Hk in H1, H2. rewrite Hfk, Hfk' in H1, H2. split; assumption.
Qed.

Lemma most_used_method_first_maximum_witness :
  let calls := [CompressData hello "z85" 6; CompressData hello "gzip_base64" 6;
                CompressData hello "gzip_base64" 6] in
  let st := compression_stats (run_calls stub_env calls new_engine) in
  method_usage st = [("z85", 1); ("gzip_base64", 2)]
  /\ exists r,
       get_compression_report st = Ok (inr r)
       /\ exists i k v,
            method_usage st !! i = Some (k, v)
            /\ most_used_method r = Some k
            /\ forall j k' v',
                 method_usage st !! j = Some (k', v') ->
                 v' <= v /\ ((j < i)%nat -> v' < v).
Proof.
  intros calls st.
  assert (Hu : method_usage st = [("z85", 1); ("gzip_base64", 2)])
    by (vm_compute; reflexivity).
  split; [exact Hu |].
  destruct (get_compression_report st) as [[c | r] | e] eqn:E;
    [vm_compute in E; discriminate | | vm_compute in E; discriminate].
  exists r. split; [reflexivity |].
  pose proof (most_used_method_first_maximum stub_env calls r E) as H.
  fold st in H. rewrite Hu in H. rewrite Hu. exact H.
Defined.

(** ** The base-91 decoder *)

Lemma substring_all (s : string) : String.substring 0 (String.length s) s = s.
Proof. induction s as [| c s IH]; cbn; [reflexivity | rewrite IH; reflexivity]. Qed.

Lemma str_from_b91 (s : string) : str_from 4 ("B91:" +:+ s) = s.
Proof.
  unfold str_from.
  change ("B91:" +:+ s) with (String "B" (String "9" (String "1" (String ":" s)))).
  cbn [String.length Nat.sub String.substring]. rewrite Nat.sub_0_r. apply substring_all.
Qed.

(** The inner [while] loop moves whole bytes out of the accumulator: the
    bit count drops below 8 and the output grows by [b / 8] bytes. *)
Lemma b91_drain_bits (fuel : nat) :
  forall v b output,
    0 <= b -> b / 8 <= Z.of_nat fuel ->
    exists v' output',
      b91_drain fuel (v, b, output) = (v', b mod 8, output')
      /\ len output' = len output + b / 8.
Proof.
  induction fuel as [| fuel IH]; intros v b output Hb Hfuel.
  - assert (Hlt : b < 8).
    { destruct (Z.lt_ge_cases b 8) as [H | H]; [exact H |].
      assert (1 <= b / 8) by (apply Z.div_le_lower_bound; lia). lia. }
    exists v, output. cbn [b91_drain].
    rewrite Z.mod_small, Z.div_small by lia. split; [reflexivity | lia].
  - cbn [b91_drain]. destruct (Z.leb_spec 8 b) as [Hge | Hlt].
    + assert (Hdiv : (b - 8) / 8 = b / 8 - 1).
      { replace (b - 8) with (b + (-1) * 8) by lia. rewrite Z.div_add by lia. lia. }
      assert (Hmod : (b - 8) mod 8 = b mod 8).
      { replace (b - 8) with (b + (-1) * 8) by lia. apply Z.mod_add. lia. }
      destruct (IH (Z.shiftr v 8) (b - 8) (output ++ [byte_of_Z (Z.land v 255)]))
        as (v' & output' & Hrun & Hlen); [lia | lia |].
      exists v', output'. rewrite <- Hmod. split; [exact Hrun |].
      rewrite Hlen. unfold len. rewrite length_app. cbn [length]. lia.
    + exists v, output. rewrite Z.mod_small, Z.div_small by lia.
      split; [reflexivity | lia].
Qed.

Lemma b91_decode_step_bits v b output char :
  0 <= b < 8 ->
  exists v' b' output',
    b91_decode_step (v, b, output) char = (v', b', output')
    /\ 0 <= b' < 8
    /\ b' + 8 * len output'
       = b + 8 * len output + (if b91_valid char then 13 else 0).
Proof.
  intros Hb. unfold b91_decode_step, b91_valid.
  destruct (char_table b91_alphabet !! char) as [idx |].
  - destruct (b91_drain_bits (Z.to_nat (b + 13)) (Z.lor v (Z.shiftl idx b)) (b + 13) output)
      as (v' & output' & Hrun & Hlen).
    + lia.
    + rewrite Z2Nat.id by lia.
      apply Z.div_le_upper_bound; lia.
    + exists v', ((b + 13) mod 8), output'. split; [exact Hrun |].
      split; [apply Z.mod_pos_bound; lia |].
      rewrite Hlen. pose proof (Z.div_mod (b + 13) 8 ltac:(lia)). lia.
  - exists v, b, output. split; [reflexivity |]. split; [exact Hb | lia].
Qed.

Lemma b91_decode_loop_bits (chars : list ascii) :
  forall v b output,
    0 <= b < 8 ->
    exists v' b' output',
      foldl b91_decode_step (v, b, output) chars = (v', b', output')
      /\ 0 <= b' < 8
      /\ b' + 8 * len output'
         = b + 8 * len output + 13 * len (List.filter b91_valid chars).
Proof.
  induction chars as [| c chars IH]; intros v b output Hb.
  - exists v, b, output. split; [reflexivity |]. split; [exact Hb |].
    unfold len. cbn. lia.
  - destruct (b91_decode_step_bits v b output c Hb) as (v1 & b1 & o1 & Hstep & Hb1 & Hbits1).
    destruct (IH v1 b1 o1 Hb1) as (v' & b' & o' & Hrun & Hb' & Hbits).
    exists v', b', o'. cbn [foldl]. rewrite Hstep. split; [exact Hrun |].
    split; [exact Hb' |].
    cbn [List.filter]. destruct (b91_valid c); unfold len in *; cbn [length]; lia.
Qed.

Lemma b91_decode_loop_skips (chars : list ascii) :
  forall st,
    foldl b91_decode_step st chars
    = foldl b91_decode_step st (List.filter b91_valid chars).
Proof.
  induction chars as [| c chars IH]; intros st; [reflexivity |].
  cbn [foldl List.filter].
  destruct (b91_valid c) eqn:Hc; cbn [foldl]; [apply IH |].
  rewrite <- IH. f_equal.
  destruct st as [[v b] output]. unfold b91_decode_step.
  unfold b91_valid in Hc.
  destruct (char_table b91_alphabet !! c); [discriminate | reflexivity].
Qed.

(** X14: on a string with the [B91:] tag [_decode_base91] never raises; it skips
    every character outside the alphabet, so that the result is that of the
    string without them, and it returns [floor(13 k / 8)] bytes for [k]
    alphabet characters. *)
Theorem base91_decode_lenient (s : string) :
  exists output,
    _decode_base91 ("B91:" +:+ s) = Ok output
    /\ _decode_base91 ("B91:" +:+ string_of_list_ascii (b91_symbols s)) = Ok output
    /\ len output = 13 * len (b91_symbols s) / 8.
Proof.
  assert (Htag : forall t, String.prefix "B91:" ("B91:" +:+ t) = true).
  { intros t. simpl. destruct t; reflexivity. }
  unfold _decode_base91. rewrite !Htag.
  cbn [negb]. rewrite !str_from_b91, list_ascii_of_string_of_list_ascii.
  unfold b91_symbols.
  assert (H0 : 0 <= 0 < 8) by lia.
  destruct (b91_decode_loop_bits (list_ascii_of_string s) 0 0 [] H0)
    as (v' & b' & o' & Hrun & Hb' & Hbits).
  pose proof (b91_decode_loop_skips (list_ascii_of_string s) (0, 0, [])) as Hskip.
  match goal with
  | |- context [foldl b91_decode_step ?st (list_ascii_of_string s)] =>
    assert (Hrun1 : foldl b91_decode_step st (list_ascii_of_string s) = (v', b', o'))
      by exact Hrun;
    assert (Hrun2 : foldl b91_decode_step st
                      (List.filter b91_valid (list_ascii_of_string s)) = (v', b', o'))
      by (rewrite <- Hrun; symmetry; exact Hskip);
    rewrite Hrun1, Hrun2
  end.
  exists o'. split; [reflexivity |]. split; [reflexivity |].
  change (len (@nil byte)) with 0 in Hbits.
  apply Z.div_unique with (r := b'); lia.
Qed.

(** ** Base-91: what decoding an encoded payload gives *)

Lemma lor_shiftl_add (v x b : Z) :
  0 <= b -> 0 <= v < 2 ^ b -> Z.lor v (Z.shiftl x b) = v + x * 2 ^ b.
Proof.
  intros Hb Hv. rewrite Z.shiftl_mul_pow2 by exact Hb.
  rewrite <- Z.add_lor_land.
  assert (Hland : Z.land v (x * 2 ^ b) = 0); [| lia].
  apply Z.bits_inj'. intros n Hn.
  rewrite Z.land_spec, Z.bits_0.
  destruct (Z.lt_ge_cases n b) as [Hlt | Hge].
  - rewrite Z.mul_pow2_bits_low by exact Hlt. apply andb_false_r.
  - destruct (Z.eq_dec v 0) as [-> | Hnz]; [rewrite Z.bits_0; reflexivity |].
    rewrite Z.bits_above_log2; [reflexivity | lia |].
    apply Z.lt_le_trans with b; [| exact Hge].
    apply Z.log2_lt_pow2; lia.
Qed.

Lemma land_255 (v : Z) : Z.land v 255 = v mod 256.
Proof. change 255 with (Z.ones 8). rewrite Z.land_ones by lia. reflexivity. Qed.

Lemma land_8191 (v : Z) : Z.land v 8191 = v mod 8192.
Proof. change 8191 with (Z.ones 13). rewrite Z.land_ones by lia. reflexivity. Qed.

Lemma shiftr_8 (v : Z) : Z.shiftr v 8 = v / 256.
Proof. rewrite Z.shiftr_div_pow2 by lia. reflexivity. Qed.

Lemma shiftr_13 (v : Z) : Z.shiftr v 13 = v / 8192.
Proof. rewrite Z.shiftr_div_pow2 by lia. reflexivity. Qed.

Lemma byte_to_of_Z (z : Z) : byte_to_Z (byte_of_Z z) = z mod 256.
Proof.
  unfold byte_of_Z, byte_to_Z.
  pose proof (Z.mod_pos_bound z 256 ltac:(lia)) as Hm.
  destruct (Byte.of_N (Z.to_N (z mod 256))) as [b |] eqn:Hb.
  - apply Byte.to_of_N in Hb. rewrite Hb. lia.
  - pose proof (Byte.to_of_N_option_map (Z.to_N (z mod 256))) as H.
    rewrite Hb in H. cbn [option_map] in H.
    destruct (N.leb_spec (Z.to_N (z mod 256)) 255); [discriminate | lia].
Qed.

Lemma byte_to_Z_inj (a b : byte) : byte_to_Z a = byte_to_Z b -> a = b.
Proof.
  unfold byte_to_Z. intros H. apply N2Z.inj in H.
  pose proof (Byte.of_to_N a) as Ha. rewrite H, Byte.of_to_N in Ha. congruence.
Qed.

Lemma bytes_value_range (l : bytes) : 0 <= bytes_value l < 256 ^ len l.
Proof.
  induction l as [| b l IH].
  - unfold len. cbn. lia.
  - change (bytes_value (b :: l)) with (byte_to_Z b + 256 * bytes_value l).
    unfold len in *. cbn [length]. rewrite Nat2Z.inj_succ, Z.pow_succ_r by lia.
    pose proof (byte_to_Z_range b). lia.
Qed.

Lemma bytes_value_snoc (l : bytes) (b : byte) :
  bytes_value (l ++ [b]) = bytes_value l + byte_to_Z b * 256 ^ len l.
Proof.
  induction l as [| a l IH].
  - unfold len. cbn. lia.
  - change (bytes_value ((a :: l) ++ [b]))
      with (byte_to_Z a + 256 * bytes_value (l ++ [b])).
    change (bytes_value (a :: l)) with (byte_to_Z a + 256 * bytes_value l).
    rewrite IH. unfold len. cbn [length].
    rewrite Nat2Z.inj_succ, Z.pow_succ_r by lia. ring.
Qed.

Lemma symbols_value_snoc (l : list ascii) (c : ascii) :
  symbols_value (l ++ [c]) = symbols_value l + b91_index c * 8192 ^ len l.
Proof.
  induction l as [| a l IH].
  - unfold len. cbn. lia.
  - change (symbols_value ((a :: l) ++ [c]))
      with (b91_index a + 8192 * symbols_value (l ++ [c])).
    change (symbols_value (a :: l)) with (b91_index a + 8192 * symbols_value l).
    rewrite IH. unfold len. cbn [length].
    rewrite Nat2Z.inj_succ, Z.pow_succ_r by lia. ring.
Qed.

(** Equal little-endian values: the longer byte string is the shorter one
    followed by zero bytes. *)
Lemma bytes_value_inj_pad (l1 : bytes) :
  forall l2 : bytes,
    bytes_value l1 = bytes_value l2 -> (length l1 <= length l2)%nat ->
    l2 = l1 ++ repeat x00 (length l2 - length l1).
Proof.
  induction l1 as [| a l1 IH]; intros l2 Hv Hl.
  - cbn [app length]. rewrite Nat.sub_0_r.
    induction l2 as [| c l2 IH2]; [reflexivity |].
    change (bytes_value []) with 0 in *.
    change (bytes_value (c :: l2)) with (byte_to_Z c + 256 * bytes_value l2) in Hv.
    pose proof (byte_to_Z_range c). pose proof (bytes_value_range l2).
    assert (Hc : byte_to_Z c = byte_to_Z x00) by (change (byte_to_Z x00) with 0; lia).
    apply byte_to_Z_inj in Hc. subst c.
    cbn [length repeat]. f_equal. apply IH2; [lia | cbn; lia].
  - destruct l2 as [| c l2]; [cbn in Hl; lia |].
    change (bytes_value (a :: l1)) with (byte_to_Z a + 256 * bytes_value l1) in Hv.
    change (bytes_value (c :: l2)) with (byte_to_Z c + 256 * bytes_value l2) in Hv.
    pose proof (byte_to_Z_range a). pose proof (byte_to_Z_range c).
    assert (Hac : byte_to_Z a = byte_to_Z c) by lia.
    apply byte_to_Z_inj in Hac. subst c.
    cbn [length Nat.sub app]. f_equal. apply IH; [lia | cbn in Hl; lia].
Qed.

Lemma b91_digits_ok : forallb b91_digit_ok (seqZ 0 91) = true.
Proof. vm_compute. reflexivity. Qed.

(** A symbol the encoder takes from the alphabet at a non-negative index:
    the index is below 91 and the decoding table gives it back. *)
Lemma b91_index_of_symbol (i : Z) (c : ascii) :
  0 <= i -> str_index b91_alphabet i = Ok c ->
  i < 91 /\ b91_valid c = true /\ b91_index c = i.
Proof.
  intros Hi Hc.
  assert (Hlt : i < 91).
  { unfold str_index in Hc.
    destruct (Z.ltb_spec i 0); [lia |].
    change (str_len b91_alphabet) with 91 in Hc.
    destruct (Z.leb_spec 0 i); [| lia].
    destruct (Z.ltb_spec i 91); [assumption | discriminate]. }
  split; [exact Hlt |].
  assert (Hok : b91_digit_ok i = true).
  { apply (proj1 (forallb_forall _ _) b91_digits_ok).
    apply list_elem_of_In, elem_of_seqZ. lia. }
  unfold b91_digit_ok in Hok. rewrite Hc in Hok.
  apply bool_decide_eq_true in Hok.
  unfold b91_valid, b91_index. rewrite Hok. split; reflexivity.
Qed.

Lemma pow_8192 (n : Z) : 0 <= n -> 8192 ^ n = 2 ^ (13 * n).
Proof. intros Hn. rewrite Z.pow_mul_r by lia. reflexivity. Qed.

Lemma pow_256 (n : Z) : 0 <= n -> 256 ^ n = 2 ^ (8 * n).
Proof. intros Hn. rewrite Z.pow_mul_r by lia. reflexivity. Qed.

Lemma len_snoc {A} (l : list A) (x : A) : len (l ++ [x]) = len l + 1.
Proof. unfold len. rewrite length_app. cbn [length]. lia. Qed.

(** One round of the encoding loop keeps the number read so far: the
    symbols written, followed by the accumulator, are the little-endian
    digits of the bytes consumed. *)
Lemma b91_encode_step_value v b output byte v1 b1 output1 :
  0 <= b <= 13 -> 0 <= v < 2 ^ b -> Forall b91_symbol output ->
  b91_encode_step (v, b, output) byte = Ok (v1, b1, output1) ->
  0 <= v1 < 2 ^ b1
  /\ Forall b91_symbol output1
  /\ symbols_value output1 + v1 * 2 ^ (13 * len output1)
     = symbols_value output + (v + byte_to_Z byte * 2 ^ b) * 2 ^ (13 * len output).
Proof.
  intros Hb Hv Hout Hstep. unfold b91_encode_step in Hstep.
  pose proof (byte_to_Z_range byte) as Hbyte.
  rewrite land_255, Z.mod_small in Hstep by exact Hbyte.
  rewrite lor_shiftl_add in Hstep by lia.
  set (V := v + byte_to_Z byte * 2 ^ b) in *.
  assert (HV : 0 <= V < 2 ^ (b + 8)).
  { rewrite Z.pow_add_r by lia. change (2 ^ 8) with 256. subst V. nia. }
  destruct (Z.ltb_spec 13 (b + 8)) as [Hgt | Hle].
  - rewrite land_8191, shiftr_13 in Hstep.
    destruct (str_index b91_alphabet (V mod 8192)) as [c | e] eqn:Hc; [| discriminate].
    cbn [mbind result_bind] in Hstep. injection Hstep as <- <- <-.
    pose proof (Z.mod_pos_bound V 8192 ltac:(lia)) as Hm.
    destruct (b91_index_of_symbol (V mod 8192) c ltac:(lia) Hc) as (Hlt & Hvalid & Hidx).
    split; [| split].
    + split; [apply Z.div_pos; lia |].
      apply Z.div_lt_upper_bound; [lia |].
      replace (b + 8) with (13 + (b + 8 - 13)) in HV by lia.
      rewrite Z.pow_add_r in HV by lia. exact (proj2 HV).
    + apply Forall_app. split; [exact Hout |].
      constructor; [| constructor]. split; [exact Hvalid | lia].
    + rewrite symbols_value_snoc, len_snoc, Hidx.
      rewrite pow_8192 by apply len_nonneg.
      replace (13 * (len output + 1)) with (13 + 13 * len output) by lia.
      rewrite Z.pow_add_r by (pose proof (len_nonneg output); lia).
      change (2 ^ 13) with 8192.
      pose proof (Z.div_mod V 8192 ltac:(lia)) as E.
      set (q := V / 8192) in *. set (r := V mod 8192) in *.
      rewrite E. ring.
  - injection Hstep as <- <- <-.
    split; [exact HV |]. split; [exact Hout | reflexivity].
Qed.

Lemma b91_encode_loop_value (data : bytes) :
  forall v b output v' b' output',
    0 <= b <= 13 -> 0 <= v < 2 ^ b -> Forall b91_symbol output ->
    foldlM b91_encode_step (v, b, output) data = Ok (v', b', output') ->
    0 <= v' < 2 ^ b'
    /\ Forall b91_symbol output'
    /\ symbols_value output' + v' * 2 ^ (13 * len output')
       = symbols_value output + (v + bytes_value data * 2 ^ b) * 2 ^ (13 * len output).
Proof.
  induction data as [| byte data IH]; intros v b output v' b' output' Hb Hv Hout Hrun.
  - injection Hrun as <- <- <-. change (bytes_value []) with 0.
    split; [exact Hv |]. split; [exact Hout |]. f_equal. f_equal. lia.
  - cbn [foldlM] in Hrun.
    destruct (b91_encode_step (v, b, output) byte) as [[[v1 b1] output1] | e] eqn:Hstep;
      [| discriminate].
    cbn [mbind result_bind] in Hrun.
    destruct (b91_encode_step_bits _ _ _ _ _ _ _ Hb Hstep) as [Hbits1 Hb1].
    destruct (b91_encode_step_value _ _ _ _ _ _ _ Hb Hv Hout Hstep)
      as (Hv1 & Hout1 & Hval1).
    assert (Hb1' : 0 <= b1 <= 13) by lia.
    destruct (IH _ _ _ _ _ _ Hb1' Hv1 Hout1 Hrun) as (Hv' & Hout' & Hval).
    split; [exact Hv' |]. split; [exact Hout' |].
    rewrite Hval.
    change (bytes_value (byte :: data)) with (byte_to_Z byte + 256 * bytes_value data).
    pose proof (len_nonneg output) as Hl. pose proof (len_nonneg output1) as Hl1.
    assert (Hpow : 2 ^ b1 * 2 ^ (13 * len output1)
                   = 256 * 2 ^ b * 2 ^ (13 * len output)).
    { rewrite <- Z.pow_add_r by lia. rewrite <- Hbits1.
      replace (b + 8 + 13 * len output) with (8 + b + 13 * len output) by lia.
      rewrite !Z.pow_add_r by lia. reflexivity. }
    set (P1 := 2 ^ (13 * len output1)) in *. set (P := 2 ^ (13 * len output)) in *.
    set (B1 := 2 ^ b1) in *. set (B := 2 ^ b) in *.
    replace (symbols_value output1 + (v1 + bytes_value data * B1) * P1)
      with (symbols_value output1 + v1 * P1 + bytes_value data * (B1 * P1)) by ring.
    rewrite Hval1, Hpow. ring.
Qed.

(** The symbols the encoder returns are alphabet symbols whose 13-bit
    little-endian value is the payload's little-endian value. *)
Lemma b91_encode_symbols_value (data : bytes) (symbols : list ascii) :
  b91_encode_symbols data = Ok symbols ->
  Forall b91_symbol symbols
  /\ symbols_value symbols = bytes_value data
  /\ len symbols = (8 * len data + 12) / 13.
Proof.
  unfold b91_encode_symbols. intros Henc.
  destruct (foldlM b91_encode_step (0, 0, []) data) as [[[v b] output] | e] eqn:Hloop;
    [| discriminate].
  cbn [mbind result_bind] in Henc.
  assert (H0 : 0 <= 0 <= 13) by lia.
  assert (Hv0 : 0 <= 0 < 2 ^ 0) by (cbn; lia).
  destruct (b91_encode_loop_bits data _ _ _ _ _ _ H0 Hloop) as (Hbits & Hb & Hne).
  destruct (b91_encode_loop_value data _ _ _ _ _ _ H0 Hv0 (List.Forall_nil _) Hloop)
    as (Hv & Hout & Hval).
  change (len (@nil ascii)) with 0 in *. change (symbols_value []) with 0 in Hval.
  change (2 ^ (13 * 0)) with 1 in Hval. change (2 ^ 0) with 1 in Hval.
  destruct (Z.ltb_spec 0 b) as [Hpos | Hzero].
  - rewrite land_8191 in Henc.
    assert (Hsmall : v mod 8192 = v).
    { apply Z.mod_small. split; [lia |].
      apply Z.lt_le_trans with (2 ^ b); [lia |].
      change 8192 with (2 ^ 13). apply Z.pow_le_mono_r; lia. }
    rewrite Hsmall in Henc.
    destruct (str_index b91_alphabet v) as [c | e] eqn:Hc; [| discriminate].
    cbn [mbind result_bind] in Henc. injection Henc as <-.
    destruct (b91_index_of_symbol v c ltac:(lia) Hc) as (Hlt & Hvalid & Hidx).
    split; [| split].
    + apply Forall_app. split; [exact Hout |].
      constructor; [| constructor]. split; [exact Hvalid | lia].
    + rewrite symbols_value_snoc, Hidx, pow_8192 by apply len_nonneg. lia.
    + rewrite len_snoc. apply Z.div_unique with (r := b - 1); lia.
  - injection Henc as <-.
    assert (b = 0) as -> by lia. change (2 ^ 0) with 1 in Hv.
    assert (v = 0) as -> by lia.
    assert (data = []) as ->.
    { destruct data; [reflexivity |].
      assert (1 <= 0) by (apply Hne; discriminate). lia. }
    change (len (@nil byte)) with 0 in *. change (bytes_value []) with 0 in *.
    split; [exact Hout |]. split; [lia |].
    assert (len output = 0) as -> by lia. reflexivity.
Qed.

(** The inner [while] loop of the decoder keeps the number held by the
    output and the accumulator together. *)
Lemma b91_drain_value (fuel : nat) :
  forall v b output v' b' output',
    0 <= b -> 0 <= v < 2 ^ b ->
    b91_drain fuel (v, b, output) = (v', b', output') ->
    0 <= b' /\ 0 <= v' < 2 ^ b'
    /\ b' + 8 * len output' = b + 8 * len output
    /\ bytes_value output' + v' * 2 ^ (8 * len output')
       = bytes_value output + v * 2 ^ (8 * len output).
Proof.
  induction fuel as [| fuel IH]; intros v b output v' b' output' Hb Hv Hrun.
  - cbn [b91_drain] in Hrun. injection Hrun as <- <- <-. repeat split; lia.
  - cbn [b91_drain] in Hrun. destruct (Z.leb_spec 8 b) as [Hge | Hlt].
    + rewrite shiftr_8, land_255 in Hrun.
      assert (Hq : 0 <= v / 256 < 2 ^ (b - 8)).
      { split; [apply Z.div_pos; lia |].
        apply Z.div_lt_upper_bound; [lia |].
        replace b with (8 + (b - 8)) in Hv by lia.
        rewrite Z.pow_add_r in Hv by lia. exact (proj2 Hv). }
      assert (Hb8 : 0 <= b - 8) by lia.
      destruct (IH _ _ _ _ _ _ Hb8 Hq Hrun) as (Hb' & Hv' & Hbits & Hval).
      split; [exact Hb' |]. split; [exact Hv' |].
      rewrite len_snoc in Hbits, Hval. split; [lia |].
      rewrite Hval, bytes_value_snoc, byte_to_of_Z, Z.mod_mod by lia.
      rewrite pow_256 by apply len_nonneg.
      replace (8 * (len output + 1)) with (8 + 8 * len output) by lia.
      rewrite Z.pow_add_r by (pose proof (len_nonneg output); lia).
      change (2 ^ 8) with 256.
      pose proof (Z.div_mod v 256 ltac:(lia)) as E.
      set (q := v / 256) in *. set (r := v mod 256) in *.
      rewrite E. ring.
    + injection Hrun as <- <- <-. repeat split; lia.
Qed.

Lemma b91_decode_step_value v b output char v' b' output' :
  0 <= b -> 0 <= v < 2 ^ b -> b91_symbol char ->
  b91_decode_step (v, b, output) char = (v', b', output') ->
  0 <= b' /\ 0 <= v' < 2 ^ b'
  /\ b' + 8 * len output' = b + 13 + 8 * len output
  /\ bytes_value output' + v' * 2 ^ (8 * len output')
     = bytes_value output + (v + b91_index char * 2 ^ b) * 2 ^ (8 * len output).
Proof.
  intros Hb Hv [Hvalid Hidx] Hstep.
  unfold b91_decode_step in Hstep. unfold b91_valid in Hvalid. unfold b91_index in *.
  destruct (char_table b91_alphabet !! char) as [idx |]; [| discriminate].
  simpl in Hidx. simpl default.
  rewrite lor_shiftl_add in Hstep by lia.
  apply b91_drain_value in Hstep; [exact Hstep | lia |].
  rewrite Z.pow_add_r by lia. change (2 ^ 13) with 8192.
  assert (0 < 2 ^ b) by (apply Z.pow_pos_nonneg; lia). nia.
Qed.

Lemma b91_decode_loop_value (chars : list ascii) :
  forall v b output v' b' output',
    0 <= b -> 0 <= v < 2 ^ b -> Forall b91_symbol chars ->
    foldl b91_decode_step (v, b, output) chars = (v', b', output') ->
    0 <= v' < 2 ^ b'
    /\ bytes_value output' + v' * 2 ^ (8 * len output')
       = bytes_value output + (v + symbols_value chars * 2 ^ b) * 2 ^ (8 * len output).
Proof.
  induction chars as [| c chars IH]; intros v b output v' b' output' Hb Hv Hok Hrun.
  - cbn [foldl] in Hrun. injection Hrun as <- <- <-. change (symbols_value []) with 0.
    split; [exact Hv |]. f_equal. f_equal. lia.
  - cbn [foldl] in Hrun.
    destruct (b91_decode_step (v, b, output) c) as [[v1 b1] o1] eqn:Hstep.
    apply Forall_cons in Hok. destruct Hok as [Hc Hok].
    destruct (b91_decode_step_value _ _ _ _ _ _ _ Hb Hv Hc Hstep)
      as (Hb1 & Hv1 & Hbits1 & Hval1).
    destruct (IH _ _ _ _ _ _ Hb1 Hv1 Hok Hrun) as (Hv' & Hval).
    split; [exact Hv' |]. rewrite Hval.
    change (symbols_value (c :: chars)) with (b91_index c + 8192 * symbols_value chars).
    pose proof (len_nonneg output) as Hl. pose proof (len_nonneg o1) as Hl1.
    assert (Hpow : 2 ^ b1 * 2 ^ (8 * len o1) = 8192 * 2 ^ b * 2 ^ (8 * len output)).
    { rewrite <- Z.pow_add_r by lia. rewrite Hbits1.
      replace (b + 13 + 8 * len output) with (13 + b + 8 * len output) by lia.
      rewrite !Z.pow_add_r by lia. reflexivity. }
    set (P1 := 2 ^ (8 * len o1)) in *. set (P := 2 ^ (8 * len output)) in *.
    set (B1 := 2 ^ b1) in *. set (B := 2 ^ b) in *.
    replace (bytes_value o1 + (v1 + symbols_value chars * B1) * P1)
      with (bytes_value o1 + v1 * P1 + symbols_value chars * (B1 * P1)) by ring.
    rewrite Hval1, Hpow. ring.
Qed.

Lemma filter_b91_symbols (l : list ascii) :
  Forall b91_symbol l -> List.filter b91_valid l = l.
Proof.
  induction 1 as [| c l [Hc _] _ IH]; [reflexivity |].
  cbn [List.filter]. rewrite Hc, IH. reflexivity.
Qed.

(** X15: whenever [_encode_base91] returns, [_decode_base91] gives the payload back,
    followed by one zero byte when the last symbol carries eight or more bits
    beyond the payload: the result has [floor(13 * ceil(8 N / 13) / 8)]
    bytes, that is [N] or [N + 1].  The round trip is exact exactly when
    [8 N mod 13] is 0 or at least 6. *)
Theorem base91_decode_of_encode (data : bytes) (s : string) :
  _encode_base91 data = Ok s ->
  exists k : nat,
    _decode_base91 s = Ok (data ++ repeat x00 k)
    /\ (k <= 1)%nat
    /\ len data + Z.of_nat k = 13 * ((8 * len data + 12) / 13) / 8
    /\ (k = 0%nat <-> (8 * len data) mod 13 = 0 \/ 6 <= (8 * len data) mod 13).
Proof.
  intros Henc. unfold _encode_base91 in Henc.
  destruct (b91_encode_symbols data) as [symbols | e] eqn:Hsym; [| discriminate].
  cbn [mbind result_bind] in Henc. injection Henc as <-.
  destruct (b91_encode_symbols_value _ _ Hsym) as (Hok & Hval & Hlen).
  assert (Htag : forall t, String.prefix "B91:" ("B91:" +:+ t) = true).
  { intros t. simpl. destruct t; reflexivity. }
  unfold _decode_base91. rewrite Htag.
  cbn [negb]. rewrite str_from_b91, list_ascii_of_string_of_list_ascii.
  assert (H0 : 0 <= 0 < 8) by lia.
  destruct (b91_decode_loop_bits symbols 0 0 [] H0)
    as (v' & b' & o' & Hrun & Hb' & Hbits).
  rewrite (filter_b91_symbols _ Hok) in Hbits.
  assert (Hv0 : 0 <= 0 < 2 ^ 0) by (cbn; lia).
  destruct (b91_decode_loop_value symbols 0 0 [] v' b' o' ltac:(lia) Hv0 Hok Hrun)
    as (Hv' & Hval').
  match goal with
  | |- context [foldl b91_decode_step ?st symbols] =>
    assert (Hrun1 : foldl b91_decode_step st symbols = (v', b', o')) by exact Hrun;
    rewrite Hrun1
  end.
  change (len (@nil byte)) with 0 in *. change (bytes_value []) with 0 in Hval'.
  change (2 ^ (8 * 0)) with 1 in Hval'. change (2 ^ 0) with 1 in Hval'.
  rewrite Hval in Hval'.
  set (n := len data) in *. set (m := len o') in *. set (c := len symbols) in *.
  assert (Hn : 0 <= n) by apply len_nonneg.
  pose proof (Z.div_mod (8 * n + 12) 13 ltac:(lia)) as Hdm.
  pose proof (Z.mod_pos_bound (8 * n + 12) 13 ltac:(lia)) as Hmb.
  rewrite <- Hlen in Hdm.
  assert (Hm : n <= m <= n + 1) by lia.
  assert (Hzero : v' = 0).
  { pose proof (bytes_value_range data) as Hd. pose proof (bytes_value_range o') as Ho.
    fold n in Hd. fold m in Ho.
    rewrite <- pow_256 in Hval' by lia.
    assert (Hmono : 256 ^ n <= 256 ^ m) by (apply Z.pow_le_mono_r; lia).
    destruct (Z.eq_dec v' 0) as [-> | Hnz]; [reflexivity |].
    assert (256 ^ m <= v' * 256 ^ m) by nia. lia. }
  subst v'.
  assert (Hbv : bytes_value data = bytes_value o') by lia.
  assert (Hle : (length data <= length o')%nat) by (unfold n, m, len in Hm; lia).
  pose proof (bytes_value_inj_pad data o' Hbv Hle) as Hpad.
  exists (length o' - length data)%nat.
  assert (Hk : Z.of_nat (length o' - length data) = m - n)
    by (unfold n, m, len in *; lia).
  split; [f_equal; exact Hpad |].
  split; [unfold n, m, len in Hm; lia |].
  split.
  - rewrite Hk, <- Hlen. apply Z.div_unique with (r := b'); lia.
  - pose proof (Z.div_mod (8 * n) 13 ltac:(lia)) as Hdm8.
    pose proof (Z.mod_pos_bound (8 * n) 13 ltac:(lia)) as Hmb8.
    split.
    + intros Hk0. rewrite Hk0 in Hk. lia.
    + intros Hr. lia.
Qed.

Lemma base91_decode_of_encode_witness :
  _encode_base91 [x00; x00] = Ok "B91:AA"
  /\ exists k : nat,
       _decode_base91 "B91:AA" = Ok ([x00; x00] ++ repeat x00 k)
       /\ (k <= 1)%nat
       /\ len [x00; x00] + Z.of_nat k = 13 * ((8 * len [x00; x00] + 12) / 13) / 8
       /\ (k = 0%nat
           <-> (8 * len [x00; x00]) mod 13 = 0 \/ 6 <= (8 * len [x00; x00]) mod 13).
Proof.
  assert (Henc : _encode_base91 [x00; x00] = Ok "B91:AA") by (vm_compute; reflexivity).
  split; [exact Henc |].
  exact (base91_decode_of_encode [x00; x00] "B91:AA" Henc).
Defined.

(** ** Base-91: payloads the encoder rejects *)

Lemma str_index_b91_out (i : Z) :
  91 <= i -> str_index b91_alphabet i = Raise IndexError.
Proof.
  intros Hi. unfold str_index. change (str_len b91_alphabet) with 91.
  destruct (Z.ltb_spec i 0); [lia |].
  destruct (Z.leb_spec 0 i); [| lia].
  destruct (Z.ltb_spec i 91); [lia | reflexivity].
Qed.

Lemma b91_encode_first_step (b0 : byte) :
  b91_encode_step (0, 0, []) b0 = Ok (byte_to_Z b0, 8, []).
Proof.
  unfold b91_encode_step. pose proof (byte_to_Z_range b0) as Hb.
  rewrite land_255, Z.mod_small by exact Hb.
  rewrite lor_shiftl_add by (cbn; lia).
  change (2 ^ 0) with 1. rewrite Z.mul_1_r. reflexivity.
Qed.

Lemma b91_encode_raises_first_chunk (b0 : byte) (rest : bytes) :
  91 <= byte_to_Z b0
  \/ (exists b1 rest', rest = b1 :: rest' /\ byte_to_Z b1 mod 32 <> 0) ->
  _encode_base91 (b0 :: rest) = Raise IndexError.
Proof.
  intros Hbad. unfold _encode_base91, b91_encode_symbols.
  cbn [foldlM]. rewrite b91_encode_first_step. cbn [mbind result_bind].
  pose proof (byte_to_Z_range b0) as Hb0.
  destruct rest as [| b1 rest'].
  - destruct Hbad as [Hbig | (b1 & rest' & Hrest & _)]; [| discriminate].
    cbn [foldlM mbind result_bind].
    change (0 <? 8) with true. cbv iota.
    rewrite land_8191, Z.mod_small by lia.
    rewrite str_index_b91_out by exact Hbig. reflexivity.
  - pose proof (byte_to_Z_range b1) as Hb1.
    assert (Hchunk : 91 <= (byte_to_Z b0 + byte_to_Z b1 * 2 ^ 8) mod 8192).
    { change (2 ^ 8) with 256.
      pose proof (Z.div_mod (byte_to_Z b1) 32 ltac:(lia)) as Hdm.
      pose proof (Z.mod_pos_bound (byte_to_Z b1) 32 ltac:(lia)) as Hmb.
      assert (E : byte_to_Z b0 + 256 * (byte_to_Z b1 mod 32)
                  = (byte_to_Z b0 + byte_to_Z b1 * 256) mod 8192).
      { apply Z.mod_unique with (q := byte_to_Z b1 / 32); lia. }
      rewrite <- E.
      destruct Hbad as [Hbig | (b1' & rest'' & Hrest & Hlow)]; [lia |].
      injection Hrest as <- <-. lia. }
    assert (Hstep : b91_encode_step (byte_to_Z b0, 8, []) b1 = Raise IndexError).
    { unfold b91_encode_step.
      rewrite land_255, Z.mod_small by exact Hb1.
      rewrite lor_shiftl_add by (change (2 ^ 8) with 256; lia).
      change (13 <? 8 + 8) with true. cbv iota.
      rewrite land_8191, str_index_b91_out by exact Hchunk.
      reflexivity. }
    cbn [foldlM]. rewrite Hstep. reflexivity.
Qed.

(** X16: [_encode_base91] raises [IndexError] on every payload whose first 13 bits are
    91 or more: whose first byte is 91 or more, or whose second byte has one
    of its five low bits set.  [compress_data] asked for ['base91'] then
    answers with the plain Base64 of the payload under the name
    ['base64_only']. *)
Theorem base91_encode_rejects (b0 : byte) (rest : bytes) :
  91 <= byte_to_Z b0
  \/ (exists b1 rest', rest = b1 :: rest' /\ byte_to_Z b1 mod 32 <> 0) ->
  _encode_base91 (b0 :: rest) = Raise IndexError
  /\ forall env level w,
       exists md w',
         compress_data env (b0 :: rest) "base91" level w
         = (Ok (b64encode env (b0 :: rest), md), w')
         /\ meta_method md = "base64_only".
Proof.
  intros Hbad. pose proof (b91_encode_raises_first_chunk b0 rest Hbad) as Hraise.
  split; [exact Hraise |]. intros env level w.
  destruct (compress_data_cases env (b0 :: rest) "base91" level w)
    as (c & m & w1 & Hatt & _ & _ & H).
  change (resolve_method env (b0 :: rest) "base91") with "base91" in Hatt.
  unfold compress_attempt, try_except in Hatt.
  change (compress_encode env (b0 :: rest) "base91" level)
    with (lift (_encode_base91 (b0 :: rest))
          ≫= fun c => (mret (c, "base91") : eng (string * string))) in Hatt.
  rewrite eng_bind_eq in Hatt. unfold lift in Hatt. rewrite Hraise in Hatt.
  unfold mret, eng_ret in Hatt. injection Hatt as <- <- <-.
  destruct H as (md & st' & Heq & Hm & _).
  eexists md, _. split; [exact Heq | exact Hm].
Qed.

Lemma base91_encode_rejects_witness :
  91 <= byte_to_Z "h"%byte
  /\ _encode_base91 ["h"%byte; "i"%byte] = Raise IndexError
  /\ forall env level w,
       exists md w',
         compress_data env ["h"%byte; "i"%byte] "base91" level w
         = (Ok (b64encode env ["h"%byte; "i"%byte], md), w')
         /\ meta_method md = "base64_only".
Proof.
  assert (Hbig : 91 <= byte_to_Z "h"%byte) by (vm_compute; discriminate).
  split; [exact Hbig |].
  exact (base91_encode_rejects "h"%byte ["i"%byte] (or_introl Hbig)).
Defined.

(** ** Decimal numerals: [int(str(n))] *)

Lemma string_append_assoc (s1 s2 s3 : string) :
  (s1 +:+ s2) +:+ s3 = s1 +:+ (s2 +:+ s3).
Proof.
  induction s1 as [| c s1 IH]; [reflexivity |].
  change (String c s1 +:+ s2) with (String c (s1 +:+ s2)).
  change (String c (s1 +:+ s2) +:+ s3) with (String c ((s1 +:+ s2) +:+ s3)).
  rewrite IH. reflexivity.
Qed.

Lemma pretty_N_go_app (x : N) :
  forall s, pretty_N_go x s = pretty_N_go x "" +:+ s.
Proof.
  induction (N.lt_wf_0 x) as [x _ IH]. intros s.
  destruct (N.eq_dec x 0%N) as [-> | Hx].
  - rewrite !pretty_N_go_0. reflexivity.
  - assert (Hpos : (0 < x)%N) by lia.
    rewrite !(pretty_N_go_step x) by exact Hpos.
    assert (Hlt : (x `div` 10 < x)%N) by (apply N.div_lt; lia).
    rewrite (IH _ Hlt (String _ s)), (IH _ Hlt (String _ "")).
    rewrite string_append_assoc. reflexivity.
Qed.

Lemma pretty_N_char_value (d : N) :
  (d < 10)%N -> digit_value (pretty_N_char d) = Some (Z.of_N d).
Proof.
  intros Hd.
  assert (d = 0 \/ d = 1 \/ d = 2 \/ d = 3 \/ d = 4 \/ d = 5 \/ d = 6 \/ d = 7
          \/ d = 8 \/ d = 9)%N as H by lia.
  repeat (destruct H as [-> | H]; [reflexivity |]). subst d. reflexivity.
Qed.

Lemma parse_digits_snoc (l : list ascii) :
  forall acc after_digit v c d,
    parse_digits acc after_digit l = Some v -> digit_value c = Some d ->
    parse_digits acc after_digit (l ++ [c]) = Some (v * 10 + d).
Proof.
  induction l as [| a l IH]; intros acc after_digit v c d Hl Hc.
  - cbn [parse_digits app] in *. rewrite Hc.
    destruct after_digit; [| discriminate]. injection Hl as <-. reflexivity.
  - cbn [parse_digits app] in *.
    destruct (digit_value a) as [da |].
    + apply IH; assumption.
    + destruct (Ascii.eqb a "_" && after_digit); [| discriminate].
      apply IH; assumption.
Qed.

(** The numeral of a positive number: digits only, read back as the
    number. *)
Lemma pretty_N_go_digits (x : N) :
  (0 < x)%N ->
  Forall (fun c => is_digit c = true) (list_ascii_of_string (pretty_N_go x ""))
  /\ parse_digits 0 false (list_ascii_of_string (pretty_N_go x "")) = Some (Z.of_N x).
Proof.
  induction (N.lt_wf_0 x) as [x _ IH]. intros Hpos.
  rewrite pretty_N_go_step by exact Hpos.
  pose proof (pretty_N_char_value (x `mod` 10)%N ltac:(apply N.mod_lt; lia)) as Hd.
  assert (Hdig : is_digit (pretty_N_char (x `mod` 10)%N) = true)
    by (unfold is_digit; rewrite Hd; reflexivity).
  destruct (N.eq_dec (x `div` 10)%N 0%N) as [Hq | Hq].
  - rewrite Hq, pretty_N_go_0. cbn [list_ascii_of_string parse_digits].
    rewrite Hd. split; [constructor; [exact Hdig | constructor] |].
    f_equal. pose proof (N.div_mod x 10 ltac:(lia)). lia.
  - assert (Hlt : (x `div` 10 < x)%N) by (apply N.div_lt; lia).
    assert (Hqpos : (0 < x `div` 10)%N) by (apply N.neq_0_lt_0; exact Hq).
    destruct (IH _ Hlt Hqpos) as [Hall Hparse].
    rewrite pretty_N_go_app, list_ascii_of_string_app.
    cbn [list_ascii_of_string]. split.
    + apply Forall_app. split; [exact Hall |]. constructor; [exact Hdig | constructor].
    + rewrite (parse_digits_snoc _ _ _ _ _ _ Hparse Hd).
      f_equal. pose proof (N.div_mod x 10 ltac:(lia)). lia.
Qed.

Lemma str_of_int_digits (n : Z) :
  0 <= n ->
  Forall (fun c => is_digit c = true) (list_ascii_of_string (str_of_int n))
  /\ parse_digits 0 false (list_ascii_of_string (str_of_int n)) = Some n.
Proof.
  intros Hn. destruct n as [| p | p]; [| | lia].
  - split; [repeat constructor | reflexivity].
  - change (str_of_int (Z.pos p)) with (pretty_N_go (N.pos p) "").
    destruct (pretty_N_go_digits (N.pos p) ltac:(lia)) as [Hall Hparse].
    split; [exact Hall | exact Hparse].
Qed.

Lemma is_digit_plain (c : ascii) :
  is_digit c = true ->
  is_space c = false /\ Ascii.eqb c "+" = false /\ Ascii.eqb c "-" = false
  /\ Ascii.eqb c ":" = false.
Proof.
  destruct c as [[] [] [] [] [] [] [] []]; intros H;
    solve [discriminate H | repeat split; vm_compute; reflexivity].
Qed.

Lemma lstrip_no_space (l : list ascii) :
  Forall (fun c => is_space c = false) l -> lstrip l = l.
Proof. intros H. destruct H as [| c l Hc _]; [reflexivity |]. cbn. rewrite Hc. reflexivity. Qed.

Lemma strip_no_space (l : list ascii) :
  Forall (fun c => is_space c = false) l -> strip l = l.
Proof.
  intros H. unfold strip. rewrite (lstrip_no_space l H).
  rewrite lstrip_no_space, rev_involutive; [reflexivity |].
  apply Forall_rev. exact H.
Qed.

(** [int(str(n)) == n] for a non-negative [n]. *)
Lemma py_int_str_of_int (n : Z) : 0 <= n -> py_int (str_of_int n) = Ok n.
Proof.
  intros Hn. destruct (str_of_int_digits n Hn) as [Hall Hparse].
  unfold py_int, int_literal.
  rewrite strip_no_space
    by (eapply Forall_impl; [exact Hall | intros c Hc; apply (is_digit_plain c Hc)]).
  destruct (list_ascii_of_string (str_of_int n)) as [| c l]; [discriminate |].
  apply Forall_cons in Hall. destruct Hall as [Hc _].
  destruct (is_digit_plain c Hc) as (_ & -> & -> & _).
  rewrite Hparse. reflexivity.
Qed.

Lemma str_of_int_lacks_colon (n : Z) : 0 <= n -> lacks ":" (str_of_int n).
Proof.
  intros Hn Hin. destruct (str_of_int_digits n Hn) as [Hall _].
  rewrite List.Forall_forall in Hall. specialize (Hall _ Hin). discriminate.
Qed.

(** ** Splitting and joining *)

Lemma split_max_nonempty (sep : ascii) (s : string) :
  forall m, split_max sep s m <> [].
Proof.
  induction s as [| c s IH]; intros m; [discriminate |].
  cbn [split_max]. destruct m as [| m]; [discriminate |].
  destruct (Ascii.eqb c sep); [discriminate |].
  destruct (split_max sep s (S m)); discriminate.
Qed.

Lemma lacks_cons (sep c : ascii) (s : string) :
  lacks sep (String c s) -> Ascii.eqb c sep = false /\ lacks sep s.
Proof.
  unfold lacks. cbn [list_ascii_of_string In]. intros H. split.
  - apply Ascii.eqb_neq. intros ->. apply H. left. reflexivity.
  - intros Hin. apply H. right. exact Hin.
Qed.

Lemma split_max_lacks (sep : ascii) (p : string) :
  lacks sep p -> forall m, split_max sep p m = [p].
Proof.
  induction p as [| c p IH]; intros Hp m; [reflexivity |].
  apply lacks_cons in Hp. destruct Hp as [Hc Hp].
  cbn [split_max]. destruct m as [| m]; [reflexivity |].
  rewrite Hc, (IH Hp). reflexivity.
Qed.

Lemma split_max_sep (sep : ascii) (p rest : string) :
  lacks sep p ->
  forall m, split_max sep (p +:+ String sep rest) (S m) = p :: split_max sep rest m.
Proof.
  induction p as [| c p IH]; intros Hp m.
  - change ("" +:+ String sep rest) with (String sep rest).
    cbn [split_max]. rewrite Ascii.eqb_refl. reflexivity.
  - apply lacks_cons in Hp. destruct Hp as [Hc Hp].
    change (String c p +:+ String sep rest) with (String c (p +:+ String sep rest)).
    cbn [split_max]. rewrite Hc, (IH Hp). reflexivity.
Qed.

Lemma join_cons_cons (sep p q : string) (r : list string) :
  join sep (p :: q :: r) = p +:+ sep +:+ join sep (q :: r).
Proof. reflexivity. Qed.

(** [sep.join(parts).split(sep) == parts] for a non-empty list of parts
    none of which holds the separator. *)
Lemma split_max_join (sep : ascii) (parts : list string) :
  parts <> [] -> Forall (lacks sep) parts ->
  forall m, (length parts <= S m)%nat ->
            split_max sep (join (String sep "") parts) m = parts.
Proof.
  induction parts as [| p parts IH]; intros Hne Hall m Hm; [contradiction |].
  apply Forall_cons in Hall. destruct Hall as [Hp Hall].
  destruct parts as [| q r].
  - change (join (String sep "") [p]) with p. apply split_max_lacks. exact Hp.
  - rewrite join_cons_cons.
    change (String sep "" +:+ join (String sep "") (q :: r))
      with (String sep (join (String sep "") (q :: r))).
    destruct m as [| m]; [cbn [length] in Hm; lia |].
    rewrite (split_max_sep sep p _ Hp). f_equal.
    apply IH; [discriminate | exact Hall | cbn [length] in *; lia].
Qed.

Lemma join_length (sep : ascii) (parts : list string) :
  (length parts <= S (String.length (join (String sep "") parts)))%nat.
Proof.
  induction parts as [| p parts IH]; [cbn; lia |].
  destruct parts as [| q r]; [cbn [length]; lia |].
  rewrite join_cons_cons, !string_length_app.
  cbn [length String.length] in *. lia.
Qed.

Lemma split_all_join (sep : ascii) (parts : list string) :
  parts <> [] -> Forall (lacks sep) parts ->
  split_all sep (join (String sep "") parts) = parts.
Proof.
  intros Hne Hall. unfold split_all.
  apply split_max_join; [exact Hne | exact Hall | apply join_length].
Qed.

(** ** The streaming wrapper *)

(** The per-chunk loop of the encoder yields one part per chunk, each
    the Base64 text of what [gzip.compress] returned for the chunk. *)
Lemma streaming_parts (env : Env) (chunks : list bytes) :
  forall parts,
    mapM (fun chunk =>
            compressed_chunk ← gzip_compress env chunk 6;
            Ok (b64encode env compressed_chunk)) chunks = Ok parts ->
    Forall2 (fun chunk part =>
               exists z, gzip_compress env chunk 6 = Ok z /\ part = b64encode env z)
            chunks parts.
Proof.
  induction chunks as [| c chunks IH]; intros parts H.
  - cbn [mapM] in H. injection H as <-. constructor.
  - cbn [mapM] in H.
    destruct (gzip_compress env c 6) as [z |] eqn:Hz; [| discriminate].
    cbn [mbind result_bind] in H.
    match type of H with
    | context [result_bind _ ?m] => destruct m as [ps |] eqn:Hps; [| discriminate]
    | context [?m ≫= _] => destruct m as [ps |] eqn:Hps; [| discriminate]
    end.
    cbn [mbind result_bind mret result_ret] in H. injection H as <-.
    constructor; [exists z; split; [exact Hz | reflexivity] | apply IH; reflexivity].
Qed.

Lemma streaming_parts_decode (env : Env) (chunks : list bytes) (parts : list string) :
  Forall (streams_faithfully env) chunks ->
  Forall2 (fun chunk part =>
             exists z, gzip_compress env chunk 6 = Ok z /\ part = b64encode env z)
          chunks parts ->
  Forall (lacks "|") parts
  /\ mapM (fun encoded_chunk =>
             compressed_chunk ← b64decode env encoded_chunk;
             gzip_decompress env compressed_chunk) parts = Ok chunks.
Proof.
  intros Hall H. induction H as [| c p chunks parts (z & Hz & ->) _ IH].
  - split; [constructor | reflexivity].
  - apply Forall_cons in Hall. destruct Hall as [Hc Hall].
    destruct (Hc z Hz) as (Hgz & Hb64 & Hbar).
    destruct (IH Hall) as [Hbars Hdec].
    split; [constructor; assumption |].
    cbn [mapM]. rewrite Hb64. cbn [mbind result_bind]. rewrite Hgz.
    cbn [mbind result_bind].
    match goal with
    | |- context [mapM ?f parts] => change (mapM f parts) with
          (mapM (fun encoded_chunk =>
                   compressed_chunk ← b64decode env encoded_chunk;
                   gzip_decompress env compressed_chunk) parts)
    end.
    rewrite Hdec. reflexivity.
Qed.

Lemma streaming_header (count chunks_data : string) :
  lacks ":" count ->
  String.prefix "STREAM:" ("STREAM:" +:+ count +:+ ":" +:+ chunks_data) = true
  /\ split_max ":" ("STREAM:" +:+ count +:+ ":" +:+ chunks_data) 2
     = ["STREAM"; count; chunks_data].
Proof.
  intros Hcount. split.
  - simpl. destruct (count +:+ ":" +:+ chunks_data); reflexivity.
  - change ("STREAM:" +:+ count +:+ ":" +:+ chunks_data)
      with ("STREAM" +:+ String ":" (count +:+ String ":" chunks_data)).
    assert (Htag : lacks ":" "STREAM").
    { unfold lacks. cbn. intuition discriminate. }
    rewrite (split_max_sep ":" "STREAM" _ Htag 1).
    rewrite (split_max_sep ":" count _ Hcount 0), split_max_0. reflexivity.
Qed.

(** X17: the frame of the streaming encoder declares [ceil(N / chunk_size)]
    chunks and carries as many parts, one per chunk of the payload in
    order. *)
Theorem streaming_frame (env : Env) (data : bytes) (chunk_size : nat) (s : string) :
  (0 < chunk_size)%nat ->
  _streaming_gzip_base64 env data chunk_size = Ok s ->
  exists parts,
    s = "STREAM:" +:+ str_of_int (len parts) +:+ ":" +:+ join "|" parts
    /\ len parts = (len data + Z.of_nat chunk_size - 1) / Z.of_nat chunk_size
    /\ Forall2 (fun chunk part =>
                  exists z, gzip_compress env chunk 6 = Ok z /\ part = b64encode env z)
               (py_chunks chunk_size data) parts.
Proof.
  intros Hn H. unfold _streaming_gzip_base64 in H.
  destruct (mapM _ (py_chunks chunk_size data)) as [parts |] eqn:Hparts; [| discriminate].
  cbn [mbind result_bind] in H. injection H as <-.
  pose proof (streaming_parts env _ _ Hparts) as Hall.
  exists parts. split; [reflexivity |]. split; [| exact Hall].
  destruct (py_chunks_spec chunk_size Hn data) as (_ & <- & _).
  unfold len. f_equal. symmetry. exact (Forall2_length _ _ _ Hall).
Qed.

Lemma streaming_frame_witness :
  (0 < 4)%nat
  /\ exists parts,
       "STREAM:4:Hell|o, W|orld|!"
       = "STREAM:" +:+ str_of_int (len parts) +:+ ":" +:+ join "|" parts
       /\ len parts = (len hello + Z.of_nat 4 - 1) / Z.of_nat 4
       /\ Forall2 (fun chunk part =>
                     exists z, gzip_compress stub_env chunk 6 = Ok z
                               /\ part = b64encode stub_env z)
                  (py_chunks 4 hello) parts.
Proof.
  assert (Hn : (0 < 4)%nat) by lia.
  split; [exact Hn |].
  apply (streaming_frame stub_env hello 4 "STREAM:4:Hell|o, W|orld|!" Hn).
  vm_compute. reflexivity.
Defined.

(** Codec level: the decoder inverts the encoder on a payload of at least
    one byte whose chunks the libraries treat faithfully. *)
Lemma streaming_round_trip (env : Env) (data : bytes) (chunk_size : nat) (s : string) :
  (0 < chunk_size)%nat -> data <> [] ->
  Forall (streams_faithfully env) (py_chunks chunk_size data) ->
  _streaming_gzip_base64 env data chunk_size = Ok s ->
  _streaming_gunzip_base64 env s = Ok data.
Proof.
  intros Hn Hne Hfaith H. unfold _streaming_gzip_base64 in H.
  destruct (mapM _ (py_chunks chunk_size data)) as [parts |] eqn:Hparts; [| discriminate].
  cbn [mbind result_bind] in H. injection H as <-.
  pose proof (streaming_parts env _ _ Hparts) as Hall.
  destruct (streaming_parts_decode env _ _ Hfaith Hall) as [Hbars Hdec].
  destruct (py_chunks_spec chunk_size Hn data) as (Hconcat & _ & _).
  assert (Hparts_ne : parts <> []).
  { rewrite (py_chunks_step chunk_size data Hn Hne) in Hall.
    inversion Hall. discriminate. }
  destruct (streaming_header (str_of_int (len parts)) (join "|" parts)
              (str_of_int_lacks_colon _ (len_nonneg parts))) as [Hprefix Hsplit].
  unfold _streaming_gunzip_base64. rewrite Hprefix, Hsplit. cbn [negb].
  rewrite py_int_str_of_int by apply len_nonneg. cbn [mbind result_bind].
  change (join "|" parts) with (join (String "|" "") parts).
  rewrite (split_all_join "|" parts Hparts_ne Hbars).
  rewrite bool_decide_eq_false_2 by (intros Hx; apply Hx; reflexivity).
  match goal with
  | |- context [mapM ?f parts] => change (mapM f parts) with
        (mapM (fun encoded_chunk =>
                 compressed_chunk ← b64decode env encoded_chunk;
                 gzip_decompress env compressed_chunk) parts)
  end.
  rewrite Hdec. cbn [mbind result_bind]. f_equal. exact Hconcat.
Qed.

(** X18: with ['streaming_gzip'] the public pair round-trips: when
    [compress_data] returns under that name, for a payload whose 64 KiB
    chunks the libraries treat faithfully, [decompress_data] gives the payload
    back. *)
Theorem streaming_compress_decompress env data level w s md w' :
  Forall (streams_faithfully env) (py_chunks default_chunk_size data) ->
  compress_data env data "streaming_gzip" level w = (Ok (s, md), w') ->
  meta_method md = "streaming_gzip" ->
  decompress_data env s md = Ok data.
Proof.
  intros Hfaith Hcall Hm.
  destruct (compress_data_returned _ _ _ _ _ _ _ _ Hcall) as (m & w1 & Hatt & Hne & Hmd & _).
  assert (Hmm : m = "streaming_gzip") by (rewrite Hmd in Hm; exact Hm).
  subst m.
  change (resolve_method env data "streaming_gzip") with "streaming_gzip" in Hatt.
  apply compress_attempt_cases in Hatt.
  destruct Hatt as [Henc | (e & w0 & _ & _ & _ & Hbad)]; [| discriminate].
  change (compress_encode env data "streaming_gzip" level)
    with (lift (_streaming_gzip_base64 env data default_chunk_size)
          ≫= fun c => (mret (c, "streaming_gzip") : eng (string * string))) in Henc.
  rewrite eng_bind_eq in Henc. unfold lift in Henc.
  destruct (_streaming_gzip_base64 env data default_chunk_size) as [c |] eqn:Hs;
    [| discriminate].
  unfold mret, eng_ret in Henc. injection Henc as -> _.
  unfold decompress_data. rewrite Hm.
  change (_streaming_gunzip_base64 env s = Ok data).
  apply (streaming_round_trip env data default_chunk_size s); try assumption.
  unfold default_chunk_size. lia.
Qed.

Lemma streaming_compress_decompress_witness :
  Forall (streams_faithfully stub_env) (py_chunks default_chunk_size hello)
  /\ exists s md w',
       compress_data stub_env hello "streaming_gzip" 6 new_engine = (Ok (s, md), w')
       /\ meta_method md = "streaming_gzip"
       /\ decompress_data stub_env s md = Ok hello.
Proof.
  assert (Hfaith : Forall (streams_faithfully stub_env) (py_chunks default_chunk_size hello)).
  { replace (py_chunks default_chunk_size hello) with [hello] by (vm_compute; reflexivity).
    constructor; [| constructor].
    intros z [= <-]. split; [reflexivity |]. split; [reflexivity |].
    unfold lacks. vm_compute. intuition discriminate. }
  split; [exact Hfaith |].
  destruct (compress_data stub_env hello "streaming_gzip" 6 new_engine)
    as [[[s md] | e] w'] eqn:E; [| vm_compute in E; discriminate].
  assert (Hm : meta_method md = "streaming_gzip").
  { pose proof E as E'. vm_compute in E'. injection E' as _ <- _. reflexivity. }
  exists s, md, w'. split; [reflexivity |]. split; [exact Hm |].
  exact (streaming_compress_decompress stub_env hello 6 new_engine s md w' Hfaith E Hm).
Defined.

(** ** The hybrid benchmark: what the frame holds *)

Lemma hybrid_trial_result env data method w c :
  (hybrid_trial env data method w).1 = Ok (Some c) ->
  cand_method c = method /\ candidate_of env data c.
Proof.
  unfold hybrid_trial, try_except, candidate_of. rewrite eng_bind_eq.
  change (time_time env w) with (Ok (clock env (clock_reads w)), tick w).
  cbv beta iota. rewrite eng_bind_eq. unfold lift at 1.
  destruct (hybrid_encode env data method) as [[result |] | e] eqn:He;
    cbv beta iota; [| discriminate | discriminate].
  rewrite eng_bind_eq.
  change (time_time env (tick w))
    with (Ok (clock env (clock_reads (tick w))), tick (tick w)).
  cbv beta iota. rewrite eng_bind_eq. unfold lift at 1.
  destruct (hybrid_score _ _) as [score | e]; cbv beta iota; [| discriminate].
  intros Hc. cbn in Hc. injection Hc as <-.
  cbn [cand_method cand_result]. split; [reflexivity | exact He].
Qed.

(** On a clock that does not run backwards, a pipeline that returns a
    non-empty string whose size converts to a float yields a candidate. *)
Lemma hybrid_trial_returns env data method result w :
  monotone_clock env ->
  hybrid_encode env data method = Ok (Some result) -> 0 < utf8_len result <= 2 ^ 1023 ->
  exists c, (hybrid_trial env data method w).1 = Ok (Some c).
Proof.
  intros Hmono He Hsize.
  unfold hybrid_trial, try_except. rewrite eng_bind_eq.
  change (time_time env w) with (Ok (clock env (clock_reads w)), tick w).
  cbv beta iota. rewrite eng_bind_eq. unfold lift at 1. rewrite He.
  cbv beta iota. rewrite eng_bind_eq.
  change (time_time env (tick w))
    with (Ok (clock env (clock_reads (tick w))), tick (tick w)).
  cbv beta iota. rewrite eng_bind_eq. unfold lift at 1.
  change (clock_reads (tick w)) with (S (clock_reads w)).
  destruct (hybrid_score_returns (utf8_len result) _ _ Hsize (Hmono (clock_reads w)))
    as [score ->].
  cbv beta iota. eexists. reflexivity.
Qed.

Lemma hybrid_trials_results env data methods :
  forall w,
  exists cands w',
    hybrid_trials env data methods w = (Ok cands, w')
    /\ Forall (fun c => In (cand_method c) methods /\ candidate_of env data c) cands
    /\ (monotone_clock env ->
        (exists m result,
            In m methods /\ hybrid_encode env data m = Ok (Some result)
            /\ 0 < utf8_len result <= 2 ^ 1023) ->
        cands <> []).
Proof.
  induction methods as [| method rest IH]; intros w.
  - exists [], w. split; [reflexivity |]. split; [constructor |].
    intros _ (m & result & [] & _).
  - cbn [hybrid_trials]. rewrite eng_bind_eq.
    destruct (hybrid_trial_total env data method w) as [c Hc].
    pose proof (hybrid_trial_result env data method w) as Hres.
    pose proof (fun result => hybrid_trial_returns env data method result w) as Hret.
    destruct (hybrid_trial env data method w) as [r w1]. cbn [fst] in Hc, Hres, Hret.
    subst r. rewrite eng_bind_eq.
    destruct (IH w1) as (cands & w' & Hrun & Hall & Hne).
    rewrite Hrun. cbv beta iota.
    assert (Hall' : Forall (fun c => In (cand_method c) (method :: rest)
                                     /\ candidate_of env data c) cands).
    { eapply Forall_impl; [exact Hall |]. intros x [Hin Hx]. split; [right |]; assumption. }
    destruct c as [c |].
    + destruct (Hres c eq_refl) as [Hm Hcand].
      exists (c :: cands), w'. split; [reflexivity |]. split; [| discriminate].
      constructor; [| exact Hall']. split; [left; symmetry; exact Hm | exact Hcand].
    + exists cands, w'. split; [reflexivity |]. split; [exact Hall' |].
      intros Hmono (m & result & [Hm | Hin] & He & Hsize).
      * subst m. destruct (Hret result Hmono He Hsize) as [c Hc']. discriminate.
      * apply (Hne Hmono). exists m, result. auto.
Qed.

Lemma utf8_len_le (s : string) : utf8_len s <= 2 * str_len s.
Proof.
  unfold str_len. induction s as [| c s IH]; cbn [utf8_len String.length]; [lia |].
  destruct (Z.of_nat (nat_of_ascii c) <? 128); lia.
Qed.

(** The base-85 string of a payload under 100 KiB is short. *)
Lemma z85_size_small (data : bytes) (digits : string) :
  len data < 100 * 1024 ->
  str_len digits * 4 = len (z85_pad data) * 5 ->
  0 < utf8_len ("Z85:" +:+ str_of_int (z85_padding data) +:+ ":" +:+ digits) <= 2 ^ 1023.
Proof.
  intros Hsmall Hdigits.
  pose proof (z85_padding_range data) as Hp.
  assert (Hpad : len (z85_pad data) = len data + z85_padding data).
  { unfold z85_pad, len. rewrite length_app, repeat_length. lia. }
  assert (Hpu : utf8_len (str_of_int (z85_padding data)) = 1).
  { assert (Hc : z85_padding data = 0 \/ z85_padding data = 1
                 \/ z85_padding data = 2 \/ z85_padding data = 3) by lia.
    destruct Hc as [-> | [-> | [-> | ->]]]; reflexivity. }
  rewrite !utf8_len_app, Hpu.
  change (utf8_len "Z85:") with 4. change (utf8_len ":") with 1.
  pose proof (utf8_len_nonneg digits) as Hnn.
  pose proof (utf8_len_le digits) as Hle.
  split; [lia |].
  apply Z.le_trans with (2 ^ 20).
  - change (2 ^ 20) with 1048576. lia.
  - apply Z.pow_le_mono_r; lia.
Qed.

(** X19: what [_hybrid_compress] returns is either the plain Base64 of the
    payload or a [HYBRID:] frame that names one of the methods tried and holds
    what that method's pipeline returned for the payload.  On a clock that
    does not run backwards a payload under 100 KiB always gets the frame: the
    base-85 trial cannot fail. *)
Theorem hybrid_frame_contents (env : Env) (data : bytes) (w : Engine) :
  exists s w',
    _hybrid_compress env data w = (Ok s, w')
    /\ (s = b64encode env data
        \/ exists method result,
             s = "HYBRID:" +:+ method +:+ ":" +:+ result
             /\ In method (hybrid_methods_to_try env data)
             /\ hybrid_encode env data method = Ok (Some result))
    /\ (monotone_clock env -> len data < 100 * 1024 ->
        exists method result, s = "HYBRID:" +:+ method +:+ ":" +:+ result).
Proof.
  destruct (hybrid_trials_results env data (hybrid_methods_to_try env data) w)
    as (cands & w' & Hrun & Hall & Hne).
  unfold _hybrid_compress. rewrite eng_bind_eq, Hrun. cbv beta iota.
  destruct cands as [| c0 cands].
  - exists (b64encode env data), w'. split; [reflexivity |]. split; [left; reflexivity |].
    intros Hmono Hsmall. exfalso. apply (Hne Hmono); [| reflexivity].
    destruct (z85_encode_decode data) as (digits & Henc & Hdigits & _).
    eexists "z85", _. split; [| split].
    + unfold hybrid_methods_to_try.
      destruct (Z.ltb_spec (len data) (100 * 1024)) as [_ | Hge]; [| lia].
      apply in_or_app. right. apply in_or_app. right. apply in_or_app. right.
      left. reflexivity.
    + unfold hybrid_encode. cbn [String.eqb Ascii.eqb Bool.eqb]. rewrite Henc. reflexivity.
    + exact (z85_size_small data digits Hsmall Hdigits).
  - pose proof (max_go_In float_gt cand_score cands c0) as Hin.
    rewrite List.Forall_forall in Hall. destruct (Hall _ Hin) as [Hm Hcand].
    eexists _, w'. split; [reflexivity |]. split.
    + right. eexists _, _. split; [reflexivity |]. split; [exact Hm | exact Hcand].
    + intros _ _. eexists _, _. reflexivity.
Qed.

Lemma hybrid_frame_contents_witness :
  monotone_clock stub_env
  /\ len hello < 100 * 1024
  /\ exists method result w',
       _hybrid_compress stub_env hello new_engine
       = (Ok ("HYBRID:" +:+ method +:+ ":" +:+ result), w').
Proof.
  assert (Hmono : monotone_clock stub_env) by (intros n; unfold Qle; simpl; lia).
  assert (Hsmall : len hello < 100 * 1024) by (vm_compute; reflexivity).
  split; [exact Hmono |]. split; [exact Hsmall |].
  destruct (hybrid_frame_contents stub_env hello new_engine)
    as (s & w' & Hrun & _ & Hframed).
  destruct (Hframed Hmono Hsmall) as (method & result & ->).
  exists method, result, w'. exact Hrun.
Defined.

(** ** [compress_data] absorbs every failure but that of the empty payload *)

(** X20: for a payload of at least one byte [compress_data] returns, whatever
    the method name, the level and the behaviour of the libraries, and it
    counts the call; on the empty payload it raises [ZeroDivisionError] and
    leaves the statistics as they were. *)
Theorem compress_data_returns_unless_empty env data method level w :
  (data <> [] ->
   exists s md w',
     compress_data env data method level w = (Ok (s, md), w')
     /\ files_processed (compression_stats w')
        = files_processed (compression_stats w) + 1)
  /\ (data = [] ->
      exists w',
        compress_data env data method level w = (Raise ZeroDivisionError, w')
        /\ compression_stats w' = compression_stats w).
Proof.
  destruct (compress_data_cases env data method level w)
    as (c & m & w1 & _ & Hstats & _ & H).
  split.
  - intros Hne. destruct data as [| b data']; [contradiction |].
    destruct H as (md & st' & Heq & _ & _ & _ & _ & Hstep).
    eexists c, md, _. split; [exact Heq |].
    destruct Hstep as (Hfiles & _). exact Hfiles.
  - intros ->. exists (tick w1). split; [exact H | exact Hstats].
Qed.

Lemma compress_data_returns_unless_empty_witness :
  (hello <> []
   /\ exists s md w',
        compress_data stub_env hello "no such method" 6 new_engine = (Ok (s, md), w')
        /\ files_processed (compression_stats w')
           = files_processed (compression_stats new_engine) + 1)
  /\ exists w',
       compress_data stub_env [] "z85" 6 new_engine = (Raise ZeroDivisionError, w')
       /\ compression_stats w' = compression_stats new_engine.
Proof.
  assert (Hne : hello <> []) by discriminate.
  split.
  - split; [exact Hne |].
    exact (proj1 (compress_data_returns_unless_empty stub_env hello "no such method" 6
                    new_engine) Hne).
  - exact (proj2 (compress_data_returns_unless_empty stub_env [] "z85" 6 new_engine)
             eq_refl).
Defined.

(** ** The base-85 decoder: incomplete trailing group *)

Lemma z85_decode_chunks_tail (k : nat) :
  forall body tail : list ascii,
    length body = (5 * k)%nat -> (length tail < 5)%nat ->
    z85_decode_chunks (py_chunks 5 (body ++ tail)) = z85_decode_chunks (py_chunks 5 body).
Proof.
  induction k as [| k IH]; intros body tail Hlen Htail.
  - destruct body; [| simpl in Hlen; lia]. cbn [app].
    destruct tail as [| c tail]; [reflexivity |].
    rewrite py_chunks_step by (lia || discriminate).
    rewrite py_chunks_nil. cbn [z85_decode_chunks].
    rewrite bool_decide_eq_true_2; [reflexivity |].
    rewrite length_take. lia.
  - destruct body as [| a [| b [| c [| d [| e rest]]]]]; try (simpl in Hlen; lia).
    change (a :: b :: c :: d :: e :: rest) with ([a; b; c; d; e] ++ rest).
    rewrite <- app_assoc.
    rewrite (py_chunks_app 5 [a; b; c; d; e] (rest ++ tail)) by (reflexivity || lia).
    rewrite (py_chunks_app 5 [a; b; c; d; e] rest) by (reflexivity || lia).
    cbn [z85_decode_chunks].
    rewrite IH by (simpl in Hlen; lia). reflexivity.
Qed.

Lemma list_ascii_of_string_length (s : string) :
  length (list_ascii_of_string s) = String.length s.
Proof. induction s as [| c s IH]; simpl; [reflexivity | f_equal; exact IH]. Qed.

Lemma z85_header (count encoded : string) :
  lacks ":" count ->
  String.prefix "Z85:" ("Z85:" +:+ count +:+ ":" +:+ encoded) = true
  /\ split_max ":" ("Z85:" +:+ count +:+ ":" +:+ encoded) 2 = ["Z85"; count; encoded].
Proof.
  intros Hcount. split.
  - simpl. destruct (count +:+ ":" +:+ encoded); reflexivity.
  - change ("Z85:" +:+ count +:+ ":" +:+ encoded)
      with ("Z85" +:+ String ":" (count +:+ String ":" encoded)).
    assert (Htag : lacks ":" "Z85").
    { unfold lacks. cbn. intuition discriminate. }
    rewrite (split_max_sep ":" "Z85" _ Htag 1).
    rewrite (split_max_sep ":" count _ Hcount 0), split_max_0. reflexivity.
Qed.

(** X21: [_decode_z85] stops at a trailing group of fewer than five
    characters without an error: up to four characters after the last complete
    group change nothing, whatever they are, in the result or in the exception
    raised. *)
Theorem z85_decode_ignores_tail (count body tail : string) :
  lacks ":" count ->
  (String.length body mod 5 = 0)%nat -> (String.length tail < 5)%nat ->
  _decode_z85 ("Z85:" +:+ count +:+ ":" +:+ body +:+ tail)
  = _decode_z85 ("Z85:" +:+ count +:+ ":" +:+ body).
Proof.
  intros Hcount Hbody Htail.
  destruct (z85_header count (body +:+ tail) Hcount) as [Hp1 Hs1].
  destruct (z85_header count body Hcount) as [Hp2 Hs2].
  unfold _decode_z85. rewrite Hp1, Hp2, Hs1, Hs2. cbn [negb].
  assert (Hdec : z85_decode_body (body +:+ tail) = z85_decode_body body).
  { unfold z85_decode_body. rewrite list_ascii_of_string_app.
    pose proof (Nat.div_mod_eq (String.length body) 5) as Hdm.
    rewrite (z85_decode_chunks_tail (String.length body / 5)); [reflexivity | |].
    - rewrite list_ascii_of_string_length. lia.
    - rewrite list_ascii_of_string_length. exact Htail. }
  rewrite Hdec. reflexivity.
Qed.

Lemma z85_decode_ignores_tail_witness :
  lacks ":" "0"
  /\ _decode_z85 "Z85:0:HelloWorld#:x" = _decode_z85 "Z85:0:HelloWorld".
Proof.
  assert (Hcount : lacks ":" "0").
  { unfold lacks. cbn. intuition discriminate. }
  split; [exact Hcount |].
  apply (z85_decode_ignores_tail "0" "HelloWorld" "#:x" Hcount); [reflexivity | cbn; lia].
Defined.
